(** * Superstore star-schema pipeline (app.py): a shallow embedding

    The development follows the source top to bottom:
    - [Calendar]   : what pandas computes on day-resolution timestamps
                     (strftime("%Y%m%d"), .dt.day/.month/.quarter/.year,
                     ISO week, the monthly period label);
    - [PyStr]      : the str methods used by [clean_postal];
    - [Frame]      : the pandas operations the pipeline is built from
                     (duplicated / drop_duplicates, sort_values, groupby,
                     dict(zip(..)), Series.map, column min / max);
    - the pipeline : [clean_postal], [load_and_prepare_raw],
                     [build_star_schema], [make_summary_json];
    - the properties C1 .. C10 of the specification, one theorem each. *)

From stdpp Require Import gmap strings list sorting.
From Stdlib Require Import ZArith Lia Ascii.

(** ** Calendar *)

Module Calendar.
Local Open Scope Z_scope.

(** A parsed date cell is a whole day, counted from 1970-01-01 (the input
    holds DD/MM/YYYY strings, so the time of day is always midnight). *)
Definition Timestamp : Type := Z.

(** Day count to proleptic Gregorian (year, month, day). *)
Definition civil_from_days (t : Timestamp) : Z * Z * Z :=
  let z := t + 719468 in
  let era := z / 146097 in
  let doe := z - era * 146097 in
  let yoe := (doe - doe / 1460 + doe / 36524 - doe / 146096) / 365 in
  let y := yoe + era * 400 in
  let doy := doe - (365 * yoe + yoe / 4 - yoe / 100) in
  let mp := (5 * doy + 2) / 153 in
  let d := doy - (153 * mp + 2) / 5 + 1 in
  let m := if mp <? 10 then mp + 3 else mp - 9 in
  (if m <=? 2 then y + 1 else y, m, d).

Definition days_from_civil (y m d : Z) : Timestamp :=
  let y := if m <=? 2 then y - 1 else y in
  let era := y / 400 in
  let yoe := y - era * 400 in
  let doy := (153 * (if m >? 2 then m - 3 else m + 9) + 2) / 5 + d - 1 in
  let doe := yoe * 365 + yoe / 4 - yoe / 100 + doy in
  era * 146097 + doe - 719468.

Definition year_of (t : Timestamp) : Z := fst (fst (civil_from_days t)).
Definition month_of (t : Timestamp) : Z := snd (fst (civil_from_days t)).
Definition day_of (t : Timestamp) : Z := snd (civil_from_days t).

(** [.dt.strftime("%Y%m%d").astype(int)] *)
Definition date_key_of (t : Timestamp) : Z :=
  year_of t * 10000 + month_of t * 100 + day_of t.

(** [.dt.quarter] *)
Definition quarter_of (t : Timestamp) : Z := (month_of t - 1) / 3 + 1.

(** [.dt.strftime("%B")] *)
Definition month_name_of (t : Timestamp) : string :=
  match month_of t with
  | 1 => "January" | 2 => "February" | 3 => "March" | 4 => "April"
  | 5 => "May" | 6 => "June" | 7 => "July" | 8 => "August"
  | 9 => "September" | 10 => "October" | 11 => "November" | _ => "December"
  end%string.

(** [.dt.isocalendar().week]: the week of the Thursday of the same
    Monday-based week; 1970-01-01 was a Thursday. *)
Definition week_of_year (t : Timestamp) : Z :=
  let wd := (t + 3) mod 7 + 1 in
  let th := t - wd + 4 in
  (th - days_from_civil (year_of th) 1 1) / 7 + 1.

(** [pd.date_range(start, end, freq="D")] on two valid timestamps: every
    day from [start] to [end], both included; empty when [end < start]. *)
Definition days_between (a b : Timestamp) : list Timestamp :=
  (λ i : nat, a + Z.of_nat i) <$> seq 0 (Z.to_nat (b - a + 1)).

(** Decimal rendering with leading zeros, as in strftime's %Y and %m. *)
Definition digit (n : Z) : ascii := ascii_of_nat (48 + Z.to_nat (n mod 10)).

Definition pad2 (n : Z) : string :=
  String (digit (n / 10)) (String (digit n) EmptyString).

Definition pad4 (n : Z) : string :=
  String (digit (n / 1000)) (String (digit (n / 100)) (pad2 n)).

(** [.dt.to_period("M").astype(str)] on a valid timestamp: "YYYY-MM". *)
Definition month_label (t : Timestamp) : string :=
  (pad4 (year_of t) +:+ "-" +:+ pad2 (month_of t))%string.

(** Months in calendar order. *)
Definition month_index (t : Timestamp) : Z := year_of t * 12 + month_of t.

(** Timestamps whose year is written with four digits (all that pandas
    can hold at nanosecond resolution: 1677 to 2262). *)
Definition four_digit_year (t : Timestamp) : Prop := 0 ≤ year_of t ≤ 9999.

(** A strict reading of day-first dates, "DD/MM/YYYY" with a real calendar
    day, for the examples; [pd.to_datetime] accepts more spellings. *)
Definition digit_val (c : ascii) : option Z :=
  let n := nat_of_ascii c in
  if ((48 <=? n) && (n <=? 57))%nat then Some (Z.of_nat (n - 48)) else None.

Definition two_digits (a b : ascii) : option Z :=
  match digit_val a, digit_val b with
  | Some x, Some y => Some (10 * x + y)
  | _, _ => None
  end.

Definition is_leap (y : Z) : bool :=
  ((y mod 4 =? 0) && negb (y mod 100 =? 0)) || (y mod 400 =? 0).

Definition days_in_month (y m : Z) : Z :=
  if m =? 2 then (if is_leap y then 29 else 28)
  else if (m =? 4) || (m =? 6) || (m =? 9) || (m =? 11) then 30
  else 31.

Definition parse_dayfirst (s : string) : option Timestamp :=
  match s with
  | String d1 (String d2 (String "/" (String m1 (String m2 (String "/"
      (String y1 (String y2 (String y3 (String y4 EmptyString))))))))) =>
      match two_digits d1 d2, two_digits m1 m2, two_digits y1 y2, two_digits y3 y4 with
      | Some d, Some m, Some yh, Some yl =>
          let y := 100 * yh + yl in
          if (1 <=? m) && (m <=? 12) && (1 <=? d) && (d <=? days_in_month y m)
          then Some (days_from_civil y m d)
          else None
      | _, _, _, _ => None
      end
  | _ => None
  end.

Definition to_datetime_strict (column : list (option string)) (i : nat)
    : option Timestamp :=
  match column !! i with
  | Some (Some s) => parse_dayfirst s
  | _ => None
  end.

(** What is checked from each day of an era to the next: the YYYYMMDD
    number grows, and the month is in range. *)
Definition step_ok (c c' : Z * Z * Z) : bool :=
  (c.1.1 * 10000 + c.1.2 * 100 + c.2 <? c'.1.1 * 10000 + c'.1.2 * 100 + c'.2)
  && (1 <=? c.1.2) && (c.1.2 <=? 12).

(** The check on the [n] days from [t] on, [c] being the date of [t]; used
    to settle calendar facts on one 400-year era by evaluation. *)
Fixpoint era_scan (n : nat) (t : Timestamp) (c : Z * Z * Z) : bool :=
  match n with
  | O => true
  | S k =>
      let c' := civil_from_days (t + 1) in
      step_ok c c' && era_scan k (t + 1) c'
  end.

End Calendar.

(** ** Python string methods *)

Module PyStr.

(** A text is held as the bytes of its UTF-8 encoding, so a character takes
    one to four bytes; comparing two texts byte by byte orders them as
    Python orders [str] values. [str.strip()] removes the characters that
    [str.isspace()] accepts: the ASCII ones and U+0085, U+00A0, U+1680,
    U+2000..U+200A, U+2028, U+2029, U+202F, U+205F, U+3000. *)

(** [str.isspace] on a character of one byte: TAB..CR, FS..US and the
    space. *)
Definition isspace (c : ascii) : bool :=
  let n := nat_of_ascii c in
  ((9 <=? n) && (n <=? 13)) || ((28 <=? n) && (n <=? 32)).

(** ... of two bytes: U+0085 and U+00A0. *)
Definition isspace2 (c1 c2 : ascii) : bool :=
  let n1 := nat_of_ascii c1 in
  let n2 := nat_of_ascii c2 in
  (n1 =? 194) && ((n2 =? 133) || (n2 =? 160)).

(** ... of three bytes: U+1680, U+2000..U+200A, U+2028, U+2029, U+202F,
    U+205F and U+3000. *)
Definition isspace3 (c1 c2 c3 : ascii) : bool :=
  let n1 := nat_of_ascii c1 in
  let n2 := nat_of_ascii c2 in
  let n3 := nat_of_ascii c3 in
  ((n1 =? 225) && (n2 =? 154) && (n3 =? 128))
  || ((n1 =? 226) && (n2 =? 128)
      && (((128 <=? n3) && (n3 <=? 138))
          || (n3 =? 168) || (n3 =? 169) || (n3 =? 175)))
  || ((n1 =? 226) && (n2 =? 129) && (n3 =? 159))
  || ((n1 =? 227) && (n2 =? 128) && (n3 =? 128)).

(** A byte that continues a character of several bytes. *)
Definition continuation (c : ascii) : bool :=
  let n := nat_of_ascii c in (128 <=? n) && (n <=? 191).

(** The text after the white-space character that [s] starts with, if it
    starts with one. *)
Definition skip_space (s : string) : option string :=
  match s with
  | String c1 s1 =>
      if isspace c1 then Some s1
      else
        match s1 with
        | String c2 s2 =>
            if isspace2 c1 c2 then Some s2
            else
              match s2 with
              | String c3 s3 => if isspace3 c1 c2 c3 then Some s3 else None
              | EmptyString => None
              end
        | EmptyString => None
        end
  | EmptyString => None
  end.

Fixpoint lstrip (s : string) : string :=
  match s with
  | String c1 s1 =>
      if isspace c1 then lstrip s1
      else
        match s1 with
        | String c2 s2 =>
            if isspace2 c1 c2 then lstrip s2
            else
              match s2 with
              | String c3 s3 => if isspace3 c1 c2 c3 then lstrip s3 else s
              | EmptyString => s
              end
        | EmptyString => s
        end
  | EmptyString => s
  end.

(** A text made of white space only (the empty text included). *)
Definition blank (s : string) : bool :=
  match lstrip s with
  | EmptyString => true
  | String _ _ => false
  end.

Fixpoint rstrip (s : string) : string :=
  match s with
  | EmptyString => EmptyString
  | String c s' => if blank s then EmptyString else String c (rstrip s')
  end.

(** [s.strip()] *)
Definition strip (s : string) : string := rstrip (lstrip s).

(** [s.endswith(suf)] *)
Definition endswith (s suf : string) : bool :=
  let n := String.length s in
  let m := String.length suf in
  (m <=? n)%nat && String.eqb (String.substring (n - m) m s) suf.

(** [s[:-k]] *)
Definition drop_last (k : nat) (s : string) : string :=
  String.substring 0 (String.length s - k) s.

(** The text of an integer: decimal digits after an optional sign. *)
Definition is_digit (c : ascii) : bool :=
  let n := nat_of_ascii c in (48 <=? n) && (n <=? 57).

Fixpoint all_digits (s : string) : bool :=
  match s with
  | EmptyString => true
  | String c s' => is_digit c && all_digits s'
  end.

Definition integer_text (s : string) : bool :=
  match s with
  | EmptyString => false
  | String c s' => (is_digit c || Ascii.eqb c "-") && all_digits s'
  end.

End PyStr.

(** [clean_postal(x)]: [x] is [None] for a missing cell ([pd.isna]),
    otherwise [Some] of its text [str(x)]. *)
Definition clean_postal (x : option string) : string :=
  match x with
  | None => "Unknown"
  | Some v =>
      let s := PyStr.strip v in
      if PyStr.endswith s ".0" then PyStr.drop_last 2 s else s
  end.

(** ** pandas operations *)

Module Frame.

(** A comparison used as a sort key order: total and transitive. *)
Class TotalPreorderB {A} (le : A → A → bool) := {
  leb_total x y : le x y ∨ le y x;
  leb_trans x y z : le x y → le y z → le x z
}.

Class TotalOrderB {A} (le : A → A → bool) := {
  leb_preorder :: TotalPreorderB le;
  leb_antisym x y : le x y → le y x → x = y
}.

(** The sorting routine behind [sort_values] and the ordering of group
    keys. With the default [kind="quicksort"] the relative order of rows
    with equal sort keys is not specified, so the routine is kept abstract:
    all that is known is that it returns the same rows, in ascending
    order. *)
Record SortAlgo := {
  sort_by : ∀ A : Type, (A → A → bool) → list A → list A;
  sort_by_perm : ∀ A le l, sort_by A le l ≡ₚ l;
  sort_by_sorted : ∀ A le l,
    TotalPreorderB le → StronglySorted (λ x y, le x y) (sort_by A le l)
}.
Arguments sort_by _ {_} _ _.

(** Orders for sorting on one column, on several columns
    (lexicographically), and for [ascending=False]. *)
Definition on {A B} (f : A → B) (le : B → B → bool) : A → A → bool :=
  λ x y, le (f x) (f y).

Definition lex {A B} `{EqDecision A}
    (le1 : A → A → bool) (le2 : B → B → bool) : A * B → A * B → bool :=
  λ x y, if decide (x.1 = y.1) then le2 x.2 y.2 else le1 x.1 y.1.

Definition desc {A} (le : A → A → bool) : A → A → bool := λ x y, le y x.

Section duplicates.
Context {A K : Type} `{EqDecision K}.

(** [df.duplicated(subset, keep="first")]: the mask is True on a row
    whose key was met on an earlier row. *)
Fixpoint duplicated_from (seen keys : list K) : list bool :=
  match keys with
  | [] => []
  | k :: ks => bool_decide (k ∈ seen) :: duplicated_from (k :: seen) ks
  end.

Definition duplicated (keys : list K) : list bool := duplicated_from [] keys.

(** [df.loc[~mask]] *)
Fixpoint loc_not (mask : list bool) (l : list A) : list A :=
  match mask, l with
  | b :: mask', x :: l' => if b then loc_not mask' l' else x :: loc_not mask' l'
  | _, _ => []
  end.

(** [df.drop_duplicates(subset)] is [df[~df.duplicated(subset)]]. *)
Definition drop_duplicates (key : A → K) (l : list A) : list A :=
  loc_not (duplicated (key <$> l)) l.
End duplicates.

(** [df.groupby(key)]: one group per distinct key, groups in ascending key
    order, the rows of a group in frame order. *)
Definition groupby {A K} `{EqDecision K} (S : SortAlgo) (le : K → K → bool)
    (key : A → K) (l : list A) : list (K * list A) :=
  (λ k, (k, filter (λ x, key x = k) l))
    <$> sort_by S le (drop_duplicates id (key <$> l)).

(** [df.groupby(key)] on a key column that has missing cells: with the
    default [dropna=True] the rows whose key is missing belong to no
    group. *)
Definition groupby_dropna {A K} `{EqDecision K} (S : SortAlgo) (le : K → K → bool)
    (key : A → option K) (l : list A) : list (K * list A) :=
  (λ k, (k, filter (λ x, key x = Some k) l))
    <$> sort_by S le (drop_duplicates id (omap key l)).

(** [dict(zip(ks, vs))], and the loop [d[k] = v]: a later pair overwrites
    an earlier one with the same key. *)
Definition dict_zip {K V} `{Countable K} (ks : list K) (vs : list V) : gmap K V :=
  foldl (λ m kv, <[kv.1 := kv.2]> m) ∅ (zip ks vs).

(** [range(1, len(l) + 1)] laid next to the rows. *)
Definition with_keys {A} (l : list A) : list (Z * A) :=
  zip (Z.of_nat <$> seq 1 (length l)) l.

(** A Python dict built by a comprehension, in insertion order: a key
    already present keeps its place and takes the new value. *)
Fixpoint dict_set {K V} `{EqDecision K} (k : K) (v : V) (d : list (K * V)) : list (K * V) :=
  match d with
  | [] => [(k, v)]
  | (k', v') :: d' => if decide (k' = k) then (k, v) :: d' else (k', v') :: dict_set k v d'
  end.

Definition dict_comprehension {K V} `{EqDecision K} (kvs : list (K * V)) : list (K * V) :=
  foldl (λ d kv, dict_set kv.1 kv.2 d) [] kvs.

Section timestamps.
Import Calendar.
Local Open Scope Z_scope.

(** A datetime cell: [None] is NaT. *)
Definition cell_min (acc x : option Timestamp) : option Timestamp :=
  match acc, x with
  | Some a, Some b => Some (Z.min a b)
  | None, _ => x
  | _, None => acc
  end.

Definition cell_max (acc x : option Timestamp) : option Timestamp :=
  match acc, x with
  | Some a, Some b => Some (Z.max a b)
  | None, _ => x
  | _, None => acc
  end.

(** [Series.min()] and [Series.max()]: NaT is skipped; NaT when nothing
    is left. *)
Definition col_min (c : list (option Timestamp)) : option Timestamp :=
  foldl cell_min None c.
Definition col_max (c : list (option Timestamp)) : option Timestamp :=
  foldl cell_max None c.

(** [a < b] on Timestamp-or-NaT: every comparison with NaT is False. *)
Definition ts_lt (a b : option Timestamp) : bool :=
  match a, b with
  | Some x, Some y => x <? y
  | _, _ => false
  end.

(** The builtins [min(a, b)] and [max(a, b)]: the first argument is kept
    unless the second compares strictly below (above) it. *)
Definition py_min (a b : option Timestamp) : option Timestamp :=
  if ts_lt b a then b else a.
Definition py_max (a b : option Timestamp) : option Timestamp :=
  if ts_lt a b then b else a.
End timestamps.

End Frame.

(** ** Data model *)

Import Calendar Frame.

(** What a failing step raises. *)
Inductive Exn := ValueError | KeyError.

Definition Geo : Type := string * string * string * string * string.

(** The arithmetic of the Sales column (float64), kept abstract: the two
    reductions pandas uses, the order that [sort_values(ascending=False)]
    puts totals in ([x] before [y], or tied), and [round(float(x), 2)]. *)
Class Money (F : Type) := {
  series_sum : list F → F;     (* [Series.sum()] *)
  group_sum : list F → F;      (* [GroupBy.sum()] on the rows of one group *)
  sum_ge : F → F → bool;
  round2 : F → F;
  sum_ge_preorder :: TotalPreorderB sum_ge
}.

Section pipeline.
(** The type of the Sales column; the star-schema build only carries it
    around, the normalizer compares it for equality. *)
Context {F : Type} `{EqDecision F}.

(** One line of the CSV as [read_csv] delivers it. The date columns are
    still text ([None] when empty), the postal code is a missing cell or
    the text of its value. *)
Record RawRow := {
  raw_row_id : Z;
  raw_order_id : string;
  raw_order_date : option string;
  raw_ship_date : option string;
  raw_ship_mode : string;
  raw_customer_id : string;
  raw_customer_name : string;
  raw_segment : string;
  raw_country : string;
  raw_city : string;
  raw_state : string;
  raw_postal_code : option string;
  raw_region : string;
  raw_product_id : string;
  raw_category : string;
  raw_sub_category : string;
  raw_product_name : string;
  raw_sales : F
}.

(** A row after [load_and_prepare_raw]. *)
Record Row := {
  row_id : Z;
  order_id : string;
  order_date : option Timestamp;
  ship_date : option Timestamp;
  ship_mode : string;
  customer_id : string;
  customer_name : string;
  segment : string;
  country : string;
  city : string;
  state : string;
  postal_code : string;
  region : string;
  product_id : string;
  category : string;
  sub_category : string;
  product_name : string;
  sales : F
}.

(** [cols_no_rowid]: every column but "Row ID". *)
Definition cols_no_rowid (r : Row) :=
  (order_id r, order_date r, ship_date r, ship_mode r,
   customer_id r, customer_name r, segment r,
   country r, city r, state r, postal_code r, region r,
   product_id r, category r, sub_category r, product_name r, sales r).

(** ** Record normalizer *)

Section normalizer.
(** [pd.to_datetime(column, dayfirst=True, errors="coerce")]: the value
    of the cell at an index, given the whole column (the format is
    inferred from the column); [None] is NaT. *)
Variable to_datetime : list (option string) → nat → option Timestamp.

Definition parse_row (odates sdates : list (option string))
    (i : nat) (r : RawRow) : Row :=
  {| row_id := raw_row_id r;
     order_id := raw_order_id r;
     order_date := to_datetime odates i;
     ship_date := to_datetime sdates i;
     ship_mode := raw_ship_mode r;
     customer_id := raw_customer_id r;
     customer_name := raw_customer_name r;
     segment := raw_segment r;
     country := raw_country r;
     city := raw_city r;
     state := raw_state r;
     postal_code := clean_postal (raw_postal_code r);
     region := raw_region r;
     product_id := raw_product_id r;
     category := raw_category r;
     sub_category := raw_sub_category r;
     product_name := raw_product_name r;
     sales := raw_sales r |}.

(** The frame after date parsing and postal-code cleaning, before the
    duplicates are dropped. *)
Definition parsed (raw : list RawRow) : list Row :=
  imap (parse_row (raw_order_date <$> raw) (raw_ship_date <$> raw)) raw.

Definition load_and_prepare_raw (raw : list RawRow) : list Row :=
  let df := parsed raw in
  loc_not (duplicated (cols_no_rowid <$> df)) df.
End normalizer.

(** ** Star schema *)

Record DimDate := {
  full_date : Timestamp;
  date_key : Z;
  day : Z;
  month : Z;
  month_name : string;
  quarter : Z;
  year : Z;
  dd_week_of_year : Z
}.

Record DimCustomer := {
  customer_key : Z;
  dc_customer_id : string;
  dc_customer_name : string;
  dc_segment : string
}.

Record DimProduct := {
  product_key : Z;
  dp_product_id : string;
  dp_category : string;
  dp_sub_category : string;
  dp_product_name : option string   (* [None]: no entry in [mode_name] *)
}.

Record DimRegion := {
  region_key : Z;
  dr_geo : Geo   (* Country, Region, State, City, Postal Code *)
}.

Record DimShipMode := {
  ship_mode_key : Z;
  dsm_ship_mode : string
}.

(** A foreign key filled in by [Series.map(dict)] is [None] (NaN) where
    the dict has no entry; [region_key] comes from [geo_to_key[t]] and is
    always a number. *)
Record FactSales := {
  sales_id : Z;
  fs_row_id : Z;
  fs_order_id : string;
  fs_order_date_key : option Z;
  fs_ship_date_key : option Z;
  fs_customer_key : option Z;
  fs_product_key : option Z;
  fs_region_key : Z;
  fs_ship_mode_key : option Z;
  fs_sales_amount : F
}.

Record StarSchema := {
  dim_date : list DimDate;
  dim_customer : list DimCustomer;
  dim_product : list DimProduct;
  dim_region : list DimRegion;
  dim_ship_mode : list DimShipMode;
  fact_sales : list FactSales
}.

Definition geo_of (r : Row) : Geo :=
  (country r, region r, state r, city r, postal_code r).

Definition geo_le : Geo → Geo → bool :=
  lex (lex (lex (lex String.leb String.leb) String.leb) String.leb) String.leb.

(** [sort_values(["Product ID", "n", "Product Name"],
                 ascending=[True, False, True])] *)
Definition name_counts_le : string * string * nat → string * string * nat → bool :=
  on (λ x, (x.1.1, (x.2, x.1.2))) (lex String.leb (lex (desc Nat.leb) String.leb)).

(** [pd.date_range(min_all, max_all, freq="D")] raises ValueError when
    either end is NaT. *)
Definition date_range (a b : option Timestamp) : Exn + list Timestamp :=
  match a, b with
  | Some x, Some y => inr (days_between x y)
  | _, _ => inl ValueError
  end.

Definition dim_date_row (t : Timestamp) : DimDate :=
  {| full_date := t;
     date_key := date_key_of t;
     day := day_of t;
     month := month_of t;
     month_name := month_name_of t;
     quarter := quarter_of t;
     year := year_of t;
     dd_week_of_year := week_of_year t |}.

Section build.
Variable S : SortAlgo.

(** Rows (Product ID, Product Name, n) of [name_counts]. *)
Definition name_counts (df : list Row) : list (string * string * nat) :=
  sort_by S name_counts_le
    ((λ g, (g.1, length g.2))
       <$> groupby S (lex String.leb String.leb)
             (λ r, (product_id r, product_name r)) df).

(** The Series [mode_name], indexed by Product ID. *)
Definition mode_name (df : list Row) : gmap string string :=
  list_to_map (fst <$> drop_duplicates (λ x, x.1.1) (name_counts df)).

Definition min_all (df : list Row) : option Timestamp :=
  py_min (col_min (order_date <$> df)) (col_min (ship_date <$> df)).
Definition max_all (df : list Row) : option Timestamp :=
  py_max (col_max (order_date <$> df)) (col_max (ship_date <$> df)).

Definition build_dim_date (df : list Row) : Exn + list DimDate :=
  match date_range (min_all df) (max_all df) with
  | inl e => inl e
  | inr days => inr (dim_date_row <$> days)
  end.

(** The dimension frames before the surrogate key column is inserted:
    the natural-key columns, duplicates dropped, sorted. *)
Definition customer_rows (df : list Row) : list (string * string * string) :=
  sort_by S (on (λ x, x.1.1) String.leb)
    (drop_duplicates id
       ((λ r, (customer_id r, customer_name r, segment r)) <$> df)).

Definition product_rows (df : list Row) : list (string * string * string) :=
  sort_by S (on (λ x, x.1.1) String.leb)
    (drop_duplicates id
       ((λ r, (product_id r, category r, sub_category r)) <$> df)).

Definition region_rows (df : list Row) : list Geo :=
  sort_by S geo_le (drop_duplicates id (geo_of <$> df)).

Definition ship_mode_rows (df : list Row) : list string :=
  sort_by S String.leb (drop_duplicates id (ship_mode <$> df)).

Definition build_dim_customer (df : list Row) : list DimCustomer :=
  (λ kx, {| customer_key := kx.1;
            dc_customer_id := kx.2.1.1;
            dc_customer_name := kx.2.1.2;
            dc_segment := kx.2.2 |})
    <$> with_keys (customer_rows df).

Definition build_dim_product (df : list Row) : list DimProduct :=
  (λ kx, {| product_key := kx.1;
            dp_product_id := kx.2.1.1;
            dp_category := kx.2.1.2;
            dp_sub_category := kx.2.2;
            dp_product_name := mode_name df !! kx.2.1.1 |})
    <$> with_keys (product_rows df).

Definition build_dim_region (df : list Row) : list DimRegion :=
  (λ kx, {| region_key := kx.1; dr_geo := kx.2 |})
    <$> with_keys (region_rows df).

Definition build_dim_ship_mode (df : list Row) : list DimShipMode :=
  (λ kx, {| ship_mode_key := kx.1; dsm_ship_mode := kx.2 |})
    <$> with_keys (ship_mode_rows df).
End build.

(** The natural-key to surrogate-key dicts. *)
Record Lookups := {
  date_to_key : gmap Timestamp Z;
  cust_to_key : gmap string Z;
  prod_to_key : gmap string Z;
  geo_to_key : gmap Geo Z;
  ship_to_key : gmap string Z
}.

(** The fact block of [build_star_schema]. The five [Series.map] calls
    never raise; [[geo_to_key[t] for t in geo_tuples]] raises KeyError at
    the first tuple that is not a key. *)
Definition fact_row (lk : Lookups) (k : Z) (r : Row) (rk : Z) : FactSales :=
  {| sales_id := k;
     fs_row_id := row_id r;
     fs_order_id := order_id r;
     fs_order_date_key := order_date r ≫= (date_to_key lk !!.);
     fs_ship_date_key := ship_date r ≫= (date_to_key lk !!.);
     fs_customer_key := cust_to_key lk !! customer_id r;
     fs_product_key := prod_to_key lk !! product_id r;
     fs_region_key := rk;
     fs_ship_mode_key := ship_to_key lk !! ship_mode r;
     fs_sales_amount := sales r |}.

Definition build_fact_sales (lk : Lookups) (df : list Row) : Exn + list FactSales :=
  match mapM (λ r, geo_to_key lk !! geo_of r) df with
  | None => inl KeyError
  | Some region_keys =>
      inr ((λ kx, fact_row lk kx.1 kx.2.1 kx.2.2)
             <$> with_keys (zip df region_keys))
  end.

Definition lookups_of (dd : list DimDate) (dc : list DimCustomer)
    (dp : list DimProduct) (dr : list DimRegion) (dsm : list DimShipMode) : Lookups :=
  {| date_to_key := dict_zip (full_date <$> dd) (date_key <$> dd);
     cust_to_key := dict_zip (dc_customer_id <$> dc) (customer_key <$> dc);
     prod_to_key := dict_zip (dp_product_id <$> dp) (product_key <$> dp);
     geo_to_key := dict_zip (dr_geo <$> dr) (region_key <$> dr);
     ship_to_key := dict_zip (dsm_ship_mode <$> dsm) (ship_mode_key <$> dsm) |}.

Definition build_star_schema (S : SortAlgo) (df : list Row) : Exn + StarSchema :=
  match build_dim_date df with
  | inl e => inl e
  | inr dd =>
      let dc := build_dim_customer S df in
      let dp := build_dim_product S df in
      let dr := build_dim_region S df in
      let dsm := build_dim_ship_mode S df in
      match build_fact_sales (lookups_of dd dc dp dr dsm) df with
      | inl e => inl e
      | inr fact =>
          inr {| dim_date := dd; dim_customer := dc; dim_product := dp;
                 dim_region := dr; dim_ship_mode := dsm; fact_sales := fact |}
      end
  end.

(** ** Summary *)

Record Summary := {
  total_sales : F;
  sales_by_category : list (string * F);      (* dict, in insertion order *)
  top_products : list (string * F);           (* [{"name", "sales"}] *)
  monthly_sales_trend : list (string * F)     (* [{"month", "sales"}] *)
}.

(** The pandas release line the code runs on; the repository pins none.
    The two lines differ, as far as this program goes, in one place:
    [astype(str)] on a missing period. *)
Inductive Pandas := pandas2 | pandas3.

(** [.dt.to_period("M").astype(str)]: "YYYY-MM" for a valid date. A missing
    date is rendered as the text "NaT" by pandas 2.x and stays a missing
    cell under pandas 3.x. *)
Definition period_str (v : Pandas) (d : option Timestamp) : option string :=
  match d with
  | Some t => Some (month_label t)
  | None =>
      match v with
      | pandas2 => Some "NaT"
      | pandas3 => None
      end
  end.

Section summary.
Context `{!Money F}.
Variable S : SortAlgo.

(** [df.groupby(key)["Sales"].sum()] *)
Definition group_totals (key : Row → string) (df : list Row) : list (string * F) :=
  (λ g, (g.1, group_sum (sales <$> g.2))) <$> groupby S String.leb key df.

(** [.sort_values(ascending=False)] on such a Series. *)
Definition sort_desc (totals : list (string * F)) : list (string * F) :=
  sort_by S (on snd sum_ge) totals.

Definition rounded (totals : list (string * F)) : list (string * F) :=
  (λ kv, (kv.1, round2 kv.2)) <$> totals.

(** [df.assign(month=...).groupby("month")["Sales"].sum()]: the rows whose
    month is a missing cell are in no group. *)
Definition month_totals (v : Pandas) (df : list Row) : list (string * F) :=
  (λ g, (g.1, group_sum (sales <$> g.2)))
    <$> groupby_dropna S String.leb (λ r, period_str v (order_date r)) df.

Definition make_summary_json (v : Pandas) (df_filtered : list Row) : Summary :=
  let total := series_sum (sales <$> df_filtered) in
  let by_category := sort_desc (group_totals category df_filtered) in
  let top := take 10 (sort_desc (group_totals product_name df_filtered)) in
  let monthly := sort_by S (on fst String.leb) (month_totals v df_filtered) in
  {| total_sales := round2 total;
     sales_by_category := dict_comprehension (rounded by_category);
     top_products := rounded top;
     monthly_sales_trend := rounded monthly |}.
End summary.

End pipeline.

Arguments RawRow : clear implicits.
Arguments Row : clear implicits.
Arguments FactSales : clear implicits.
Arguments StarSchema : clear implicits.
Arguments Summary : clear implicits.

(** * Dashboard: sidebar filter and KPI *)

(** What the sidebar widgets hand back: the two ends of the order-date
    range and the picked categories, regions and segments. *)
Record FilterChoice := {
  start_date : Timestamp;
  end_date : Timestamp;
  cat_pick : list string;
  reg_pick : list string;
  seg_pick : list string
}.

(** The mask of [df_f]. Each comparison of [raw["Order Date"].dt.date] with
    a date is False on a missing cell. *)
Definition in_filter {F} (c : FilterChoice) (r : Row F) : bool :=
  match order_date r with
  | Some t => (start_date c <=? t)%Z
  | None => false
  end
  && match order_date r with
     | Some t => (t <=? end_date c)%Z
     | None => false
     end
  && bool_decide (category r ∈ cat_pick c)
  && bool_decide (region r ∈ reg_pick c)
  && bool_decide (segment r ∈ seg_pick c).

(** [df_f = raw[mask].copy()] *)
Definition df_f {F} (c : FilterChoice) (raw : list (Row F)) : list (Row F) :=
  filter (λ r, in_filter c r) raw.

(** [sorted(raw[col].dropna().unique().tolist())] *)
Definition options {F} (S : SortAlgo) (col : Row F → string) (raw : list (Row F))
    : list string :=
  sort_by S String.leb (drop_duplicates id (col <$> raw)).

(** The widgets' defaults: the whole range of order dates and every
    option. When no order date is valid, [min_date] and [max_date] are NaT
    and there is no date range to start from ([None]). *)
Definition default_choice {F} (S : SortAlgo) (raw : list (Row F))
    : option FilterChoice :=
  match col_min (order_date <$> raw), col_max (order_date <$> raw) with
  | Some lo, Some hi =>
      Some {| start_date := lo;
              end_date := hi;
              cat_pick := options S category raw;
              reg_pick := options S region raw;
              seg_pick := options S segment raw |}
  | _, _ => None
  end.

(** [df_f[col].nunique()] *)
Definition nunique {A} `{EqDecision A} (column : list A) : nat :=
  length (drop_duplicates id column).

(** * Vocabulary of the specification *)

(** A date of the frame: a valid cell of either date column. *)
Definition has_date {F} (df : list (Row F)) (t : Timestamp) : Prop :=
  ∃ r, r ∈ df ∧ (order_date r = Some t ∨ ship_date r = Some t).

(** A foreign key resolves when it is a number found in the key column of
    its dimension. *)
Definition resolves (fk : option Z) (keys : list Z) : Prop :=
  ∃ k, fk = Some k ∧ k ∈ keys.

(** Referential completeness as the specification words it: every foreign
    key of every fact row is in the key set of its dimension. *)
Definition referentially_complete {F} (ss : StarSchema F) : Prop :=
  ∀ f, f ∈ fact_sales ss →
    resolves (fs_order_date_key f) (date_key <$> dim_date ss)
    ∧ resolves (fs_ship_date_key f) (date_key <$> dim_date ss)
    ∧ resolves (fs_customer_key f) (customer_key <$> dim_customer ss)
    ∧ resolves (fs_product_key f) (product_key <$> dim_product ss)
    ∧ fs_region_key f ∈ region_key <$> dim_region ss
    ∧ resolves (fs_ship_mode_key f) (ship_mode_key <$> dim_ship_mode ss).

(** A row whose value in some natural-key column finds no entry in the
    dict of that column. *)
Definition lookup_miss {F} (lk : Lookups) (r : Row F) : Prop :=
  order_date r ≫= (date_to_key lk !!.) = None
  ∨ ship_date r ≫= (date_to_key lk !!.) = None
  ∨ cust_to_key lk !! customer_id r = None
  ∨ prod_to_key lk !! product_id r = None
  ∨ ship_to_key lk !! ship_mode r = None
  ∨ geo_to_key lk !! geo_of r = None.

(** Failing loudly, as the specification words it: a miss aborts the fact
    build. *)
Definition fails_loudly_on_miss {F} (lk : Lookups) (df : list (Row F)) : Prop :=
  (∃ r, r ∈ df ∧ lookup_miss lk r) → ∃ e, build_fact_sales lk df = inl e.

(** The dicts the build derives from its own dimension tables. *)
Definition lookups_built {F} (S : SortAlgo) (dd : list DimDate) (df : list (Row F)) : Lookups :=
  lookups_of dd (build_dim_customer S df) (build_dim_product S df)
    (build_dim_region S df) (build_dim_ship_mode S df).

(** A key column is dense and 1-based when it reads 1, 2, .., N. *)
Definition dense_keys (keys : list Z) : Prop :=
  keys = Z.of_nat <$> seq 1 (length keys).

(** How often the name [n] is met with the product identifier [p]. *)
Definition name_count {F} (df : list (Row F)) (p n : string) : nat :=
  length (filter (λ r, product_id r = p ∧ product_name r = n) df).

(** Totals per group as the specification words them: one entry per
    distinct key of the subset, each holding the sum over the records with
    that key, the entries in descending order of the (unrounded) total. *)
Definition ranked_totals {F} `{!Money F} (key : Row F → string)
    (df : list (Row F)) (totals : list (string * F)) : Prop :=
  NoDup totals.*1
  ∧ (∀ k, k ∈ totals.*1 ↔ k ∈ key <$> df)
  ∧ (∀ k v, (k, v) ∈ totals →
       v = group_sum (sales <$> filter (λ r, key r = k) df))
  ∧ StronglySorted (λ a b, sum_ge a.2 b.2) totals.

(** Every label of a trend is the "YYYY-MM" label of some month. *)
Definition year_month_labels {F} (trend : list (string * F)) : Prop :=
  ∀ l, l ∈ trend.*1 → ∃ t, l = month_label t.

(** Logical duplicates, as the specification defines them: two rows that
    agree on every attribute except the row identifier. *)
Definition logical_duplicates {F} (r1 r2 : Row F) : Prop :=
  order_id r1 = order_id r2
  ∧ order_date r1 = order_date r2
  ∧ ship_date r1 = ship_date r2
  ∧ ship_mode r1 = ship_mode r2
  ∧ customer_id r1 = customer_id r2
  ∧ customer_name r1 = customer_name r2
  ∧ segment r1 = segment r2
  ∧ country r1 = country r2
  ∧ city r1 = city r2
  ∧ state r1 = state r2
  ∧ postal_code r1 = postal_code r2
  ∧ region r1 = region r2
  ∧ product_id r1 = product_id r2
  ∧ category r1 = category r2
  ∧ sub_category r1 = sub_category r2
  ∧ product_name r1 = product_name r2
  ∧ sales r1 = sales r2.

(** [r] is the normalized form of line [i] of the input, [x]: its two
    dates are what date parsing gives at that line, its postal code is the
    cleaned one, and every other attribute, the row identifier included,
    is the line's own. *)
Definition normal_form {F}
    (to_datetime : list (option string) → nat → option Timestamp)
    (raw : list (RawRow F)) (i : nat) (x : RawRow F) (r : Row F) : Prop :=
  row_id r = raw_row_id x
  ∧ order_id r = raw_order_id x
  ∧ order_date r = to_datetime (raw_order_date <$> raw) i
  ∧ ship_date r = to_datetime (raw_ship_date <$> raw) i
  ∧ ship_mode r = raw_ship_mode x
  ∧ customer_id r = raw_customer_id x
  ∧ customer_name r = raw_customer_name x
  ∧ segment r = raw_segment x
  ∧ country r = raw_country x
  ∧ city r = raw_city x
  ∧ state r = raw_state x
  ∧ postal_code r = clean_postal (raw_postal_code x)
  ∧ region r = raw_region x
  ∧ product_id r = raw_product_id x
  ∧ category r = raw_category x
  ∧ sub_category r = raw_sub_category x
  ∧ product_name r = raw_product_name x
  ∧ sales r = raw_sales x.

(** ** Conditions on the data *)

(** Each customer identifier comes with one name and one segment. *)
Definition consistent_customers {F} (df : list (Row F)) : Prop :=
  ∀ r1 r2, r1 ∈ df → r2 ∈ df → customer_id r1 = customer_id r2 →
    customer_name r1 = customer_name r2 ∧ segment r1 = segment r2.

(** Each product identifier comes with one category and one
    sub-category. *)
Definition consistent_products {F} (df : list (Row F)) : Prop :=
  ∀ r1 r2, r1 ∈ df → r2 ∈ df → product_id r1 = product_id r2 →
    category r1 = category r2 ∧ sub_category r1 = sub_category r2.

(** No two groups of the subset have totals that compare equal. *)
Definition no_tied_totals {F} `{!Money F} (key : Row F → string)
    (df : list (Row F)) : Prop :=
  ∀ r1 r2, r1 ∈ df → r2 ∈ df →
    let total r := group_sum (sales <$> filter (λ r', key r' = key r) df) in
    sum_ge (total r1) (total r2) → sum_ge (total r2) (total r1) →
    key r1 = key r2.

(** * Example frames *)

Section examples.
Local Open Scope string_scope.
Local Open Scope list_scope.

(** A normalized row of the Superstore sheet; only what varies between the
    examples is left open. 2021-01-05 is day 18632. *)
Definition example_row (i : Z) (odate sdate : option Timestamp)
    (cust cname prod pname cat : string) (amount : Z) : Row Z :=
  {| row_id := i; order_id := "CA-2021-100"; order_date := odate;
     ship_date := sdate; ship_mode := "Standard Class";
     customer_id := cust; customer_name := cname; segment := "Consumer";
     country := "United States"; city := "Henderson"; state := "Kentucky";
     postal_code := "42420"; region := "South";
     product_id := prod; category := cat; sub_category := "Chairs";
     product_name := pname; sales := amount |}.

(** One row whose ship date did not parse. *)
Definition df_ship_missing : list (Row Z) :=
  [example_row 1 (Some 18632%Z) None "CG-12520" "Claire Gute" "P1" "Widget" "Furniture" 100].

(** One row whose order date did not parse, shipped on 2021-01-05. *)
Definition df_order_missing : list (Row Z) :=
  [example_row 1 None (Some 18632%Z) "CG-12520" "Claire Gute" "P1" "Widget" "Furniture" 100].

(** One row with no date at all. *)
Definition df_no_dates : list (Row Z) :=
  [example_row 1 None None "CG-12520" "Claire Gute" "P1" "Widget" "Furniture" 100].

(** Dicts that know the region of the example rows but no customer. *)
Definition lookups_no_customer : Lookups :=
  {| date_to_key := {[ 18632%Z := 20210105%Z ]};
     cust_to_key := ∅;
     prod_to_key := {[ "P1" := 1%Z ]};
     geo_to_key := {[ ("United States", "South", "Kentucky", "Henderson", "42420") := 1%Z ]};
     ship_to_key := {[ "Standard Class" := 1%Z ]} |}.

(** Two orders of one customer. *)
Definition df_two_orders : list (Row Z) :=
  [example_row 1 (Some 18632%Z) (Some 18634%Z) "CG-12520" "Claire Gute" "P1" "Widget" "Furniture" 100;
   example_row 2 (Some 18633%Z) (Some 18634%Z) "CG-12520" "Claire Gute" "P2" "Gadget" "Technology" 50].

(** One customer identifier met with two names. *)
Definition df_two_names : list (Row Z) :=
  [example_row 1 (Some 18632%Z) (Some 18634%Z) "CG-12520" "Claire Gute" "P1" "Widget" "Furniture" 100;
   example_row 2 (Some 18633%Z) (Some 18634%Z) "CG-12520" "C. Gute" "P1" "Widget" "Furniture" 50].

(** Product P1 is met three times as "Widget" and once as "widget". *)
Definition df_widget : list (Row Z) :=
  [example_row 1 (Some 18632%Z) (Some 18634%Z) "CG-12520" "Claire Gute" "P1" "Widget" "Furniture" 100;
   example_row 2 (Some 18633%Z) (Some 18634%Z) "CG-12520" "Claire Gute" "P1" "widget" "Furniture" 50;
   example_row 3 (Some 18634%Z) (Some 18635%Z) "CG-12520" "Claire Gute" "P1" "Widget" "Furniture" 30;
   example_row 4 (Some 18635%Z) (Some 18636%Z) "CG-12520" "Claire Gute" "P1" "Widget" "Furniture" 20].

(** Two lines of the sheet that differ in the row identifier and in the
    spelling of the postal code only. *)
Definition example_raw (i : Z) (postal : option string) : RawRow Z :=
  {| raw_row_id := i; raw_order_id := "CA-2021-100";
     raw_order_date := Some "05/01/2021"; raw_ship_date := Some "07/01/2021";
     raw_ship_mode := "Standard Class"; raw_customer_id := "CG-12520";
     raw_customer_name := "Claire Gute"; raw_segment := "Consumer";
     raw_country := "United States"; raw_city := "Beverly Hills";
     raw_state := "California"; raw_postal_code := postal; raw_region := "West";
     raw_product_id := "P1"; raw_category := "Furniture";
     raw_sub_category := "Chairs"; raw_product_name := "Widget";
     raw_sales := 100%Z |}.

(** The two examples of the specification: categories {A: 100, A: 50,
    B: 30}, and orders of 2021-01-05 (10), 2021-01-20 (5) and 2021-02-01
    (7). *)
Definition df_categories : list (Row Z) :=
  [example_row 1 (Some 18632%Z) (Some 18634%Z) "CG-12520" "Claire Gute" "P1" "Widget" "A" 100;
   example_row 2 (Some 18632%Z) (Some 18634%Z) "CG-12520" "Claire Gute" "P2" "Gadget" "A" 50;
   example_row 3 (Some 18632%Z) (Some 18634%Z) "CG-12520" "Claire Gute" "P3" "Gizmo" "B" 30].

Definition df_months : list (Row Z) :=
  [example_row 1 (Some 18632%Z) (Some 18634%Z) "CG-12520" "Claire Gute" "P1" "Widget" "A" 10;
   example_row 2 (Some 18647%Z) (Some 18649%Z) "CG-12520" "Claire Gute" "P1" "Widget" "A" 5;
   example_row 3 (Some 18659%Z) (Some 18660%Z) "CG-12520" "Claire Gute" "P1" "Widget" "A" 7].
End examples.

(** * Properties *)

(** ** Orders and the reference sorting routine *)

Section orders.
Import Frame.

Lemma string_leb_order : TotalOrderB String.leb.
Proof.
  split; [split|].
  - intros x y. destruct (total String.le x y); auto.
  - intros x y z. apply (transitivity (R := String.le)).
  - intros x y Hxy Hyx. by apply (anti_symm String.le).
Qed.

Lemma nat_leb_order : TotalOrderB Nat.leb.
Proof.
  split; [split|].
  - intros x y. destruct (Nat.leb_spec x y), (Nat.leb_spec y x); simpl; auto; lia.
  - intros x y z Hxy Hyz. apply Is_true_true in Hxy, Hyz.
    apply Is_true_true. apply Nat.leb_le in Hxy, Hyz. apply Nat.leb_le. lia.
  - intros x y Hxy Hyx. apply Is_true_true in Hxy, Hyx.
    apply Nat.leb_le in Hxy, Hyx. lia.
Qed.

Lemma desc_preorder {A} (le : A → A → bool) :
  TotalPreorderB le → TotalPreorderB (desc le).
Proof.
  intros [Ht Hr]. split; unfold desc.
  - intros x y. destruct (Ht x y); auto.
  - intros x y z ??. by apply (Hr z y x).
Qed.

Lemma desc_order {A} (le : A → A → bool) :
  TotalOrderB le → TotalOrderB (desc le).
Proof.
  intros [Hp Ha]. split; [by apply desc_preorder|].
  intros x y ??. unfold desc in *. by apply Ha.
Qed.

Lemma on_preorder {A B} (f : A → B) (le : B → B → bool) :
  TotalPreorderB le → TotalPreorderB (on f le).
Proof.
  intros [Ht Hr]. split; unfold on.
  - intros x y. apply Ht.
  - intros x y z. apply Hr.
Qed.

Lemma lex_preorder {A B} `{EqDecision A}
    (le1 : A → A → bool) (le2 : B → B → bool) :
  TotalOrderB le1 → TotalPreorderB le2 → TotalPreorderB (lex le1 le2).
Proof.
  intros [[Ht1 Hr1] Ha1] [Ht2 Hr2]. split; unfold lex.
  - intros [a b] [a' b']; simpl.
    destruct (decide (a = a')) as [->|Hne].
    + rewrite decide_True by done. apply Ht2.
    + rewrite decide_False by congruence. apply Ht1.
  - intros [a b] [a' b'] [a'' b'']; simpl.
    destruct (decide (a = a')) as [E1|Hne1];
      destruct (decide (a' = a'')) as [E2|Hne2];
      destruct (decide (a = a'')) as [E3|Hne3];
      try congruence; eauto.
    intros H1 H2. exfalso. apply Hne1. apply Ha1; [done|].
    subst a''. done.
Qed.

Lemma lex_order {A B} `{EqDecision A}
    (le1 : A → A → bool) (le2 : B → B → bool) :
  TotalOrderB le1 → TotalOrderB le2 → TotalOrderB (lex le1 le2).
Proof.
  intros H1 H2. split; [apply lex_preorder; [done|apply H2]|].
  destruct H1 as [_ Ha1], H2 as [_ Ha2].
  intros [a b] [a' b']; unfold lex; simpl.
  destruct (decide (a = a')) as [->|Hne].
  - rewrite decide_True by done. intros ??. f_equal. by apply Ha2.
  - rewrite decide_False by congruence. intros ??. exfalso. apply Hne. by apply Ha1.
Qed.

Lemma geo_le_order : TotalOrderB geo_le.
Proof. unfold geo_le. repeat apply lex_order; apply string_leb_order. Qed.

Lemma name_counts_le_preorder : TotalPreorderB name_counts_le.
Proof.
  unfold name_counts_le. apply on_preorder, lex_preorder.
  - apply string_leb_order.
  - apply lex_preorder; [apply desc_order, nat_leb_order|apply string_leb_order].
Qed.
End orders.

(** Merge sort: one routine that meets [SortAlgo]. *)
Lemma merge_sort_sorted {A} (le : A → A → bool) (l : list A) :
  Frame.TotalPreorderB le →
  StronglySorted (λ x y, le x y) (merge_sort (λ x y, le x y) l).
Proof.
  intros [Ht Hr]. apply StronglySorted_merge_sort.
  - intros x y z. apply Hr.
  - intros x y. apply Ht.
Qed.

Definition merge_sorter : Frame.SortAlgo :=
  {| Frame.sort_by := λ A le, merge_sort (λ x y, le x y);
     Frame.sort_by_perm := λ A le, merge_sort_Permutation (λ x y, le x y);
     Frame.sort_by_sorted := λ A le l, merge_sort_sorted le l |}.

(** ** Calendar facts *)

Section calendar_facts.
Import Calendar.
Local Open Scope Z_scope.

(** The conversions on known days: the epoch, 2021-01-05, a leap day, the
    two ends of the nanosecond Timestamp range, and the ISO weeks around a
    new year. *)
Example calendar_samples :
  civil_from_days 0 = (1970, 1, 1)
  ∧ civil_from_days 18632 = (2021, 1, 5)
  ∧ civil_from_days 11016 = (2000, 2, 29)
  ∧ civil_from_days (-106752) = (1677, 9, 21)
  ∧ civil_from_days 106751 = (2262, 4, 11)
  ∧ days_from_civil 2021 1 5 = 18632
  ∧ date_key_of 18632 = 20210105
  ∧ week_of_year 18628 = 53 ∧ week_of_year 18631 = 1
  ∧ month_label 18632 = "2021-01"%string
  ∧ parse_dayfirst "05/01/2021" = Some 18632
  ∧ parse_dayfirst "31/02/2021" = None.
Proof. vm_compute. done. Qed.

Lemma era_scan_spec (n : nat) (t : Z) :
  era_scan n t (civil_from_days t) = true →
  ∀ x, t ≤ x < t + Z.of_nat n →
       step_ok (civil_from_days x) (civil_from_days (x + 1)) = true.
Proof.
  revert t. induction n as [|n IH]; intros t Hall x Hx; [lia|].
  cbn [era_scan] in Hall. cbv zeta in Hall.
  apply andb_true_iff in Hall as [Hstep Hrest].
  destruct (decide (x = t)) as [->|Hne]; [done|].
  apply (IH (t + 1)); [done|lia].
Qed.

(** The Gregorian calendar repeats every 146097 days (400 years). *)
Lemma civil_from_days_era (t q : Z) :
  civil_from_days (t + 146097 * q)
  = (year_of t + 400 * q, month_of t, day_of t).
Proof.
  unfold year_of, month_of, day_of, civil_from_days. cbn [fst snd].
  replace (t + 146097 * q + 719468) with (t + 719468 + q * 146097) by lia.
  rewrite Z.div_add by lia.
  set (z := t + 719468). set (era := z / 146097).
  replace (z + q * 146097 - (era + q) * 146097) with (z - era * 146097) by lia.
  set (doe := z - era * 146097).
  set (yoe := (doe - doe / 1460 + doe / 36524 - doe / 146096) / 365).
  set (doy := doe - (365 * yoe + yoe / 4 - yoe / 100)).
  set (mp := (5 * doy + 2) / 153).
  destruct (mp <? 10); destruct (_ <=? 2); f_equal; f_equal; lia.
Qed.

Lemma date_key_of_era (t q : Z) :
  date_key_of (t + 146097 * q) = date_key_of t + 4000000 * q.
Proof.
  unfold date_key_of at 1. unfold year_of at 1, month_of at 1, day_of at 1.
  rewrite civil_from_days_era. cbn [fst snd]. unfold date_key_of. lia.
Qed.

(** The era that starts on 0000-03-01, day -719468. *)
Lemma era_checked :
  era_scan (Z.to_nat 146097) (-719468) (civil_from_days (-719468)) = true.
Proof. vm_cast_no_check (eq_refl true). Qed.

Lemma era_split (t : Z) :
  ∃ r q, 0 ≤ r < 146097 ∧ t = r - 719468 + 146097 * q
         ∧ t + 1 = r - 719468 + 1 + 146097 * q.
Proof.
  exists ((t + 719468) mod 146097), ((t + 719468) / 146097).
  pose proof (Z.mod_pos_bound (t + 719468) 146097 ltac:(lia)).
  pose proof (Z.div_mod (t + 719468) 146097 ltac:(lia)). lia.
Qed.

Lemma era_check_at (r : Z) :
  0 ≤ r < 146097 →
  step_ok (civil_from_days (r - 719468)) (civil_from_days (r - 719468 + 1)) = true.
Proof.
  intros Hr. apply (era_scan_spec _ _ era_checked). lia.
Qed.

(** The YYYYMMDD key grows from each day to the next... *)
Lemma date_key_of_succ (t : Z) : date_key_of t < date_key_of (t + 1).
Proof.
  destruct (era_split t) as (r & q & Hr & Ht & Ht1).
  pose proof (era_check_at r Hr) as Hc. unfold step_ok in Hc.
  repeat (apply andb_true_iff in Hc as [Hc ?]).
  apply Z.ltb_lt in Hc.
  rewrite Ht1, Ht, !date_key_of_era.
  unfold date_key_of, year_of, month_of, day_of. lia.
Qed.

(** ... hence it is strictly increasing in the calendar date. *)
Lemma date_key_of_lt (a b : Z) : a < b → date_key_of a < date_key_of b.
Proof.
  intros Hab. replace b with (a + 1 + Z.of_nat (Z.to_nat (b - a - 1))) by lia.
  induction (Z.to_nat (b - a - 1)) as [|n IH].
  - rewrite Z.add_0_r. apply date_key_of_succ.
  - etrans; [apply IH|].
    replace (a + 1 + Z.of_nat (Datatypes.S n)) with (a + 1 + Z.of_nat n + 1) by lia.
    apply date_key_of_succ.
Qed.

Lemma date_key_of_inj (a b : Z) : date_key_of a = date_key_of b → a = b.
Proof.
  intros Heq. destruct (Z.lt_total a b) as [H|[H|H]]; [|done|].
  - apply date_key_of_lt in H. lia.
  - apply date_key_of_lt in H. lia.
Qed.

Lemma month_of_range (t : Z) : 1 ≤ month_of t ≤ 12.
Proof.
  destruct (era_split t) as (r & q & Hr & Ht & _).
  pose proof (era_check_at r Hr) as Hc. unfold step_ok in Hc.
  repeat (apply andb_true_iff in Hc as [Hc ?]).
  assert (month_of t = month_of (r - 719468)) as ->.
  { rewrite Ht. unfold month_of at 1. by rewrite civil_from_days_era. }
  unfold month_of. lia.
Qed.

Lemma year_of_era (t q : Z) : year_of (t + 146097 * q) = year_of t + 400 * q.
Proof. unfold year_of at 1. by rewrite civil_from_days_era. Qed.

Lemma month_of_era (t q : Z) : month_of (t + 146097 * q) = month_of t.
Proof. unfold month_of at 1. by rewrite civil_from_days_era. Qed.

Lemma length_days_between (a b : Z) :
  length (days_between a b) = Z.to_nat (b - a + 1).
Proof. unfold days_between. by rewrite length_fmap, length_seq. Qed.

Lemma elem_of_days_between (a b t : Z) : t ∈ days_between a b ↔ a ≤ t ≤ b.
Proof.
  unfold days_between. rewrite list_elem_of_fmap. split.
  - intros (i & -> & Hi). apply elem_of_seq in Hi. lia.
  - intros Ht. exists (Z.to_nat (t - a)). split; [lia|].
    apply elem_of_seq. lia.
Qed.

Lemma days_between_lookup (a b : Z) (i : nat) (t : Z) :
  days_between a b !! i = Some t → t = a + Z.of_nat i.
Proof.
  unfold days_between. rewrite list_lookup_fmap.
  intros H. apply fmap_Some in H as (j & Hj & ->).
  apply lookup_seq in Hj as [-> _]. done.
Qed.

Lemma days_between_sorted (a b : Z) : StronglySorted Z.lt (days_between a b).
Proof.
  unfold days_between. generalize (Z.to_nat (b - a + 1)) as n. intros n.
  assert (∀ k, StronglySorted Z.lt ((λ i : nat, a + Z.of_nat i) <$> seq k n)) as H.
  { induction n as [|n IH]; intros k; cbn; constructor; [apply IH|].
    apply Forall_forall. intros x Hx. apply list_elem_of_fmap in Hx as (i & -> & Hi).
    apply elem_of_seq in Hi. lia. }
  apply H.
Qed.
End calendar_facts.

(** ** Postal codes *)

Section postal.
Import PyStr.
Local Open Scope string_scope.

Ltac bool_hyps :=
  repeat match goal with
  | H : _ || _ = true |- _ => apply orb_true_iff in H as [H|H]
  | H : _ && _ = true |- _ => let H' := fresh H in apply andb_true_iff in H as [H' H]
  | H : (_ =? _)%nat = true |- _ => apply Nat.eqb_eq in H
  | H : (_ <=? _)%nat = true |- _ => apply Nat.leb_le in H
  end.

Lemma lstrip_unfold (s : string) :
  lstrip s = match skip_space s with Some s' => lstrip s' | None => s end.
Proof.
  destruct s as [|c1 [|c2 [|c3 s3]]]; cbn [lstrip skip_space]; try done.
  - by destruct (isspace c1).
  - destruct (isspace c1); [done|]. by destruct (isspace2 c1 c2).
  - destruct (isspace c1); [done|]. destruct (isspace2 c1 c2); [done|].
    by destruct (isspace3 c1 c2 c3).
Qed.

Lemma skip_space_length (s s' : string) :
  skip_space s = Some s' → (String.length s' < String.length s)%nat.
Proof.
  destruct s as [|c1 [|c2 [|c3 s3]]]; cbn [skip_space String.length]; try done.
  - destruct (isspace c1); [|done]. intros [= <-]. cbn. lia.
  - destruct (isspace c1); [intros [= <-]; cbn; lia|].
    destruct (isspace2 c1 c2); [|done]. intros [= <-]. cbn. lia.
  - destruct (isspace c1); [intros [= <-]; cbn; lia|].
    destruct (isspace2 c1 c2); [intros [= <-]; cbn; lia|].
    destruct (isspace3 c1 c2 c3); [|done]. intros [= <-]. cbn. lia.
Qed.

Lemma skip_space_ind (P : string → Prop) :
  (∀ s, (∀ s', skip_space s = Some s' → P s') → P s) → ∀ s, P s.
Proof.
  intros Hstep s.
  assert (∀ n s, (String.length s < n)%nat → P s) as H.
  { induction n as [|n IH]; intros t Ht; [lia|].
    apply Hstep. intros t' Hskip. apply IH.
    apply skip_space_length in Hskip. lia. }
  apply (H (Datatypes.S (String.length s))). lia.
Qed.

Lemma skip_space_app (s s' t : string) :
  skip_space s = Some s' → skip_space (s +:+ t) = Some (s' +:+ t).
Proof.
  destruct s as [|c1 [|c2 [|c3 s3]]];
    cbv beta iota fix delta [String.append skip_space]; try done.
  - destruct (isspace c1); [|done]. by intros [= <-].
  - destruct (isspace c1); [by intros [= <-]|].
    destruct (isspace2 c1 c2); [|done]. by intros [= <-].
  - destruct (isspace c1); [by intros [= <-]|].
    destruct (isspace2 c1 c2); [by intros [= <-]|].
    destruct (isspace3 c1 c2 c3); [|done]. by intros [= <-].
Qed.

Lemma isspace2_continuation c1 c2 : isspace2 c1 c2 = true → continuation c2 = true.
Proof.
  unfold isspace2, continuation. intros [_ H]%andb_true_iff.
  apply orb_true_iff in H as [H|H]; apply Nat.eqb_eq in H; by rewrite H.
Qed.

Lemma isspace3_continuation c1 c2 c3 :
  isspace3 c1 c2 c3 = true → continuation c2 = true ∧ continuation c3 = true.
Proof.
  unfold isspace3, continuation. cbv zeta. intros H.
  rewrite !andb_true_iff, !Nat.leb_le. bool_hyps; lia.
Qed.

(** A text that does not start with white space is not made to start with
    it by what follows, as long as that begins a character. *)
Lemma skip_space_app_None (s t : string) :
  s ≠ "" → skip_space s = None →
  match t with String d _ => continuation d = false | EmptyString => True end →
  skip_space (s +:+ t) = None.
Proof.
  intros Hs Hskip Ht.
  destruct s as [|c1 [|c2 [|c3 s3]]]; [done|..];
    cbv beta iota fix delta [String.append skip_space] in *.
  - destruct (isspace c1); [done|].
    destruct t as [|d [|e t]]; [done|..].
    + destruct (isspace2 c1 d) eqn:H2; [|done].
      apply isspace2_continuation in H2. congruence.
    + destruct (isspace2 c1 d) eqn:H2.
      { apply isspace2_continuation in H2. congruence. }
      destruct (isspace3 c1 d e) eqn:H3; [|done].
      apply isspace3_continuation in H3 as [H3 _]. congruence.
  - destruct (isspace c1); [done|]. destruct (isspace2 c1 c2); [done|].
    destruct t as [|d t]; [done|].
    destruct (isspace3 c1 c2 d) eqn:H3; [|done].
    apply isspace3_continuation in H3 as [_ H3]. congruence.
  - destruct (isspace c1); [done|]. destruct (isspace2 c1 c2); [done|].
    by destruct (isspace3 c1 c2 c3).
Qed.

Lemma skip_space_start (t t' : string) :
  skip_space t = Some t' →
  match t with String d _ => continuation d = false | EmptyString => True end.
Proof.
  destruct t as [|d t1]; [done|]. intros Hskip.
  assert (isspace d = true ∨ nat_of_ascii d = 194 ∨ nat_of_ascii d = 225
          ∨ nat_of_ascii d = 226 ∨ nat_of_ascii d = 227) as Hd.
  { cbn [skip_space] in Hskip. destruct (isspace d); [by left|right].
    destruct t1 as [|c2 [|c3 s3]]; [done|..].
    - destruct (isspace2 d c2) eqn:H2; [|done]. unfold isspace2 in H2.
      apply andb_true_iff in H2 as [H2 _]. apply Nat.eqb_eq in H2. tauto.
    - destruct (isspace2 d c2) eqn:H2.
      { unfold isspace2 in H2.
        apply andb_true_iff in H2 as [H2 _]. apply Nat.eqb_eq in H2. tauto. }
      destruct (isspace3 d c2 c3) eqn:H3; [|done]. unfold isspace3 in H3.
      cbv zeta in H3. bool_hyps; lia. }
  unfold continuation. rewrite andb_false_iff, !Nat.leb_gt.
  destruct Hd as [Hd|Hd]; [|lia].
  unfold isspace in Hd. cbv zeta in Hd. bool_hyps; lia.
Qed.

Lemma blank_lstrip (s : string) : blank s = true ↔ lstrip s = "".
Proof. unfold blank. by destruct (lstrip s). Qed.

Lemma blank_start (t : string) :
  blank t = true →
  match t with String d _ => continuation d = false | EmptyString => True end.
Proof.
  intros Hb%blank_lstrip. rewrite lstrip_unfold in Hb.
  destruct (skip_space t) as [t'|] eqn:Hskip; [by eapply skip_space_start|].
  by rewrite Hb.
Qed.

(** What follows does not change what [lstrip] removes, when it begins a
    character that is not white space. *)
Lemma lstrip_app_plain (s t : string) :
  skip_space t = None →
  match t with String d _ => continuation d = false | EmptyString => True end →
  lstrip (s +:+ t) = lstrip s +:+ t.
Proof.
  intros Ht Hstart. induction s as [s IH] using skip_space_ind.
  rewrite (lstrip_unfold s), (lstrip_unfold (s +:+ t)).
  destruct (skip_space s) as [s'|] eqn:Hskip.
  - rewrite (skip_space_app _ _ _ Hskip). by apply IH.
  - destruct (decide (s = "")) as [->|Hs].
    + cbv beta iota fix delta [String.append]. by rewrite Ht.
    + by rewrite skip_space_app_None.
Qed.

Lemma lstrip_app_dot0 (s : string) : lstrip (s +:+ ".0") = lstrip s +:+ ".0".
Proof. by apply lstrip_app_plain. Qed.

Lemma lstrip_blank_app (pre s : string) :
  blank pre = true → lstrip (pre +:+ s) = lstrip s.
Proof.
  induction pre as [pre IH] using skip_space_ind. intros Hb.
  pose proof (proj1 (blank_lstrip pre) Hb) as Hl. rewrite lstrip_unfold in Hl.
  destruct (skip_space pre) as [p'|] eqn:Hskip.
  - rewrite (lstrip_unfold (pre +:+ s)), (skip_space_app _ _ _ Hskip).
    apply IH; [done|]. by apply blank_lstrip.
  - by rewrite Hl.
Qed.

Lemma lstrip_app_blank (s post : string) :
  blank post = true →
  lstrip (s +:+ post) = match lstrip s with "" => "" | u => u +:+ post end.
Proof.
  intros Hb. induction s as [s IH] using skip_space_ind.
  rewrite (lstrip_unfold s), (lstrip_unfold (s +:+ post)).
  destruct (skip_space s) as [s'|] eqn:Hskip.
  - rewrite (skip_space_app _ _ _ Hskip). by apply IH.
  - destruct (decide (s = "")) as [->|Hs].
    + cbv beta iota fix delta [String.append].
      rewrite <-lstrip_unfold. by apply blank_lstrip.
    + rewrite skip_space_app_None by (done || by apply blank_start).
      by destruct s.
Qed.

Lemma blank_app_blank (s post : string) :
  blank post = true → blank (s +:+ post) = blank s.
Proof.
  intros Hb. unfold blank. rewrite lstrip_app_blank by done.
  by destruct (lstrip s).
Qed.

Lemma rstrip_blank (post : string) : blank post = true → rstrip post = "".
Proof. destruct post as [|c post]; [done|]. cbn [rstrip]. by intros ->. Qed.

Lemma rstrip_app_blank (s post : string) :
  blank post = true → rstrip (s +:+ post) = rstrip s.
Proof.
  intros Hb. induction s as [|c s IH].
  - by apply rstrip_blank.
  - change (String c s +:+ post) with (String c (s +:+ post)).
    cbn [rstrip]. rewrite IH.
    change (String c (s +:+ post)) with (String c s +:+ post).
    by rewrite blank_app_blank.
Qed.

Lemma strip_blank_around (pre s post : string) :
  blank pre = true → blank post = true →
  strip (pre +:+ s +:+ post) = strip s.
Proof.
  intros Hpre Hpost. unfold strip.
  rewrite lstrip_blank_app, lstrip_app_blank by done.
  destruct (lstrip s) as [|c u] eqn:Hs; [done|].
  by rewrite rstrip_app_blank.
Qed.

Lemma rstrip_app_dot0 (s : string) : rstrip (s +:+ ".0") = s +:+ ".0".
Proof.
  induction s as [|c s IH]; [done|].
  change (String c s +:+ ".0") with (String c (s +:+ ".0")).
  cbn [rstrip]. rewrite IH.
  change (String c (s +:+ ".0")) with (String c s +:+ ".0").
  unfold blank. rewrite lstrip_app_dot0. by destruct (lstrip (String c s)).
Qed.

(** A digit or a minus sign starts no white-space character. *)
Lemma skip_space_plain (c : ascii) (s : string) :
  (nat_of_ascii c < 128)%nat → isspace c = false → skip_space (String c s) = None.
Proof.
  intros Hc Hsp. cbn [skip_space]. rewrite Hsp.
  assert (∀ c2, isspace2 c c2 = false) as H2.
  { intros c2. unfold isspace2. apply andb_false_iff. left. apply Nat.eqb_neq. lia. }
  assert (∀ c2 c3, isspace3 c c2 c3 = false) as H3.
  { intros c2 c3. unfold isspace3.
    assert ((nat_of_ascii c =? 225)%nat = false) as -> by (apply Nat.eqb_neq; lia).
    assert ((nat_of_ascii c =? 226)%nat = false) as -> by (apply Nat.eqb_neq; lia).
    assert ((nat_of_ascii c =? 227)%nat = false) as -> by (apply Nat.eqb_neq; lia).
    done. }
  destruct s as [|c2 [|c3 s3]]; [done|..]; by rewrite ?H2, ?H3.
Qed.

Lemma is_digit_not_space (c : ascii) : is_digit c = true → isspace c = false.
Proof.
  unfold is_digit, isspace. intros [H1 H2]%andb_true_iff.
  apply Nat.leb_le in H1, H2.
  destruct (Nat.leb_spec 9 (nat_of_ascii c)), (Nat.leb_spec (nat_of_ascii c) 13),
    (Nat.leb_spec 28 (nat_of_ascii c)), (Nat.leb_spec (nat_of_ascii c) 32);
    simpl; try done; lia.
Qed.

Lemma lstrip_digit (c : ascii) (s : string) :
  is_digit c = true → lstrip (String c s) = String c s.
Proof.
  intros Hc. rewrite lstrip_unfold, skip_space_plain; [done| |].
  - unfold is_digit in Hc. apply andb_true_iff in Hc as [_ Hc].
    apply Nat.leb_le in Hc. lia.
  - by apply is_digit_not_space.
Qed.

Lemma integer_text_lstrip (s : string) : integer_text s = true → lstrip s = s.
Proof.
  destruct s as [|c s]; [done|]. cbn [integer_text].
  intros H. apply andb_true_iff in H as [H _].
  apply orb_true_iff in H as [H|H].
  - by apply lstrip_digit.
  - apply Ascii.eqb_eq in H as ->.
    rewrite lstrip_unfold, skip_space_plain; [done|by apply Nat.ltb_lt|done].
Qed.

Lemma all_digits_rstrip (s : string) : all_digits s = true → rstrip s = s.
Proof.
  induction s as [|c s IH]; [done|]. cbn [all_digits rstrip].
  intros [Hc Hs]%andb_true_iff. unfold blank. rewrite lstrip_digit by done.
  by rewrite IH.
Qed.

Lemma integer_text_strip (s : string) : integer_text s = true → strip s = s.
Proof.
  intros Hs. unfold strip. rewrite integer_text_lstrip by done.
  destruct s as [|c s]; [done|].
  pose proof (integer_text_lstrip _ Hs) as Hl.
  cbn [integer_text] in Hs. apply andb_true_iff in Hs as [_ Hs].
  cbn [rstrip]. unfold blank. rewrite Hl. by rewrite all_digits_rstrip.
Qed.

Lemma length_app_string (s t : string) :
  String.length (s +:+ t) = (String.length s + String.length t)%nat.
Proof. induction s as [|c s IH]; simpl; [done|by rewrite IH]. Qed.

Lemma substring_app_tail (s t : string) (n : nat) :
  String.substring (String.length s) n (s +:+ t) = String.substring 0 n t.
Proof. induction s as [|c s IH]; simpl; [done|apply IH]. Qed.

Lemma substring_app_head (s t : string) :
  String.substring 0 (String.length s) (s +:+ t) = s.
Proof.
  induction s as [|c s IH]; simpl; [by destruct t|by rewrite IH].
Qed.

Lemma endswith_app_dot0 (s : string) : endswith (s +:+ ".0") ".0" = true.
Proof.
  unfold endswith. rewrite length_app_string. cbn [String.length].
  replace (String.length s + 2 - 2)%nat with (String.length s) by lia.
  rewrite substring_app_tail.
  replace (2 <=? String.length s + 2)%nat with true
    by (symmetry; apply Nat.leb_le; lia).
  done.
Qed.

Lemma drop_last_app_dot0 (s : string) : drop_last 2 (s +:+ ".0") = s.
Proof.
  unfold drop_last. rewrite length_app_string. cbn [String.length].
  replace (String.length s + 2 - 2)%nat with (String.length s) by lia.
  apply substring_app_head.
Qed.

(** Whatever the text before the ".0", the artifact goes, together with
    the white space in front. *)
Lemma clean_postal_dot0 (s : string) :
  clean_postal (Some (s +:+ ".0")) = lstrip s.
Proof.
  unfold clean_postal, strip.
  rewrite lstrip_app_dot0, rstrip_app_dot0, endswith_app_dot0.
  apply drop_last_app_dot0.
Qed.

End postal.

(** C9. Postal-code normalization removes the trailing ".0" artifact of a
    numeric value serialized as a float (the text of an integer followed by
    ".0" becomes the text of the integer; "90210.0" becomes "90210"), and
    turns a missing value into the string "Unknown" (the result is always a
    string, never a null). *)
Theorem C9_clean_postal (s : string) :
  PyStr.integer_text s = true →
  clean_postal (Some (s +:+ ".0")) = s
  ∧ clean_postal (Some "90210.0") = "90210"
  ∧ clean_postal None = "Unknown".
Proof.
  intros Hs. split; [|done].
  rewrite clean_postal_dot0. by apply integer_text_lstrip.
Qed.

Lemma C9_clean_postal_witness :
  PyStr.integer_text "10001" = true
  ∧ clean_postal (Some "10001.0") = "10001"
  ∧ clean_postal (Some "90210.0") = "90210"
  ∧ clean_postal None = "Unknown".
Proof. split; [reflexivity|]. apply (C9_clean_postal "10001"). reflexivity. Defined.

(** ** pandas operations: facts *)

Section frame_facts.
Context {A K : Type} `{EqDecision K}.
Implicit Types (key : A → K) (l : list A) (seen keys : list K).

Lemma length_duplicated_from seen keys :
  length (duplicated_from seen keys) = length keys.
Proof.
  revert seen. induction keys as [|k keys IH]; intros seen; cbn; [done|].
  by rewrite IH.
Qed.

(** The mask at a position tells whether the key was met before. *)
Lemma duplicated_from_lookup seen keys i k :
  keys !! i = Some k →
  ∃ b, duplicated_from seen keys !! i = Some b
       ∧ (b = true ↔ k ∈ seen ∨ k ∈ take i keys).
Proof.
  revert seen i. induction keys as [|k0 keys IH]; intros seen i Hi; [done|].
  destruct i as [|i]; cbn in Hi |- *.
  - injection Hi as ->. eexists. split; [done|].
    rewrite bool_decide_eq_true. set_solver.
  - destruct (IH (k0 :: seen) i Hi) as (b & Hb & Hiff).
    exists b. split; [done|]. rewrite Hiff. set_solver.
Qed.

(** A row survives [loc_not (duplicated ..)] only at the first position
    of its key. *)
Lemma elem_of_loc_not_dup key seen l x :
  x ∈ loc_not (duplicated_from seen (key <$> l)) l →
  ∃ l1 l2, l = l1 ++ x :: l2 ∧ key x ∉ seen ∧ key x ∉ key <$> l1.
Proof.
  revert seen. induction l as [|y l IH]; intros seen; cbn; [by intros ?%elem_of_nil|].
  case_bool_decide as Hy.
  - intros (l1 & l2 & -> & Hs & Hl1)%IH.
    exists (y :: l1), l2. set_solver.
  - intros [->|Hx]%elem_of_cons.
    + exists [], l. set_solver.
    + apply IH in Hx as (l1 & l2 & -> & Hs & Hl1).
      exists (y :: l1), l2. set_solver.
Qed.

Lemma loc_not_dup_first key seen l1 x l2 :
  key x ∉ seen → key x ∉ key <$> l1 →
  x ∈ loc_not (duplicated_from seen (key <$> (l1 ++ x :: l2))) (l1 ++ x :: l2).
Proof.
  revert seen. induction l1 as [|y l1 IH]; intros seen Hs Hl1; cbn.
  - rewrite bool_decide_eq_false_2 by done. set_solver.
  - assert (key x ∉ key y :: seen) by set_solver.
    case_bool_decide; [|apply elem_of_cons; right]; apply IH; set_solver.
Qed.

Lemma loc_not_dup_NoDup key seen l :
  NoDup (key <$> loc_not (duplicated_from seen (key <$> l)) l).
Proof.
  revert seen. induction l as [|y l IH]; intros seen; cbn; [constructor|].
  case_bool_decide; [apply IH|]. cbn. constructor; [|apply IH].
  intros (x & Hxy & Hx)%list_elem_of_fmap.
  apply elem_of_loc_not_dup in Hx as (_ & _ & _ & Hs & _). set_solver.
Qed.

Lemma loc_not_sublist (mask : list bool) l : loc_not mask l `sublist_of` l.
Proof.
  revert l. induction mask as [|b mask IH]; intros [|x l]; cbn;
    try apply sublist_nil_l.
  destruct b; [apply sublist_cons|apply sublist_skip]; apply IH.
Qed.

(** The rows kept by a mask, as the increasing list of their positions. *)
Lemma loc_not_positions (mask : list bool) l :
  length mask = length l →
  ∃ kept : list nat,
    StronglySorted lt kept
    ∧ Forall2 (λ i x, l !! i = Some x) kept (loc_not mask l)
    ∧ ∀ i, i ∈ kept ↔ mask !! i = Some false.
Proof.
  revert l. induction mask as [|b mask IH]; intros [|x l] Hlen; try done.
  - exists []. split_and!; [constructor|constructor|]. set_solver.
  - destruct (IH l) as (kept & Hsort & Hall & Hin); [by injection Hlen|].
    assert (StronglySorted lt (S <$> kept)) as Hsort'.
    { clear -Hsort. induction Hsort as [|i kept _ IH Hi]; cbn; constructor; [done|].
      apply Forall_fmap. eapply Forall_impl; [done|]. cbn. lia. }
    assert (Forall2 (λ i y, (x :: l) !! i = Some y) (S <$> kept) (loc_not mask l)) as Hall'.
    { apply Forall2_fmap_l. eapply Forall2_impl; [done|]. done. }
    destruct b; cbn.
    + exists (S <$> kept). split_and!; [done|done|].
      intros [|i]; cbn; rewrite list_elem_of_fmap; [naive_solver|].
      rewrite <-Hin. naive_solver.
    + exists (0 :: (S <$> kept)). split_and!.
      * constructor; [done|]. apply Forall_fmap, Forall_forall. cbn. lia.
      * by constructor.
      * intros [|i]; cbn; rewrite elem_of_cons, list_elem_of_fmap; [naive_solver|].
        rewrite <-Hin. naive_solver.
Qed.

Lemma elem_of_drop_duplicates key l x : x ∈ drop_duplicates key l → x ∈ l.
Proof.
  intros (l1 & l2 & -> & _)%elem_of_loc_not_dup. set_solver.
Qed.

Lemma drop_duplicates_NoDup key l : NoDup (key <$> drop_duplicates key l).
Proof. apply loc_not_dup_NoDup. Qed.

Lemma drop_duplicates_first key l x :
  x ∈ drop_duplicates key l ↔
  ∃ l1 l2, l = l1 ++ x :: l2 ∧ key x ∉ key <$> l1.
Proof.
  split.
  - intros (l1 & l2 & ? & _ & ?)%elem_of_loc_not_dup. eauto.
  - intros (l1 & l2 & -> & Hl1). apply loc_not_dup_first; set_solver.
Qed.

(** Every key of the frame is still there after [drop_duplicates]. *)
Lemma drop_duplicates_keys key l k :
  k ∈ key <$> drop_duplicates key l ↔ k ∈ key <$> l.
Proof.
  split.
  - intros (x & -> & Hx)%list_elem_of_fmap.
    apply list_elem_of_fmap. eauto using elem_of_drop_duplicates.
  - induction l as [|y l IH] using rev_ind; [done|].
    rewrite fmap_app, elem_of_app. cbn.
    destruct (decide (k ∈ key <$> l)) as [Hk|Hk].
    + intros _. apply IH in Hk as (x & -> & Hx)%list_elem_of_fmap.
      apply list_elem_of_fmap. exists x. split; [done|].
      apply drop_duplicates_first in Hx as (l1 & l2 & -> & Hl1).
      apply drop_duplicates_first. exists l1, (l2 ++ [y]).
      by rewrite <-app_assoc.
    + intros [?|Hy]; [done|]. apply list_elem_of_singleton in Hy as ->.
      apply list_elem_of_fmap. exists y. split; [done|].
      apply drop_duplicates_first. exists l, []. done.
Qed.
End frame_facts.

Section frame_facts_id.
Context {A : Type} `{EqDecision A}.

Lemma drop_duplicates_id_NoDup (l : list A) : NoDup (drop_duplicates id l).
Proof.
  pose proof (drop_duplicates_NoDup id l) as H. by rewrite list_fmap_id in H.
Qed.

Lemma elem_of_drop_duplicates_id (l : list A) x : x ∈ drop_duplicates id l ↔ x ∈ l.
Proof.
  pose proof (drop_duplicates_keys id l x) as H. by rewrite !list_fmap_id in H.
Qed.
End frame_facts_id.

Section keys_facts.
Context {A : Type}.
Implicit Types l : list A.

Lemma length_with_keys l : length (with_keys l) = length l.
Proof.
  unfold with_keys. rewrite length_zip_with, length_fmap, length_seq. lia.
Qed.

Lemma with_keys_fst l : (with_keys l).*1 = Z.of_nat <$> seq 1 (length l).
Proof.
  unfold with_keys. apply (fst_zip (A:=Z)).
  rewrite length_fmap, length_seq. lia.
Qed.

Lemma with_keys_snd l : (with_keys l).*2 = l.
Proof.
  unfold with_keys. apply (snd_zip (A:=Z)).
  rewrite length_fmap, length_seq. lia.
Qed.

Lemma with_keys_lookup l i k x :
  with_keys l !! i = Some (k, x) ↔ l !! i = Some x ∧ k = Z.of_nat (S i).
Proof.
  unfold with_keys. rewrite lookup_zip_with_Some. split.
  - intros (k' & x' & [= -> ->] & Hk & Hx). split; [done|].
    rewrite list_lookup_fmap in Hk. apply fmap_Some in Hk as (j & Hj & ->).
    apply lookup_seq in Hj as [-> _]. done.
  - intros [Hx ->]. exists (Z.of_nat (S i)), x. split_and!; [done| |done].
    rewrite list_lookup_fmap, lookup_seq_lt; [done|].
    by eapply lookup_lt_Some.
Qed.

(** Keys handed out by [range(1, len + 1)] over mapped rows. *)
Lemma keyed_rows_keys {B} (mk : Z * A → B) (keyof : B → Z) l :
  (∀ kx, keyof (mk kx) = kx.1) →
  keyof <$> (mk <$> with_keys l) = Z.of_nat <$> seq 1 (length l).
Proof.
  intros Hk. rewrite <-list_fmap_compose, <-with_keys_fst.
  apply list_fmap_ext. intros ? kx _. apply Hk.
Qed.

Lemma keyed_rows_values {B C} (mk : Z * A → B) (val : B → C) (f : A → C) l :
  (∀ kx, val (mk kx) = f kx.2) →
  val <$> (mk <$> with_keys l) = f <$> l.
Proof.
  intros Hv. rewrite <-list_fmap_compose.
  rewrite <-(with_keys_snd l) at 2. rewrite <-list_fmap_compose.
  apply list_fmap_ext. intros ? kx _. apply Hv.
Qed.
End keys_facts.

Section dict_facts.
Context {K V : Type} `{Countable K}.

Lemma dict_of_pairs_lookup (kvs : list (K * V)) (k : K) :
  foldl (λ m kv, <[kv.1 := kv.2]> m) (∅ : gmap K V) kvs !! k
  = snd <$> last (filter (λ kv, kv.1 = k) kvs).
Proof.
  induction kvs as [|kv kvs IH] using rev_ind; [done|].
  rewrite foldl_app, filter_app. cbn [foldl].
  destruct (decide (kv.1 = k)) as [Hk|Hk].
  - rewrite filter_cons_True by done. rewrite filter_nil, last_snoc.
    cbn. subst k. apply lookup_insert_eq.
  - rewrite filter_cons_False by done. rewrite filter_nil, app_nil_r.
    rewrite lookup_insert_ne by done. apply IH.
Qed.

(** [dict(zip(df[a], df[b]))] sends a key to the [b] of the last row
    whose [a] is that key. *)
Lemma dict_zip_lookup {R} (f : R → K) (g : R → V) (rows : list R) (k : K) :
  dict_zip (f <$> rows) (g <$> rows) !! k
  = g <$> last (filter (λ r, f r = k) rows).
Proof.
  unfold dict_zip. rewrite dict_of_pairs_lookup.
  induction rows as [|r rows IH] using rev_ind; [done|].
  rewrite !fmap_app, zip_with_app by (by rewrite !length_fmap).
  rewrite !filter_app. cbn [fmap list_fmap zip_with].
  destruct (decide (f r = k)) as [Hk|Hk].
  - rewrite !filter_cons_True by done. by rewrite !filter_nil, !last_snoc.
  - rewrite !filter_cons_False by done. by rewrite !filter_nil, !app_nil_r.
Qed.

Lemma dict_zip_lookup_Some {R} (f : R → K) (g : R → V) (rows : list R) (k : K) :
  k ∈ f <$> rows → ∃ r, r ∈ rows ∧ f r = k ∧ dict_zip (f <$> rows) (g <$> rows) !! k = Some (g r).
Proof.
  intros (r0 & -> & Hr0)%list_elem_of_fmap. rewrite dict_zip_lookup.
  destruct (last (filter (λ r, f r = f r0) rows)) as [r|] eqn:Hlast.
  - exists r. apply last_Some_elem_of, list_elem_of_filter in Hlast as [? ?]. done.
  - apply last_None in Hlast.
    assert (r0 ∈ filter (λ r, f r = f r0) rows) as Hin
      by (by apply list_elem_of_filter).
    rewrite Hlast in Hin. by apply elem_of_nil in Hin.
Qed.

Lemma dict_zip_lookup_None {R} (f : R → K) (g : R → V) (rows : list R) (k : K) :
  k ∉ f <$> rows → dict_zip (f <$> rows) (g <$> rows) !! k = None.
Proof.
  intros Hk. rewrite dict_zip_lookup.
  destruct (last _) as [r|] eqn:Hlast; [|done].
  apply last_Some_elem_of, list_elem_of_filter in Hlast as [? ?].
  exfalso. apply Hk, list_elem_of_fmap. eauto.
Qed.
End dict_facts.

Section sort_facts.
Context (S : SortAlgo) {A : Type} (le : A → A → bool).

Lemma elem_of_sort_by (l : list A) x : x ∈ sort_by S le l ↔ x ∈ l.
Proof. by rewrite (sort_by_perm S). Qed.

Lemma length_sort_by (l : list A) : length (sort_by S le l) = length l.
Proof. by rewrite (sort_by_perm S). Qed.

Lemma NoDup_sort_by (l : list A) : NoDup (sort_by S le l) ↔ NoDup l.
Proof. by rewrite (sort_by_perm S). Qed.
End sort_facts.

(** ** The date range *)

Section date_facts.
Local Open Scope Z_scope.
Implicit Types c : list (option Timestamp).

Lemma foldl_cell_min_None acc c :
  foldl cell_min acc c = None ↔ acc = None ∧ ∀ x, x ∈ c → x = None.
Proof.
  revert acc. induction c as [|x c IH]; intros acc; cbn.
  - set_solver.
  - rewrite IH. destruct acc, x; cbn; set_solver.
Qed.

Lemma foldl_cell_min_Some acc c m :
  foldl cell_min acc c = Some m →
  (acc = Some m ∨ Some m ∈ c)
  ∧ ∀ t, acc = Some t ∨ Some t ∈ c → m ≤ t.
Proof.
  revert acc. induction c as [|x c IH]; intros acc; cbn.
  - intros ->. split; [by left|]. intros t [[= ->]|?%elem_of_nil]; [lia|done].
  - intros [Hin Hle]%IH. split.
    + destruct Hin as [Hin|Hin]; [|set_solver].
      destruct acc as [a|], x as [b|]; cbn in Hin; try set_solver.
      injection Hin as <-. destruct (Z.min_spec a b) as [[_ ->]|[_ ->]]; set_solver.
    + intros t Ht.
      destruct acc as [a|], x as [b|]; cbn in Hle.
      * pose proof (Hle (Z.min a b) (or_introl eq_refl)).
        destruct Ht as [[= ->]|[[= ->]|Ht]%elem_of_cons]; [lia|lia|].
        apply Hle. by right.
      * destruct Ht as [Ht|[[=]|Ht]%elem_of_cons]; apply Hle; auto.
      * destruct Ht as [[=]|[Ht|Ht]%elem_of_cons]; apply Hle; auto.
      * destruct Ht as [[=]|[[=]|Ht]%elem_of_cons]; apply Hle; auto.
Qed.

Lemma foldl_cell_max_None acc c :
  foldl cell_max acc c = None ↔ acc = None ∧ ∀ x, x ∈ c → x = None.
Proof.
  revert acc. induction c as [|x c IH]; intros acc; cbn.
  - set_solver.
  - rewrite IH. destruct acc, x; cbn; set_solver.
Qed.

Lemma foldl_cell_max_Some acc c m :
  foldl cell_max acc c = Some m →
  (acc = Some m ∨ Some m ∈ c)
  ∧ ∀ t, acc = Some t ∨ Some t ∈ c → t ≤ m.
Proof.
  revert acc. induction c as [|x c IH]; intros acc; cbn.
  - intros ->. split; [by left|]. intros t [[= ->]|?%elem_of_nil]; [lia|done].
  - intros [Hin Hle]%IH. split.
    + destruct Hin as [Hin|Hin]; [|set_solver].
      destruct acc as [a|], x as [b|]; cbn in Hin; try set_solver.
      injection Hin as <-. destruct (Z.max_spec a b) as [[_ ->]|[_ ->]]; set_solver.
    + intros t Ht.
      destruct acc as [a|], x as [b|]; cbn in Hle.
      * pose proof (Hle (Z.max a b) (or_introl eq_refl)).
        destruct Ht as [[= ->]|[[= ->]|Ht]%elem_of_cons]; [lia|lia|].
        apply Hle. by right.
      * destruct Ht as [Ht|[[=]|Ht]%elem_of_cons]; apply Hle; auto.
      * destruct Ht as [[=]|[Ht|Ht]%elem_of_cons]; apply Hle; auto.
      * destruct Ht as [[=]|[[=]|Ht]%elem_of_cons]; apply Hle; auto.
Qed.

(** [Series.min()]: NaT exactly when every cell is NaT, otherwise the
    least of the valid cells. *)
Lemma col_min_None c : col_min c = None ↔ ∀ x, x ∈ c → x = None.
Proof. unfold col_min. rewrite foldl_cell_min_None. naive_solver. Qed.

Lemma col_min_Some c m :
  col_min c = Some m → Some m ∈ c ∧ ∀ t, Some t ∈ c → m ≤ t.
Proof.
  intros [Hin Hle]%foldl_cell_min_Some. split; [naive_solver|]. auto.
Qed.

Lemma col_max_None c : col_max c = None ↔ ∀ x, x ∈ c → x = None.
Proof. unfold col_max. rewrite foldl_cell_max_None. naive_solver. Qed.

Lemma col_max_Some c m :
  col_max c = Some m → Some m ∈ c ∧ ∀ t, Some t ∈ c → t ≤ m.
Proof.
  intros [Hin Hle]%foldl_cell_max_Some. split; [naive_solver|]. auto.
Qed.

(** [min(NaT, x)] and [max(NaT, x)] are NaT. *)
Lemma py_min_NaT_l b : py_min None b = None.
Proof. by destruct b. Qed.

Lemma py_max_NaT_l b : py_max None b = None.
Proof. by destruct b. Qed.
End date_facts.

(** ** The star-schema build: what each step yields *)

Section build_facts.
Context {F : Type}.
Implicit Types (df : list (Row F)) (S : SortAlgo) (lk : Lookups).
Local Open Scope Z_scope.

Lemma min_all_no_order_date df :
  (∀ r, r ∈ df → order_date r = None) → min_all df = None.
Proof.
  intros Hall. unfold min_all.
  assert (col_min (order_date <$> df) = None) as ->; [|apply py_min_NaT_l].
  apply col_min_None. intros x (r & -> & Hr)%list_elem_of_fmap. auto.
Qed.

Lemma build_dim_date_no_order_date df :
  (∀ r, r ∈ df → order_date r = None) → build_dim_date df = inl ValueError.
Proof.
  intros Hall. unfold build_dim_date. by rewrite min_all_no_order_date.
Qed.

(** Without a single valid order date nothing is built. *)
Lemma build_star_schema_no_order_date S df :
  (∀ r, r ∈ df → order_date r = None) → build_star_schema S df = inl ValueError.
Proof.
  intros Hall. unfold build_star_schema. by rewrite build_dim_date_no_order_date.
Qed.

(** With a valid order date, [min_all] and [max_all] are the least and
    the greatest date of the frame. *)
Lemma min_max_all df r0 t0 :
  r0 ∈ df → order_date r0 = Some t0 →
  ∃ lo hi, min_all df = Some lo ∧ max_all df = Some hi
    ∧ has_date df lo ∧ has_date df hi
    ∧ ∀ t, has_date df t → lo ≤ t ≤ hi.
Proof.
  intros Hr0 Ht0. unfold min_all, max_all.
  assert (Some t0 ∈ order_date <$> df) as Hin0
    by (apply list_elem_of_fmap; eauto).
  destruct (col_min (order_date <$> df)) as [mo|] eqn:Hmo;
    [|by pose proof (proj1 (col_min_None _) Hmo _ Hin0)].
  destruct (col_max (order_date <$> df)) as [xo|] eqn:Hxo;
    [|by pose proof (proj1 (col_max_None _) Hxo _ Hin0)].
  apply col_min_Some in Hmo as [(rmo & Hrmo & ?)%list_elem_of_fmap Hmo].
  apply col_max_Some in Hxo as [(rxo & Hrxo & ?)%list_elem_of_fmap Hxo].
  assert (∀ r t, r ∈ df → order_date r = Some t → mo ≤ t ≤ xo) as Ho.
  { intros r t Hr Ht. split; [apply Hmo|apply Hxo];
      apply list_elem_of_fmap; eauto. }
  destruct (col_min (ship_date <$> df)) as [ms|] eqn:Hms;
    destruct (col_max (ship_date <$> df)) as [xs|] eqn:Hxs.
  - apply col_min_Some in Hms as [(rms & Hrms & ?)%list_elem_of_fmap Hms].
    apply col_max_Some in Hxs as [(rxs & Hrxs & ?)%list_elem_of_fmap Hxs].
    assert (∀ r t, r ∈ df → ship_date r = Some t → ms ≤ t ≤ xs) as Hs.
    { intros r t Hr Ht. split; [apply Hms|apply Hxs];
        apply list_elem_of_fmap; eauto. }
    pose proof (Ho rmo mo ltac:(done) ltac:(done)).
    pose proof (Hs rms ms ltac:(done) ltac:(done)).
    assert (∀ lo hi, lo ≤ mo → lo ≤ ms → xo ≤ hi → xs ≤ hi →
              ∀ t, has_date df t → lo ≤ t ≤ hi) as Hbound.
    { intros lo hi ???? t (r & Hr & [Ht|Ht]).
      - pose proof (Ho r t Hr Ht). lia.
      - pose proof (Hs r t Hr Ht). lia. }
    unfold py_min, py_max, ts_lt. cbn.
    destruct (Z.ltb_spec ms mo), (Z.ltb_spec xo xs).
    + exists ms, xs. split_and!; [done|done| | |apply Hbound; lia];
        eexists; eauto.
    + exists ms, xo. split_and!; [done|done| | |apply Hbound; lia];
        eexists; eauto.
    + exists mo, xs. split_and!; [done|done| | |apply Hbound; lia];
        eexists; eauto.
    + exists mo, xo. split_and!; [done|done| | |apply Hbound; lia];
        eexists; eauto.
  - apply col_min_Some in Hms as [Hms _].
    by pose proof (proj1 (col_max_None _) Hxs _ Hms).
  - apply col_max_Some in Hxs as [Hxs _].
    by pose proof (proj1 (col_min_None _) Hms _ Hxs).
  - pose proof (proj1 (col_min_None _) Hms) as Hms'. cbn.
    exists mo, xo. split_and!; [done|done| | |].
    + by eexists; eauto.
    + by eexists; eauto.
    + intros t (r & Hr & [Ht|Ht]); [by eapply Ho|].
      assert (Some t = None) as [=]. apply Hms', list_elem_of_fmap; eauto.
Qed.

Lemma build_dim_date_inr df dd :
  build_dim_date df = inr dd →
  ∃ lo hi, min_all df = Some lo ∧ max_all df = Some hi
           ∧ dd = dim_date_row <$> days_between lo hi.
Proof.
  unfold build_dim_date, date_range.
  destruct (min_all df) as [lo|], (max_all df) as [hi|]; try done.
  intros [= <-]. eauto.
Qed.

Lemma build_dim_date_ok df r0 t0 :
  r0 ∈ df → order_date r0 = Some t0 →
  ∃ lo hi, build_dim_date df = inr (dim_date_row <$> days_between lo hi)
    ∧ has_date df lo ∧ has_date df hi
    ∧ ∀ t, has_date df t → lo ≤ t ≤ hi.
Proof.
  intros Hr0 Ht0.
  destruct (min_max_all df r0 t0 Hr0 Ht0) as (lo & hi & Hlo & Hhi & ?).
  exists lo, hi. split; [|done].
  unfold build_dim_date. by rewrite Hlo, Hhi.
Qed.

(** The build succeeds exactly when some order date is valid. *)
Lemma build_dim_date_inr_order df dd :
  build_dim_date df = inr dd → ∃ r t, r ∈ df ∧ order_date r = Some t.
Proof.
  intros Hdd.
  destruct (decide (Forall (λ r, order_date r = None) df)) as [Hall|Hex].
  - rewrite build_dim_date_no_order_date in Hdd; [done|].
    by apply Forall_forall.
  - apply not_Forall_Exists in Hex; [|apply _].
    apply Exists_exists in Hex as (r & Hr & Hne).
    destruct (order_date r) as [t|] eqn:Ht; [|done]. eauto.
Qed.

(** The date dict: a day of the range maps to its YYYYMMDD key, any
    other day is not a key. *)
Lemma date_to_key_lookup lo hi (t : Timestamp) :
  let dd := dim_date_row <$> days_between lo hi in
  dict_zip (full_date <$> dd) (date_key <$> dd) !! t
  = if decide (lo ≤ t ≤ hi) then Some (date_key_of t) else None.
Proof.
  intros dd. case_decide as Ht.
  - destruct (dict_zip_lookup_Some full_date date_key dd t)
      as (d & Hd & Hfull & ->).
    + apply list_elem_of_fmap. exists (dim_date_row t). split; [done|].
      apply list_elem_of_fmap. eexists. split; [done|].
      by apply elem_of_days_between.
    + apply list_elem_of_fmap in Hd as (t' & -> & _). cbn in Hfull. by subst.
  - apply dict_zip_lookup_None.
    intros (d & Hfull & (t' & -> & Hin)%list_elem_of_fmap)%list_elem_of_fmap.
    cbn in Hfull. subst t'. by apply elem_of_days_between in Hin.
Qed.
End build_facts.

Section fact_facts.
Context {F : Type}.
Implicit Types (df : list (Row F)) (lk : Lookups) (fact : list (FactSales F)).

Lemma build_fact_sales_inr lk df fact :
  build_fact_sales lk df = inr fact →
  length fact = length df
  ∧ ∀ i r, df !! i = Some r →
      ∃ rk, geo_to_key lk !! geo_of r = Some rk
            ∧ fact !! i = Some (fact_row lk (Z.of_nat (S i)) r rk).
Proof.
  unfold build_fact_sales.
  destruct (mapM _ df) as [rks|] eqn:Hrks; [|done]. intros [= <-].
  apply mapM_Some in Hrks. pose proof (Forall2_length _ _ _ Hrks) as Hlen.
  split.
  - rewrite length_fmap, length_with_keys, length_zip_with. lia.
  - intros i r Hr.
    destruct (Forall2_lookup_l _ _ _ _ _ Hrks Hr) as (rk & Hrk & Hgeo).
    exists rk. split; [done|].
    rewrite list_lookup_fmap.
    assert (with_keys (zip df rks) !! i = Some (Z.of_nat (S i), (r, rk))) as ->; [|done].
    apply with_keys_lookup. split; [|done].
    apply lookup_zip_with_Some. eauto.
Qed.

Lemma build_fact_sales_inl lk df e :
  build_fact_sales lk df = inl e →
  e = KeyError ∧ ∃ r, r ∈ df ∧ geo_to_key lk !! geo_of r = None.
Proof.
  unfold build_fact_sales.
  destruct (mapM _ df) as [rks|] eqn:Hrks; [done|]. intros [= <-].
  split; [done|]. apply mapM_None, Exists_exists in Hrks. done.
Qed.

Lemma build_fact_sales_miss lk df r :
  r ∈ df → geo_to_key lk !! geo_of r = None →
  build_fact_sales lk df = inl KeyError.
Proof.
  intros Hr Hmiss. unfold build_fact_sales.
  assert (mapM (λ r, geo_to_key lk !! geo_of r) df = None) as ->; [|done].
  apply mapM_None, Exists_exists. eauto.
Qed.

Lemma build_fact_sales_hit lk df :
  (∀ r, r ∈ df → is_Some (geo_to_key lk !! geo_of r)) →
  ∃ fact, build_fact_sales lk df = inr fact.
Proof.
  intros Hall. destruct (build_fact_sales lk df) as [e|fact] eqn:Hb; [|eauto].
  apply build_fact_sales_inl in Hb as (_ & r & Hr & Hnone).
  destruct (Hall r Hr) as [? ?]. congruence.
Qed.
End fact_facts.

Section dim_facts.
Context {F : Type} (S : SortAlgo).
Implicit Types df : list (Row F).

(** The shape shared by the four sorted dimensions. *)
Lemma elem_of_natural_rows {N} `{EqDecision N} (le : N → N → bool)
    (proj : Row F → N) df x :
  x ∈ sort_by S le (drop_duplicates id (proj <$> df)) ↔ ∃ r, r ∈ df ∧ x = proj r.
Proof.
  rewrite elem_of_sort_by, elem_of_drop_duplicates_id, list_elem_of_fmap.
  naive_solver.
Qed.

Lemma natural_rows_NoDup {N} `{EqDecision N} (le : N → N → bool)
    (proj : Row F → N) df :
  NoDup (sort_by S le (drop_duplicates id (proj <$> df))).
Proof. apply NoDup_sort_by, drop_duplicates_id_NoDup. Qed.

Lemma dim_customer_naturals df :
  (λ d, (dc_customer_id d, dc_customer_name d, dc_segment d))
    <$> build_dim_customer S df = customer_rows S df.
Proof.
  unfold build_dim_customer.
  erewrite (keyed_rows_values _ _ id); [apply list_fmap_id|].
  by intros [k [[a b] c]].
Qed.

Lemma dim_product_naturals df :
  (λ d, (dp_product_id d, dp_category d, dp_sub_category d))
    <$> build_dim_product S df = product_rows S df.
Proof.
  unfold build_dim_product.
  erewrite (keyed_rows_values _ _ id); [apply list_fmap_id|].
  by intros [k [[a b] c]].
Qed.

Lemma dim_region_naturals df : dr_geo <$> build_dim_region S df = region_rows S df.
Proof.
  unfold build_dim_region.
  erewrite (keyed_rows_values _ _ id); [apply list_fmap_id|]. done.
Qed.

Lemma dim_ship_mode_naturals df :
  dsm_ship_mode <$> build_dim_ship_mode S df = ship_mode_rows S df.
Proof.
  unfold build_dim_ship_mode.
  erewrite (keyed_rows_values _ _ id); [apply list_fmap_id|]. done.
Qed.

Lemma dim_customer_ids df :
  dc_customer_id <$> build_dim_customer S df = (λ x, x.1.1) <$> customer_rows S df.
Proof. unfold build_dim_customer. by apply keyed_rows_values. Qed.

Lemma dim_product_ids df :
  dp_product_id <$> build_dim_product S df = (λ x, x.1.1) <$> product_rows S df.
Proof. unfold build_dim_product. by apply keyed_rows_values. Qed.

(** Dense 1-based keys. *)
Lemma dim_customer_keys df :
  customer_key <$> build_dim_customer S df
  = Z.of_nat <$> seq 1 (length (build_dim_customer S df)).
Proof.
  unfold build_dim_customer. rewrite length_fmap, length_with_keys.
  by apply keyed_rows_keys.
Qed.

Lemma dim_product_keys df :
  product_key <$> build_dim_product S df
  = Z.of_nat <$> seq 1 (length (build_dim_product S df)).
Proof.
  unfold build_dim_product. rewrite length_fmap, length_with_keys.
  by apply keyed_rows_keys.
Qed.

Lemma dim_region_keys df :
  region_key <$> build_dim_region S df
  = Z.of_nat <$> seq 1 (length (build_dim_region S df)).
Proof.
  unfold build_dim_region. rewrite length_fmap, length_with_keys.
  by apply keyed_rows_keys.
Qed.

Lemma dim_ship_mode_keys df :
  ship_mode_key <$> build_dim_ship_mode S df
  = Z.of_nat <$> seq 1 (length (build_dim_ship_mode S df)).
Proof.
  unfold build_dim_ship_mode. rewrite length_fmap, length_with_keys.
  by apply keyed_rows_keys.
Qed.

(** Every natural key of a row of the frame is a key of its dict. *)
Lemma customer_id_in_dim df r :
  r ∈ df → customer_id r ∈ dc_customer_id <$> build_dim_customer S df.
Proof.
  intros Hr. rewrite dim_customer_ids. apply list_elem_of_fmap.
  exists (customer_id r, customer_name r, segment r). split; [done|].
  apply elem_of_natural_rows. eauto.
Qed.

Lemma product_id_in_dim df r :
  r ∈ df → product_id r ∈ dp_product_id <$> build_dim_product S df.
Proof.
  intros Hr. rewrite dim_product_ids. apply list_elem_of_fmap.
  exists (product_id r, category r, sub_category r). split; [done|].
  apply elem_of_natural_rows. eauto.
Qed.

Lemma geo_in_dim df r : r ∈ df → geo_of r ∈ dr_geo <$> build_dim_region S df.
Proof.
  intros Hr. rewrite dim_region_naturals. apply elem_of_natural_rows. eauto.
Qed.

Lemma ship_mode_in_dim df r :
  r ∈ df → ship_mode r ∈ dsm_ship_mode <$> build_dim_ship_mode S df.
Proof.
  intros Hr. rewrite dim_ship_mode_naturals. apply elem_of_natural_rows. eauto.
Qed.

(** Hence the region lookup of the build never raises. *)
Lemma build_star_schema_inr df dd :
  build_dim_date df = inr dd →
  ∃ fact,
    build_fact_sales
      (lookups_of dd (build_dim_customer S df) (build_dim_product S df)
         (build_dim_region S df) (build_dim_ship_mode S df)) df = inr fact
    ∧ build_star_schema S df
      = inr {| dim_date := dd;
               dim_customer := build_dim_customer S df;
               dim_product := build_dim_product S df;
               dim_region := build_dim_region S df;
               dim_ship_mode := build_dim_ship_mode S df;
               fact_sales := fact |}.
Proof.
  intros Hdd. unfold build_star_schema. rewrite Hdd.
  destruct (build_fact_sales_hit
    (lookups_of dd (build_dim_customer S df) (build_dim_product S df)
       (build_dim_region S df) (build_dim_ship_mode S df)) df) as [fact Hfact].
  - intros r Hr. cbn.
    destruct (dict_zip_lookup_Some dr_geo region_key (build_dim_region S df)
                (geo_of r)) as (d & _ & _ & ->); [by apply geo_in_dim|done].
  - exists fact. by rewrite Hfact.
Qed.

(** The build as a whole: it fails with ValueError, or returns the six
    tables. *)
Lemma build_star_schema_cases df :
  (build_star_schema S df = inl ValueError
   ∧ ∀ r, r ∈ df → order_date r = None)
  ∨ (∃ dd fact,
       build_dim_date df = inr dd
       ∧ build_fact_sales
           (lookups_of dd (build_dim_customer S df) (build_dim_product S df)
              (build_dim_region S df) (build_dim_ship_mode S df)) df = inr fact
       ∧ build_star_schema S df
         = inr {| dim_date := dd;
                  dim_customer := build_dim_customer S df;
                  dim_product := build_dim_product S df;
                  dim_region := build_dim_region S df;
                  dim_ship_mode := build_dim_ship_mode S df;
                  fact_sales := fact |}).
Proof.
  destruct (build_dim_date df) as [e|dd] eqn:Hdd.
  - left.
    destruct (decide (Forall (λ r, order_date r = None) df)) as [Hall|Hex].
    + rewrite Forall_forall in Hall. split; [|done].
      by apply build_star_schema_no_order_date.
    + apply not_Forall_Exists in Hex; [|apply _].
      apply Exists_exists in Hex as (r & Hr & Hne).
      destruct (order_date r) as [t|] eqn:Ht; [|done].
      destruct (build_dim_date_ok df r t Hr Ht) as (? & ? & ? & _). congruence.
  - right. destruct (build_star_schema_inr df dd Hdd) as (fact & ? & ?). eauto.
Qed.
End dim_facts.

Local Open Scope string_scope.
Local Open Scope list_scope.

(** ** C7: no valid date at all *)

(** C7. When every order date and every ship date of the normalized record
    set is missing, the star-schema build fails with an error (ValueError
    from the date range): no date dimension and no fact table are
    produced. *)
Theorem C7_no_valid_date {F} (S : SortAlgo) (df : list (Row F)) :
  (∀ r, r ∈ df → order_date r = None ∧ ship_date r = None) →
  build_star_schema S df = inl ValueError.
Proof.
  intros Hall. apply build_star_schema_no_order_date.
  intros r Hr. by destruct (Hall r Hr).
Qed.

Lemma C7_no_valid_date_witness :
  build_star_schema merge_sorter df_no_dates = inl ValueError.
Proof.
  apply (C7_no_valid_date merge_sorter df_no_dates).
  intros r Hr. apply list_elem_of_singleton in Hr as ->. split; reflexivity.
Defined.

(** ** C4: the date dimension *)

(** The date dimension that is built when some order date is valid: one
    row per day from the least to the greatest date of the frame, each day
    once, keyed by a number that grows strictly with the day. *)
Theorem date_dimension_spec {F} (df : list (Row F)) (r0 : Row F) (t0 : Timestamp) :
  r0 ∈ df → order_date r0 = Some t0 →
  ∃ dd lo hi,
    build_dim_date df = inr dd
    ∧ has_date df lo ∧ has_date df hi ∧ (∀ t, has_date df t → lo ≤ t ≤ hi)%Z
    ∧ Z.of_nat (length dd) = (hi - lo + 1)%Z
    ∧ (∀ t, (lo ≤ t ≤ hi)%Z →
         ∃ i d, dd !! i = Some d ∧ full_date d = t
                ∧ ∀ j d', dd !! j = Some d' → full_date d' = t → j = i)
    ∧ (∀ d, d ∈ dd → date_key d = date_key_of (full_date d))
    ∧ StronglySorted (λ d1 d2, (full_date d1 < full_date d2)%Z
                               ∧ (date_key d1 < date_key d2)%Z) dd.
Proof.
  intros Hr0 Ht0.
  destruct (build_dim_date_ok df r0 t0 Hr0 Ht0) as (lo & hi & Hdd & Hlo & Hhi & Hb).
  exists (dim_date_row <$> days_between lo hi), lo, hi.
  split_and!; try done.
  - rewrite length_fmap, length_days_between.
    pose proof (Hb lo Hlo). lia.
  - intros t Ht. exists (Z.to_nat (t - lo)), (dim_date_row t). split_and!; [|done|].
    + rewrite list_lookup_fmap. unfold days_between.
      rewrite list_lookup_fmap, lookup_seq_lt by lia. cbn. do 2 f_equal. lia.
    + intros j d Hj Hd.
      rewrite list_lookup_fmap in Hj. apply fmap_Some in Hj as (t' & Ht' & ->).
      apply days_between_lookup in Ht' as ->. cbn in Hd. lia.
  - intros d (t & -> & _)%list_elem_of_fmap. done.
  - eapply StronglySorted_fmap; [|apply days_between_sorted].
    intros x y Hxy. cbn. split; [done|]. by apply date_key_of_lt.
Qed.

(** C4 (failing input). The record set has a valid ship date (2021-01-05)
    but its order date is missing: [min(NaT, ship_min)] is NaT, the date
    range raises, and no date dimension is built, where the specification
    promises a one-row dimension. *)
Theorem C4_order_dates_missing :
  has_date df_order_missing 18632%Z
  ∧ build_dim_date df_order_missing = inl ValueError
  ∧ build_star_schema merge_sorter df_order_missing = inl ValueError.
Proof.
  split_and!; [|vm_compute; reflexivity|vm_compute; reflexivity].
  eexists. split; [apply list_elem_of_here|]. by right.
Qed.

(** ** C1, C2: lookups and foreign keys *)

(** C1 (counterexample). The ship date of the only row is missing, so the
    date dict has no entry for it; the build does not fail, it returns a
    fact row whose ship-date key is null. Likewise a customer identifier
    that is not a key of the customer dict yields a null customer key in
    the fact block, not an error. *)
Lemma C1_counterexample :
  (∃ dd ss,
     build_dim_date df_ship_missing = inr dd
     ∧ ¬ fails_loudly_on_miss (lookups_built merge_sorter dd df_ship_missing) df_ship_missing
     ∧ build_star_schema merge_sorter df_ship_missing = inr ss
     ∧ fs_ship_date_key <$> fact_sales ss = [None])
  ∧ ¬ fails_loudly_on_miss lookups_no_customer df_ship_missing
  ∧ ∃ fact, build_fact_sales lookups_no_customer df_ship_missing = inr fact
            ∧ fs_customer_key <$> fact = [None].
Proof.
  split_and!.
  - eexists _, _. split_and!; [vm_compute; reflexivity| |vm_compute; reflexivity|vm_compute; reflexivity].
    intros Hloud. destruct Hloud as [e He]; [|by vm_compute in He].
    eexists. split; [apply list_elem_of_here|]. right; left. reflexivity.
  - intros Hloud. destruct Hloud as [e He]; [|by vm_compute in He].
    eexists. split; [apply list_elem_of_here|]. do 2 right; left. reflexivity.
  - eexists. split; vm_compute; reflexivity.
Qed.

(** C1 (amended). The fact block fails loudly on one kind of miss only: a
    region tuple that is not a key of the region dict raises KeyError. When
    every region tuple is a key, the block returns one fact row per record,
    and each of the other five keys is what its dict holds for the record's
    value, null when the value is missing or not a key. *)
Theorem C1_lookup_miss {F} (lk : Lookups) (df : list (Row F)) :
  match build_fact_sales lk df with
  | inl e => e = KeyError ∧ ∃ r, r ∈ df ∧ geo_to_key lk !! geo_of r = None
  | inr fact =>
      Forall2 (λ r f,
          geo_to_key lk !! geo_of r = Some (fs_region_key f)
          ∧ fs_order_date_key f = order_date r ≫= (date_to_key lk !!.)
          ∧ fs_ship_date_key f = ship_date r ≫= (date_to_key lk !!.)
          ∧ fs_customer_key f = cust_to_key lk !! customer_id r
          ∧ fs_product_key f = prod_to_key lk !! product_id r
          ∧ fs_ship_mode_key f = ship_to_key lk !! ship_mode r) df fact
  end.
Proof.
  destruct (build_fact_sales lk df) as [e|fact] eqn:Hb.
  - by apply build_fact_sales_inl.
  - apply build_fact_sales_inr in Hb as [Hlen Hrows].
    apply Forall2_same_length_lookup_2; [done|].
    intros i r f Hr Hf. destruct (Hrows i r Hr) as (rk & Hrk & Hf').
    rewrite Hf' in Hf. injection Hf as <-. done.
Qed.

(** What a successful build returns. *)
Lemma build_star_schema_inv {F} (S : SortAlgo) (df : list (Row F)) (ss : StarSchema F) :
  build_star_schema S df = inr ss →
  ∃ lo hi,
    has_date df lo ∧ has_date df hi ∧ (∀ t, has_date df t → lo ≤ t ≤ hi)%Z
    ∧ dim_date ss = dim_date_row <$> days_between lo hi
    ∧ dim_customer ss = build_dim_customer S df
    ∧ dim_product ss = build_dim_product S df
    ∧ dim_region ss = build_dim_region S df
    ∧ dim_ship_mode ss = build_dim_ship_mode S df
    ∧ build_fact_sales (lookups_built S (dim_date ss) df) df = inr (fact_sales ss).
Proof.
  intros Hss.
  destruct (build_star_schema_cases S df) as [[Hfail _]|(dd & fact & Hdd & Hfact & Hok)];
    [congruence|].
  rewrite Hok in Hss. injection Hss as <-. cbn.
  destruct (build_dim_date_inr_order df dd Hdd) as (r0 & t0 & Hr0 & Ht0).
  destruct (build_dim_date_ok df r0 t0 Hr0 Ht0) as (lo & hi & Hdd' & ? & ? & ?).
  rewrite Hdd in Hdd'. injection Hdd' as ->.
  exists lo, hi. split_and!; done.
Qed.

(** The fact rows of a successful build, position by position. *)
Lemma build_star_schema_fact {F} (S : SortAlgo) (df : list (Row F)) (ss : StarSchema F) :
  build_star_schema S df = inr ss →
  length (fact_sales ss) = length df
  ∧ ∀ i r, df !! i = Some r →
      ∃ rk, geo_to_key (lookups_built S (dim_date ss) df) !! geo_of r = Some rk
            ∧ fact_sales ss !! i
              = Some (fact_row (lookups_built S (dim_date ss) df) (Z.of_nat (Datatypes.S i)) r rk).
Proof.
  intros Hss. apply build_star_schema_inv in Hss as (_ & _ & _ & _ & _ & _ & _ & _ & _ & _ & Hf).
  by apply build_fact_sales_inr.
Qed.

(** C2 (counterexample). The build accepts a record set whose only row has
    no ship date, and the fact row it returns has a null ship-date key,
    which is in no key set. *)
Lemma C2_counterexample :
  ∃ ss, build_star_schema merge_sorter df_ship_missing = inr ss
        ∧ ¬ referentially_complete ss.
Proof.
  eexists. split; [vm_compute; reflexivity|].
  intros Hrc. edestruct Hrc as (_ & (k & Hk & _) & _); [apply list_elem_of_here|].
  vm_compute in Hk. discriminate.
Qed.

(** C2 (amended). In the fact table of a successful build, the customer,
    product, region and ship-mode key of every fact row exist in the key
    column of their dimension; the order-date (ship-date) key exists in the
    date dimension's key column when the record's order (ship) date is
    present, and is null when that date is missing. *)
Theorem C2_referential_completeness {F} (S : SortAlgo) (df : list (Row F))
    (ss : StarSchema F) :
  build_star_schema S df = inr ss →
  Forall2 (λ r f,
      (if order_date r
       then resolves (fs_order_date_key f) (date_key <$> dim_date ss)
       else fs_order_date_key f = None)
      ∧ (if ship_date r
         then resolves (fs_ship_date_key f) (date_key <$> dim_date ss)
         else fs_ship_date_key f = None)
      ∧ resolves (fs_customer_key f) (customer_key <$> dim_customer ss)
      ∧ resolves (fs_product_key f) (product_key <$> dim_product ss)
      ∧ fs_region_key f ∈ region_key <$> dim_region ss
      ∧ resolves (fs_ship_mode_key f) (ship_mode_key <$> dim_ship_mode ss))
    df (fact_sales ss).
Proof.
  intros Hss. destruct (build_star_schema_fact S df ss Hss) as [Hlen Hrows].
  apply build_star_schema_inv in Hss
    as (lo & hi & _ & _ & Hb & Hdd & Hdc & Hdp & Hdr & Hdsm & _).
  apply Forall2_same_length_lookup_2; [done|].
  intros i r f Hr Hf. destruct (Hrows i r Hr) as (rk & Hrk & Hf').
  rewrite Hf' in Hf. injection Hf as <-.
  assert (r ∈ df) as Hin by (by eapply list_elem_of_lookup_2).
  assert (∀ t, has_date df t →
            resolves (date_to_key (lookups_built S (dim_date ss) df) !! t)
              (date_key <$> dim_date ss)) as Hdate.
  { intros t Ht. exists (date_key_of t). rewrite Hdd. cbn -[dim_date_row].
    rewrite date_to_key_lookup, decide_True by auto. split; [done|].
    rewrite <-list_fmap_compose. apply list_elem_of_fmap. exists t.
    split; [done|]. apply elem_of_days_between. auto. }
  cbn -[lookups_built]. split_and!.
  - destruct (order_date r) as [t|] eqn:Ht; [|done]. apply Hdate. eexists; eauto.
  - destruct (ship_date r) as [t|] eqn:Ht; [|done]. apply Hdate. eexists; eauto.
  - rewrite Hdc. cbn.
    destruct (dict_zip_lookup_Some dc_customer_id customer_key
                (build_dim_customer S df) (customer_id r)) as (d & Hd & _ & ->);
      [by apply customer_id_in_dim|].
    eexists. split; [done|]. apply list_elem_of_fmap; eauto.
  - rewrite Hdp. cbn.
    destruct (dict_zip_lookup_Some dp_product_id product_key
                (build_dim_product S df) (product_id r)) as (d & Hd & _ & ->);
      [by apply product_id_in_dim|].
    eexists. split; [done|]. apply list_elem_of_fmap; eauto.
  - rewrite Hdr. cbn in Hrk.
    destruct (dict_zip_lookup_Some dr_geo region_key
                (build_dim_region S df) (geo_of r)) as (d & Hd & _ & Hlk);
      [by apply geo_in_dim|].
    rewrite Hlk in Hrk. injection Hrk as <-. apply list_elem_of_fmap; eauto.
  - rewrite Hdsm. cbn.
    destruct (dict_zip_lookup_Some dsm_ship_mode ship_mode_key
                (build_dim_ship_mode S df) (ship_mode r)) as (d & Hd & _ & ->);
      [by apply ship_mode_in_dim|].
    eexists. split; [done|]. apply list_elem_of_fmap; eauto.
Qed.

Lemma C2_referential_completeness_witness :
  ∃ ss, build_star_schema merge_sorter df_ship_missing = inr ss
        ∧ Forall2 (λ r f,
              (if order_date r
               then resolves (fs_order_date_key f) (date_key <$> dim_date ss)
               else fs_order_date_key f = None)
              ∧ (if ship_date r
                 then resolves (fs_ship_date_key f) (date_key <$> dim_date ss)
                 else fs_ship_date_key f = None)
              ∧ resolves (fs_customer_key f) (customer_key <$> dim_customer ss)
              ∧ resolves (fs_product_key f) (product_key <$> dim_product ss)
              ∧ fs_region_key f ∈ region_key <$> dim_region ss
              ∧ resolves (fs_ship_mode_key f) (ship_mode_key <$> dim_ship_mode ss))
            df_ship_missing (fact_sales ss).
Proof.
  eexists. split; [vm_compute; reflexivity|].
  apply (C2_referential_completeness merge_sorter df_ship_missing). vm_compute; reflexivity.
Defined.

(** ** C6, C10: surrogate keys *)

Lemma dense_keys_by_position {A} (key : A → Z) (l : list A) :
  (∀ i x, l !! i = Some x → key x = Z.of_nat (Datatypes.S i)) →
  dense_keys (key <$> l).
Proof.
  intros Hpos. unfold dense_keys. rewrite length_fmap.
  apply list_eq. intros i. rewrite !list_lookup_fmap.
  destruct (l !! i) as [x|] eqn:Hx; cbn.
  - rewrite lookup_seq_lt by (by eapply lookup_lt_Some). cbn.
    by rewrite (Hpos i x Hx).
  - rewrite lookup_seq_ge; [done|]. by apply lookup_ge_None.
Qed.

Lemma StronglySorted_fmap_inv {A B} (f : A → B) (R : relation B) (l : list A) :
  StronglySorted R (f <$> l) → StronglySorted (λ x y, R (f x) (f y)) l.
Proof.
  induction l as [|x l IH]; cbn; [constructor|].
  intros [Hx Hl]%StronglySorted_cons. constructor; [by apply IH|].
  rewrite Forall_fmap in Hx. exact Hx.
Qed.

Section sorted_dims.
Context {F : Type} (S : SortAlgo).
Implicit Types df : list (Row F).

Lemma dim_customer_sorted df :
  StronglySorted (λ a b, String.leb (dc_customer_id a) (dc_customer_id b))
    (build_dim_customer S df).
Proof.
  apply (StronglySorted_fmap_inv dc_customer_id (λ a b, String.leb a b)).
  rewrite dim_customer_ids.
  eapply StronglySorted_fmap; [|apply (sort_by_sorted S), on_preorder, string_leb_order].
  done.
Qed.

Lemma dim_product_sorted df :
  StronglySorted (λ a b, String.leb (dp_product_id a) (dp_product_id b))
    (build_dim_product S df).
Proof.
  apply (StronglySorted_fmap_inv dp_product_id (λ a b, String.leb a b)).
  rewrite dim_product_ids.
  eapply StronglySorted_fmap; [|apply (sort_by_sorted S), on_preorder, string_leb_order].
  done.
Qed.

Lemma dim_region_sorted df :
  StronglySorted (λ a b, geo_le (dr_geo a) (dr_geo b)) (build_dim_region S df).
Proof.
  apply (StronglySorted_fmap_inv dr_geo (λ a b, geo_le a b)).
  rewrite dim_region_naturals. apply (sort_by_sorted S), geo_le_order.
Qed.

Lemma dim_ship_mode_sorted df :
  StronglySorted (λ a b, String.leb (dsm_ship_mode a) (dsm_ship_mode b))
    (build_dim_ship_mode S df).
Proof.
  apply (StronglySorted_fmap_inv dsm_ship_mode (λ a b, String.leb a b)).
  rewrite dim_ship_mode_naturals. apply (sort_by_sorted S), string_leb_order.
Qed.
End sorted_dims.

(** C6 (counterexample). The date dimension built for a single order on
    2021-01-05 has one row, and its key is 20210105, not 1. *)
Lemma C6_counterexample :
  ∃ ss, build_star_schema merge_sorter df_ship_missing = inr ss
        ∧ date_key <$> dim_date ss = [20210105%Z]
        ∧ ¬ dense_keys (date_key <$> dim_date ss).
Proof.
  eexists. split_and!; [vm_compute; reflexivity|vm_compute; reflexivity|].
  intros Hd. vm_compute in Hd. discriminate.
Qed.

(** C6 (amended). The customer, product, region and ship-mode dimensions
    have the keys 1 .. N, N their row count, handed out in ascending order
    of the natural key; the fact table has the identifiers 1 .. N handed
    out in the row order of the normalized input. The key of the date
    dimension is not 1 .. N: it is the YYYYMMDD number of the row's date. *)
Theorem C6_surrogate_keys {F} (S : SortAlgo) (df : list (Row F)) (ss : StarSchema F) :
  build_star_schema S df = inr ss →
  (dense_keys (customer_key <$> dim_customer ss)
   ∧ StronglySorted (λ a b, String.leb (dc_customer_id a) (dc_customer_id b))
       (dim_customer ss))
  ∧ (dense_keys (product_key <$> dim_product ss)
     ∧ StronglySorted (λ a b, String.leb (dp_product_id a) (dp_product_id b))
         (dim_product ss))
  ∧ (dense_keys (region_key <$> dim_region ss)
     ∧ StronglySorted (λ a b, geo_le (dr_geo a) (dr_geo b)) (dim_region ss))
  ∧ (dense_keys (ship_mode_key <$> dim_ship_mode ss)
     ∧ StronglySorted (λ a b, String.leb (dsm_ship_mode a) (dsm_ship_mode b))
         (dim_ship_mode ss))
  ∧ (dense_keys (sales_id <$> fact_sales ss)
     ∧ Forall2 (λ r f, fs_row_id f = row_id r ∧ fs_order_id f = order_id r
                       ∧ fs_sales_amount f = sales r) df (fact_sales ss))
  ∧ Forall (λ d, date_key d = date_key_of (full_date d)) (dim_date ss).
Proof.
  intros Hss. destruct (build_star_schema_fact S df ss Hss) as [Hlen Hrows].
  apply build_star_schema_inv in Hss
    as (lo & hi & _ & _ & _ & Hdd & -> & -> & -> & -> & _).
  unfold dense_keys. split_and!.
  - by rewrite length_fmap, <-dim_customer_keys.
  - apply dim_customer_sorted.
  - by rewrite length_fmap, <-dim_product_keys.
  - apply dim_product_sorted.
  - by rewrite length_fmap, <-dim_region_keys.
  - apply dim_region_sorted.
  - by rewrite length_fmap, <-dim_ship_mode_keys.
  - apply dim_ship_mode_sorted.
  - apply dense_keys_by_position. intros i f Hf.
    destruct (lookup_lt_is_Some_2 df i) as [r Hr];
      [rewrite <-Hlen; by eapply lookup_lt_Some|].
    destruct (Hrows i r Hr) as (rk & _ & Hf'). rewrite Hf' in Hf. by injection Hf as <-.
  - apply Forall2_same_length_lookup_2; [done|]. intros i r f Hr Hf.
    destruct (Hrows i r Hr) as (rk & _ & Hf'). rewrite Hf' in Hf. by injection Hf as <-.
  - rewrite Hdd. apply Forall_fmap, Forall_forall. done.
Qed.

Lemma C6_surrogate_keys_witness :
  ∃ ss, build_star_schema merge_sorter df_two_orders = inr ss
        ∧ customer_key <$> dim_customer ss = [1%Z]
        ∧ product_key <$> dim_product ss = [1%Z; 2%Z]
        ∧ dense_keys (sales_id <$> fact_sales ss)
        ∧ Forall (λ d, date_key d = date_key_of (full_date d)) (dim_date ss).
Proof.
  eexists. split; [vm_compute; reflexivity|].
  destruct (C6_surrogate_keys merge_sorter df_two_orders _ eq_refl)
    as (_ & _ & _ & _ & [Hfact _] & Hdate).
  split_and!; [vm_compute; reflexivity|vm_compute; reflexivity|exact Hfact|exact Hdate].
Defined.

(** C10. The customer and product dicts of the fact build are keyed on the
    bare identifier. The customer (product) dimension has one row per
    distinct (identifier, name, segment) (resp. (identifier, category,
    sub-category)) combination of the record set, in identifier order;
    every fact row references the key of the last dimension row, in that
    order, that bears the record's identifier, whatever the record's other
    attributes are. *)
Theorem C10_bare_identifier_lookup {F} (S : SortAlgo) (df : list (Row F))
    (ss : StarSchema F) :
  build_star_schema S df = inr ss →
  let cust_combo d := (dc_customer_id d, dc_customer_name d, dc_segment d) in
  let prod_combo d := (dp_product_id d, dp_category d, dp_sub_category d) in
  (NoDup (cust_combo <$> dim_customer ss)
   ∧ (∀ c, c ∈ cust_combo <$> dim_customer ss
           ↔ ∃ r, r ∈ df ∧ c = (customer_id r, customer_name r, segment r))
   ∧ StronglySorted (λ a b, String.leb (dc_customer_id a) (dc_customer_id b))
       (dim_customer ss))
  ∧ (NoDup (prod_combo <$> dim_product ss)
     ∧ (∀ c, c ∈ prod_combo <$> dim_product ss
             ↔ ∃ r, r ∈ df ∧ c = (product_id r, category r, sub_category r))
     ∧ StronglySorted (λ a b, String.leb (dp_product_id a) (dp_product_id b))
         (dim_product ss))
  ∧ Forall2 (λ r f,
        (∃ d, last (filter (λ d, dc_customer_id d = customer_id r) (dim_customer ss))
              = Some d
              ∧ fs_customer_key f = Some (customer_key d))
        ∧ (∃ d, last (filter (λ d, dp_product_id d = product_id r) (dim_product ss))
                = Some d
                ∧ fs_product_key f = Some (product_key d)))
      df (fact_sales ss).
Proof.
  intros Hss cust_combo prod_combo.
  destruct (build_star_schema_fact S df ss Hss) as [Hlen Hrows].
  apply build_star_schema_inv in Hss
    as (lo & hi & _ & _ & _ & _ & Hdc & Hdp & _ & _ & _).
  split_and!.
  - rewrite Hdc. unfold cust_combo. rewrite dim_customer_naturals.
    apply natural_rows_NoDup.
  - intros c. rewrite Hdc. unfold cust_combo. rewrite dim_customer_naturals.
    apply elem_of_natural_rows.
  - rewrite Hdc. apply dim_customer_sorted.
  - rewrite Hdp. unfold prod_combo. rewrite dim_product_naturals.
    apply natural_rows_NoDup.
  - intros c. rewrite Hdp. unfold prod_combo. rewrite dim_product_naturals.
    apply elem_of_natural_rows.
  - rewrite Hdp. apply dim_product_sorted.
  - apply Forall2_same_length_lookup_2; [done|]. intros i r f Hr Hf.
    destruct (Hrows i r Hr) as (rk & _ & Hf'). rewrite Hf' in Hf. injection Hf as <-.
    assert (r ∈ df) as Hin by (by eapply list_elem_of_lookup_2).
    cbn. rewrite Hdc, Hdp, !dict_zip_lookup. split.
    + destruct (dict_zip_lookup_Some dc_customer_id customer_key
                  (build_dim_customer S df) (customer_id r)) as (d & _ & _ & Hlk);
        [by apply customer_id_in_dim|].
      rewrite dict_zip_lookup in Hlk.
      destruct (last _) as [d'|]; [|done]. eauto.
    + destruct (dict_zip_lookup_Some dp_product_id product_key
                  (build_dim_product S df) (product_id r)) as (d & _ & _ & Hlk);
        [by apply product_id_in_dim|].
      rewrite dict_zip_lookup in Hlk.
      destruct (last _) as [d'|]; [|done]. eauto.
Qed.

Lemma C10_bare_identifier_lookup_witness :
  ∃ ss, build_star_schema merge_sorter df_two_names = inr ss
        ∧ length (dim_customer ss) = 2%nat
        ∧ Forall2 (λ r f,
              (∃ d, last (filter (λ d, dc_customer_id d = customer_id r) (dim_customer ss))
                    = Some d
                    ∧ fs_customer_key f = Some (customer_key d))
              ∧ (∃ d, last (filter (λ d, dp_product_id d = product_id r) (dim_product ss))
                      = Some d
                      ∧ fs_product_key f = Some (product_key d)))
            df_two_names (fact_sales ss).
Proof.
  eexists. split; [vm_compute; reflexivity|]. split; [vm_compute; reflexivity|].
  apply (C10_bare_identifier_lookup merge_sorter df_two_names).
  vm_compute; reflexivity.
Defined.

(** The consequence on this frame: the customer dimension holds both names
    of CG-12520 under the keys 1 and 2, both fact rows carry the key 2, so
    one of them references a dimension row with the other name. *)
Example C10_mismatch_example :
  ∃ ss, build_star_schema merge_sorter df_two_names = inr ss
        ∧ customer_key <$> dim_customer ss = [1%Z; 2%Z]
        ∧ dc_customer_id <$> dim_customer ss = ["CG-12520"; "CG-12520"]
        ∧ NoDup (dc_customer_name <$> dim_customer ss)
        ∧ fs_customer_key <$> fact_sales ss = [Some 2%Z; Some 2%Z]
        ∧ customer_name <$> df_two_names = ["Claire Gute"; "C. Gute"].
Proof.
  eexists. split_and!; try (vm_compute; reflexivity).
  vm_compute. repeat constructor; set_solver.
Qed.

(** ** groupby *)

(** Two filters that agree on the rows of a frame keep the same rows. *)
Lemma filter_ext_in {A} (P1 P2 : A → Prop)
    `{!∀ x, Decision (P1 x), !∀ x, Decision (P2 x)} (l : list A) :
  (∀ x, x ∈ l → P1 x ↔ P2 x) → filter P1 l = filter P2 l.
Proof.
  induction l as [|x l IH]; intros Hext; [done|].
  rewrite !filter_cons, IH by (intros y Hy; apply Hext; by right).
  destruct (decide (P1 x)) as [H1|H1], (decide (P2 x)) as [H2|H2]; try done.
  - destruct H2. apply Hext; [by left|done].
  - destruct H1. apply Hext; [by left|done].
Qed.

Section groupby_facts.
Context {A K : Type} `{EqDecision K} (S : SortAlgo) (le : K → K → bool).
Implicit Types (key : A → K) (l : list A).

Lemma groupby_keys key l :
  (groupby S le key l).*1 = sort_by S le (drop_duplicates id (key <$> l)).
Proof.
  unfold groupby. rewrite <-list_fmap_compose. apply list_fmap_id.
Qed.

Lemma groupby_keys_NoDup key l : NoDup (groupby S le key l).*1.
Proof. rewrite groupby_keys. apply NoDup_sort_by, drop_duplicates_id_NoDup. Qed.

Lemma elem_of_groupby_keys key l k : k ∈ (groupby S le key l).*1 ↔ k ∈ key <$> l.
Proof. by rewrite groupby_keys, elem_of_sort_by, elem_of_drop_duplicates_id. Qed.

Lemma groupby_keys_sorted key l :
  TotalPreorderB le → StronglySorted (λ x y, le x y) (groupby S le key l).*1.
Proof. intros. rewrite groupby_keys. by apply (sort_by_sorted S). Qed.

Lemma elem_of_groupby key l k g :
  (k, g) ∈ groupby S le key l ↔ k ∈ key <$> l ∧ g = filter (λ x, key x = k) l.
Proof.
  unfold groupby. rewrite list_elem_of_fmap. split.
  - intros (k' & [= -> ->] & Hk).
    by rewrite elem_of_sort_by, elem_of_drop_duplicates_id in Hk.
  - intros [Hk ->]. exists k. split; [done|].
    by rewrite elem_of_sort_by, elem_of_drop_duplicates_id.
Qed.

(** The rows of a group are rows of the frame, and there is at least
    one. *)
Lemma groupby_group_nonempty key l k :
  k ∈ key <$> l → filter (λ x, key x = k) l ≠ [].
Proof.
  intros (x & -> & Hx)%list_elem_of_fmap Hnil.
  assert (x ∈ filter (λ y, key y = key x) l) as Hin
    by (by apply list_elem_of_filter).
  rewrite Hnil in Hin. by apply elem_of_nil in Hin.
Qed.
End groupby_facts.

Section groupby_dropna_facts.
Context {A K : Type} `{EqDecision K} (S : SortAlgo) (le : K → K → bool).
Implicit Types (key : A → option K) (l : list A).

Lemma elem_of_present_keys key l k : k ∈ omap key l ↔ Some k ∈ key <$> l.
Proof.
  rewrite list_elem_of_omap, list_elem_of_fmap. naive_solver.
Qed.

Lemma groupby_dropna_keys key l :
  (groupby_dropna S le key l).*1 = sort_by S le (drop_duplicates id (omap key l)).
Proof.
  unfold groupby_dropna. rewrite <-list_fmap_compose. apply list_fmap_id.
Qed.

Lemma groupby_dropna_keys_NoDup key l : NoDup (groupby_dropna S le key l).*1.
Proof.
  rewrite groupby_dropna_keys. apply NoDup_sort_by, drop_duplicates_id_NoDup.
Qed.

Lemma elem_of_groupby_dropna_keys key l k :
  k ∈ (groupby_dropna S le key l).*1 ↔ Some k ∈ key <$> l.
Proof.
  rewrite groupby_dropna_keys, elem_of_sort_by, elem_of_drop_duplicates_id.
  apply elem_of_present_keys.
Qed.

Lemma elem_of_groupby_dropna key l k g :
  (k, g) ∈ groupby_dropna S le key l ↔
  Some k ∈ key <$> l ∧ g = filter (λ x, key x = Some k) l.
Proof.
  unfold groupby_dropna. rewrite list_elem_of_fmap. split.
  - intros (k' & [= -> ->] & Hk).
    rewrite elem_of_sort_by, elem_of_drop_duplicates_id in Hk.
    by apply elem_of_present_keys in Hk.
  - intros [Hk ->]. exists k. split; [done|].
    rewrite elem_of_sort_by, elem_of_drop_duplicates_id.
    by apply elem_of_present_keys.
Qed.
End groupby_dropna_facts.

(** ** C5: product name resolution *)

Section product_names.
Context {F : Type} (S : SortAlgo).
Implicit Types df : list (Row F).

Lemma elem_of_name_counts df p n c :
  (p, n, c) ∈ name_counts S df ↔
  (∃ r, r ∈ df ∧ product_id r = p ∧ product_name r = n) ∧ c = name_count df p n.
Proof.
  unfold name_counts. rewrite elem_of_sort_by, list_elem_of_fmap.
  assert (∀ k : string * string,
            length (filter (λ r : Row F, (product_id r, product_name r) = k) df)
            = name_count df k.1 k.2) as Hcount.
  { intros [p' n']. unfold name_count. f_equal.
    apply list_filter_iff. intros r. cbn. naive_solver. }
  split.
  - intros ([k g] & [= <- ->] & Hg). apply elem_of_groupby in Hg as [Hk ->].
    split; [|apply (Hcount (p, n))].
    apply list_elem_of_fmap in Hk as (r & [= -> ->] & Hr). eauto.
  - intros [(r & Hr & <- & <-) ->].
    eexists (_, _). split; [|apply elem_of_groupby; split; [|done]].
    + cbn. f_equal. symmetry. apply (Hcount (_, _)).
    + apply list_elem_of_fmap. eauto.
Qed.

Lemma name_counts_sorted df :
  StronglySorted (λ x y, name_counts_le x y) (name_counts S df).
Proof. apply (sort_by_sorted S), name_counts_le_preorder. Qed.

(** Between two rows of [name_counts] for one product, the row sorted
    first has the higher count, or the same count and the lesser name. *)
Lemma name_counts_le_same_product p n c n' c' :
  name_counts_le (p, n, c) (p, n', c') →
  (c' < c)%nat ∨ (c' = c ∧ String.leb n n').
Proof.
  unfold name_counts_le, on, lex, desc. cbn.
  rewrite decide_True by done.
  destruct (decide (c = c')) as [->|Hne].
  - auto.
  - intros Hle%Is_true_true%Nat.leb_le. left. lia.
Qed.

(** [mode_name] holds, for a product of the frame, the name that comes
    first in [name_counts]. *)
Lemma mode_name_lookup df r :
  r ∈ df →
  ∃ n c l1 l2,
    mode_name S df !! product_id r = Some n
    ∧ name_counts S df = l1 ++ (product_id r, n, c) :: l2
    ∧ product_id r ∉ (λ x, x.1.1) <$> l1.
Proof.
  intros Hr.
  assert (product_id r ∈ (λ x : string * string * nat, x.1.1)
            <$> drop_duplicates (λ x, x.1.1) (name_counts S df)) as Hin.
  { apply drop_duplicates_keys, list_elem_of_fmap.
    exists (product_id r, product_name r, name_count df (product_id r) (product_name r)).
    split; [done|]. apply elem_of_name_counts. eauto. }
  apply list_elem_of_fmap in Hin as ([[p n] c] & Hp & Hx). cbn in Hp. subst p.
  pose proof Hx as (l1 & l2 & Hsplit & Hl1)%drop_duplicates_first.
  exists n, c, l1, l2. split_and!; [|done|done].
  unfold mode_name. apply elem_of_list_to_map_1.
  - rewrite <-list_fmap_compose. apply (drop_duplicates_NoDup (λ x, x.1.1)).
  - apply list_elem_of_fmap. by exists (product_id r, n, c).
Qed.

Lemma mode_name_spec df r :
  r ∈ df →
  ∃ n, mode_name S df !! product_id r = Some n
       ∧ (0 < name_count df (product_id r) n)%nat
       ∧ ∀ n', (name_count df (product_id r) n' < name_count df (product_id r) n)%nat
               ∨ (name_count df (product_id r) n' = name_count df (product_id r) n
                  ∧ String.leb n n').
Proof.
  intros Hr.
  destruct (mode_name_lookup df r Hr) as (n & c & l1 & l2 & Hlk & Hsplit & Hl1).
  assert ((product_id r, n, c) ∈ name_counts S df) as Hx
    by (rewrite Hsplit; set_solver).
  apply elem_of_name_counts in Hx as [(r1 & Hr1 & Hp1 & Hn1) ->].
  assert (0 < name_count df (product_id r) n)%nat as Hpos.
  { unfold name_count.
    assert (r1 ∈ filter (λ r0, product_id r0 = product_id r ∧ product_name r0 = n) df)
      as Hin by (by apply list_elem_of_filter).
    destruct (filter _ df); [by apply elem_of_nil in Hin|cbn; lia]. }
  exists n. split_and!; [done|done|].
  intros n'.
  destruct (decide (n' = n)) as [->|Hne].
  { right. split; [done|].
    destruct (@leb_total _ String.leb (@leb_preorder _ _ string_leb_order) n n); done. }
  destruct (decide (name_count df (product_id r) n' = 0)%nat) as [Hz|Hnz];
    [left; lia|].
  assert ((product_id r, n', name_count df (product_id r) n') ∈ name_counts S df) as Hy.
  { apply elem_of_name_counts. split; [|done].
    unfold name_count in Hnz.
    destruct (filter _ df) as [|r2 ?] eqn:Hf; [done|].
    assert (r2 ∈ filter (λ r0, product_id r0 = product_id r ∧ product_name r0 = n') df)
      as Hin by (rewrite Hf; apply list_elem_of_here).
    apply list_elem_of_filter in Hin as [[? ?] ?]. eauto. }
  pose proof (name_counts_sorted df) as Hsorted.
  rewrite Hsplit in Hsorted, Hy.
  apply StronglySorted_app_1_r, StronglySorted_cons in Hsorted as [Hhd _].
  apply elem_of_app in Hy as [Hy|Hy].
  { exfalso. apply Hl1, list_elem_of_fmap. eexists. split; [|exact Hy]. done. }
  apply elem_of_cons in Hy as [[=]|Hy]; [done|].
  rewrite Forall_forall in Hhd. apply Hhd in Hy.
  by apply name_counts_le_same_product in Hy.
Qed.
End product_names.

(** C5. The product name attached to a product-dimension row is a name
    observed with that row's product identifier, and no other name has a
    higher occurrence count with that identifier, or the same count and a
    lexicographically smaller spelling. In particular "Widget" (3 times)
    wins over "widget" (once) for P1, whichever sorting routine is used. *)
Theorem C5_product_name_resolution {F} (S : SortAlgo) (df : list (Row F))
    (d : DimProduct) :
  d ∈ build_dim_product S df →
  (∃ n, dp_product_name d = Some n
        ∧ (0 < name_count df (dp_product_id d) n)%nat
        ∧ ∀ n', (name_count df (dp_product_id d) n' < name_count df (dp_product_id d) n)%nat
                ∨ (name_count df (dp_product_id d) n' = name_count df (dp_product_id d) n
                   ∧ String.leb n n'))
  ∧ Forall (λ d', dp_product_name d' = Some "Widget") (build_dim_product S df_widget).
Proof.
  intros Hd. split.
  - unfold build_dim_product in Hd.
    apply list_elem_of_fmap in Hd as ([k [[p c] sc]] & -> & Hkx). cbn.
    assert ((p, c, sc) ∈ product_rows S df) as Hrow.
    { rewrite <-(with_keys_snd (product_rows S df)).
      apply list_elem_of_fmap. by exists (k, (p, c, sc)). }
    apply elem_of_natural_rows in Hrow as (r & Hr & [= -> -> ->]).
    by apply mode_name_spec.
  - apply Forall_forall. intros d' Hd'.
    unfold build_dim_product in Hd'.
    apply list_elem_of_fmap in Hd' as ([k [[p c] sc]] & -> & Hkx). cbn.
    assert ((p, c, sc) ∈ product_rows S df_widget) as Hrow.
    { rewrite <-(with_keys_snd (product_rows S df_widget)).
      apply list_elem_of_fmap. by exists (k, (p, c, sc)). }
    apply elem_of_natural_rows in Hrow as (r & Hr & [= -> -> ->]).
    destruct (mode_name_spec S df_widget r Hr) as (n & -> & Hpos & Hbest).
    assert (product_id r = "P1") as Hp.
    { unfold df_widget in Hr. set_solver. }
    rewrite Hp in Hpos, Hbest. f_equal.
    assert (name_count df_widget "P1" "Widget" = 3%nat) as HW by (vm_compute; reflexivity).
    assert (name_count df_widget "P1" "widget" = 1%nat) as Hw by (vm_compute; reflexivity).
    assert (n ≠ "Widget" → n ≠ "widget" → name_count df_widget "P1" n = 0%nat) as H0.
    { intros ??. unfold name_count, df_widget. cbn.
      rewrite !decide_False by (cbn; naive_solver). done. }
    destruct (decide (n = "Widget")) as [->|Hne]; [done|]. exfalso.
    destruct (decide (n = "widget")) as [->|Hne1].
    + destruct (Hbest "Widget") as [Hlt|[Heq _]]; lia.
    + rewrite H0 in Hpos by done. lia.
Qed.

Lemma C5_product_name_resolution_witness :
  ∃ d, d ∈ build_dim_product merge_sorter df_widget
       ∧ dp_product_name d = Some "Widget"
       ∧ Forall (λ d', dp_product_name d' = Some "Widget")
           (build_dim_product merge_sorter df_widget).
Proof.
  exists {| product_key := 1; dp_product_id := "P1"; dp_category := "Furniture";
            dp_sub_category := "Chairs"; dp_product_name := Some "Widget" |}.
  assert ({| product_key := 1; dp_product_id := "P1"; dp_category := "Furniture";
             dp_sub_category := "Chairs"; dp_product_name := Some "Widget" |}
          ∈ build_dim_product merge_sorter df_widget) as Hin.
  { vm_compute. apply list_elem_of_here. }
  split; [exact Hin|]. split; [reflexivity|].
  apply (C5_product_name_resolution merge_sorter df_widget _ Hin).
Defined.

(** ** C3: deduplication *)

Section dedup.
Context {F : Type} `{EqDecision F}.
Variable to_datetime : list (option string) → nat → option Timestamp.
Implicit Types (raw : list (RawRow F)) (r : Row F).

(** Two rows have the same [cols_no_rowid] exactly when they agree on
    every column but "Row ID". *)
Lemma cols_no_rowid_spec r1 r2 :
  cols_no_rowid r1 = cols_no_rowid r2 ↔
  order_id r1 = order_id r2 ∧ order_date r1 = order_date r2
  ∧ ship_date r1 = ship_date r2 ∧ ship_mode r1 = ship_mode r2
  ∧ customer_id r1 = customer_id r2 ∧ customer_name r1 = customer_name r2
  ∧ segment r1 = segment r2 ∧ country r1 = country r2 ∧ city r1 = city r2
  ∧ state r1 = state r2 ∧ postal_code r1 = postal_code r2
  ∧ region r1 = region r2 ∧ product_id r1 = product_id r2
  ∧ category r1 = category r2 ∧ sub_category r1 = sub_category r2
  ∧ product_name r1 = product_name r2 ∧ sales r1 = sales r2.
Proof.
  unfold cols_no_rowid. split.
  - intros [= ]. split_and!; done.
  - intros (-> & -> & -> & -> & -> & -> & -> & -> & -> & -> & -> & -> & ->
            & -> & -> & -> & ->). done.
Qed.

Lemma length_parsed raw : length (parsed to_datetime raw) = length raw.
Proof. unfold parsed. apply length_imap. Qed.

Lemma parsed_lookup raw i x :
  raw !! i = Some x →
  parsed to_datetime raw !! i
  = Some (parse_row to_datetime (raw_order_date <$> raw) (raw_ship_date <$> raw) i x).
Proof. intros Hx. unfold parsed. by rewrite list_lookup_imap, Hx. Qed.

(** The mask of [duplicated] is False exactly on first occurrences. *)
Lemma duplicated_lookup_false {K} `{EqDecision K} (keys : list K) i k :
  keys !! i = Some k →
  duplicated keys !! i = Some false ↔ ∀ j, j < i → keys !! j ≠ Some k.
Proof.
  intros Hk. destruct (duplicated_from_lookup [] keys i k Hk) as (b & Hb & Hiff).
  unfold duplicated. rewrite Hb. split.
  - intros [= ->] j Hj Hkj.
    assert (false = true); [|done]. apply Hiff. right.
    apply list_elem_of_lookup. exists j. by rewrite lookup_take_lt.
  - intros Hfirst. destruct b; [|done]. exfalso.
    destruct Hiff as [Hiff _].
    destruct (Hiff eq_refl) as [Hin|Hin]; [by apply elem_of_nil in Hin|].
    apply list_elem_of_lookup in Hin as (j & Hj).
    apply lookup_take_Some in Hj as [Hj Hlt]. by apply (Hfirst j).
Qed.
(** The rows of the parsed frame are the normalized forms of the input
    lines, position by position. *)
Lemma parsed_normal_form raw i r :
  parsed to_datetime raw !! i = Some r ↔
  ∃ x, raw !! i = Some x ∧ normal_form to_datetime raw i x r.
Proof.
  split.
  - intros Hr. destruct (raw !! i) as [x|] eqn:Hx.
    + rewrite (parsed_lookup _ _ _ Hx) in Hr. injection Hr as <-.
      exists x. split; [done|]. unfold normal_form. cbn. split_and!; done.
    + apply lookup_lt_Some in Hr. rewrite length_parsed in Hr.
      apply lookup_ge_None in Hx. lia.
  - intros (x & Hx & Hn). rewrite (parsed_lookup _ _ _ Hx). f_equal.
    destruct r. unfold normal_form in Hn. cbn in Hn.
    destruct Hn as (-> & -> & -> & -> & -> & -> & -> & -> & -> & -> & -> & ->
                    & -> & -> & -> & -> & -> & ->).
    reflexivity.
Qed.

Lemma logical_duplicates_cols r1 r2 :
  logical_duplicates r1 r2 ↔ cols_no_rowid r1 = cols_no_rowid r2.
Proof. symmetry. apply cols_no_rowid_spec. Qed.

(** What the normalizer keeps, by position in the parsed frame: the rows at
    which the mask of [duplicated] is False, that is the first
    occurrences. *)
Lemma load_and_prepare_raw_positions raw :
  let df := parsed to_datetime raw in
  let out := load_and_prepare_raw to_datetime raw in
  ∃ kept : list nat,
    StronglySorted lt kept
    ∧ Forall2 (λ i r, df !! i = Some r) kept out
    ∧ ∀ i, i ∈ kept ↔
        ∃ r, df !! i = Some r
             ∧ ∀ j r', j < i → df !! j = Some r' →
                 cols_no_rowid r' ≠ cols_no_rowid r.
Proof.
  intros df out.
  destruct (loc_not_positions (duplicated (cols_no_rowid <$> df)) df)
    as (kept & Hsorted & Hrows & Hkept).
  { unfold duplicated. by rewrite length_duplicated_from, length_fmap. }
  exists kept. split_and!; [done|done|].
  intros i. rewrite Hkept. split.
  + intros Hmask.
    assert (i < length df) as Hlt.
    { apply lookup_lt_Some in Hmask. unfold duplicated in Hmask.
      by rewrite length_duplicated_from, length_fmap in Hmask. }
    destruct (lookup_lt_is_Some_2 df i Hlt) as [r Hr].
    exists r. split; [done|]. intros j r' Hj Hr' Heq.
    assert ((cols_no_rowid <$> df) !! i = Some (cols_no_rowid r)) as Hk
      by (by rewrite list_lookup_fmap, Hr).
    pose proof (proj1 (duplicated_lookup_false _ _ _ Hk) Hmask) as Hfirst.
    apply (Hfirst j Hj). rewrite list_lookup_fmap, Hr'. cbn. by rewrite Heq.
  + intros (r & Hr & Hfirst).
    assert ((cols_no_rowid <$> df) !! i = Some (cols_no_rowid r)) as Hk
      by (by rewrite list_lookup_fmap, Hr).
    apply (duplicated_lookup_false _ _ _ Hk). intros j Hj.
    rewrite list_lookup_fmap. destruct (df !! j) as [r'|] eqn:Hr'; [|done].
    cbn. intros Heq. apply (Hfirst j r' Hj Hr'). congruence.
Qed.
End dedup.

(** C3. For every raw input, no two rows of the normalized output are
    logical duplicates (equal on every attribute except the row
    identifier). The output is made of the normalized forms of the input
    lines at the kept positions, in input order, each with all its
    attributes: the dates parsed, the postal code cleaned, the rest as in
    the line. A line is kept if and only if no earlier line is a logical
    duplicate of it once both are normalized; so the first occurrence is
    kept, and every line, kept or dropped, is a logical duplicate of a kept
    line that is not after it. Duplicates are judged on the normalized
    forms, so rows that become equal only by normalization are
    deduplicated too. *)
Theorem C3_deduplication {F} `{EqDecision F}
    (to_datetime : list (option string) → nat → option Timestamp)
    (raw : list (RawRow F)) :
  let out := load_and_prepare_raw to_datetime raw in
  (∀ i j r1 r2, out !! i = Some r1 → out !! j = Some r2 → i ≠ j →
     ¬ logical_duplicates r1 r2)
  ∧ ∃ kept : list nat,
      StronglySorted lt kept
      ∧ Forall2 (λ i r, ∃ x, raw !! i = Some x ∧ normal_form to_datetime raw i x r)
          kept out
      ∧ (∀ i, i ∈ kept ↔
           ∃ x ri, raw !! i = Some x ∧ normal_form to_datetime raw i x ri
             ∧ ∀ j y rj, j < i → raw !! j = Some y →
                 normal_form to_datetime raw j y rj →
                 ¬ logical_duplicates rj ri)
      ∧ (∀ j y rj, raw !! j = Some y → normal_form to_datetime raw j y rj →
           ∃ i x ri, i ∈ kept ∧ (i ≤ j)%nat ∧ raw !! i = Some x
             ∧ normal_form to_datetime raw i x ri ∧ ri ∈ out
             ∧ logical_duplicates ri rj).
Proof.
  intros out. set (df := parsed to_datetime raw).
  destruct (load_and_prepare_raw_positions to_datetime raw)
    as (kept & Hsorted & Hrows & Hkept).
  fold df out in Hrows, Hkept.
  split.
  { intros i j r1 r2 Hi Hj Hij Hdup. apply Hij.
    apply (NoDup_lookup (cols_no_rowid <$> out) i j (cols_no_rowid r1)).
    - apply loc_not_dup_NoDup.
    - by rewrite list_lookup_fmap, Hi.
    - rewrite list_lookup_fmap, Hj. cbn. f_equal. symmetry.
      by apply logical_duplicates_cols. }
  exists kept. split_and!.
  - done.
  - eapply Forall2_impl; [exact Hrows|]. intros i r Hr.
    by apply (parsed_normal_form to_datetime).
  - intros i. rewrite Hkept. split.
    + intros (r & Hr & Hfirst).
      pose proof (proj1 (parsed_normal_form to_datetime raw i r) Hr)
        as (x & Hx & Hn).
      exists x, r. split_and!; [done..|].
      intros j y rj Hj Hy Hnj Hdup. apply (Hfirst j rj Hj).
      * apply (parsed_normal_form to_datetime). eauto.
      * by apply logical_duplicates_cols.
    + intros (x & ri & Hx & Hn & Hfirst). exists ri. split.
      * apply (parsed_normal_form to_datetime). eauto.
      * intros j rj Hj Hrj Heq.
        pose proof (proj1 (parsed_normal_form to_datetime raw j rj) Hrj)
          as (y & Hy & Hnj).
        apply (Hfirst j y rj Hj Hy Hnj). by apply logical_duplicates_cols.
  - intros j y rj Hy Hnj.
    assert (df !! j = Some rj) as Hrj
      by (apply (parsed_normal_form to_datetime); eauto).
    assert (cols_no_rowid rj ∈ cols_no_rowid <$> out) as Hin.
    { apply drop_duplicates_keys, list_elem_of_fmap.
      exists rj. split; [done|]. by eapply list_elem_of_lookup_2. }
    apply list_elem_of_fmap in Hin as (ri & Heq & Hri).
    pose proof Hri as Hri'.
    apply list_elem_of_lookup in Hri' as (p & Hp).
    destruct (Forall2_lookup_r _ _ _ _ _ Hrows Hp) as (i & Hi & Hdf).
    assert (i ∈ kept) as Hik by (by eapply list_elem_of_lookup_2).
    pose proof (proj1 (parsed_normal_form to_datetime raw i ri) Hdf)
      as (x & Hx & Hn).
    exists i, x, ri. split_and!; [done| |done|done|done|].
    + destruct (decide (i ≤ j)%nat) as [Hle|Hgt]; [done|]. exfalso.
      apply Hkept in Hik as (r & Hr & Hfirst).
      assert (r = ri) as -> by congruence.
      apply (Hfirst j rj); [lia|done|done].
    + apply logical_duplicates_cols. congruence.
Qed.

(** They are distinct before normalization and one row after it: the
    first. *)
Example C3_postal_example :
  let raw := [example_raw 1 (Some "90210.0"); example_raw 2 (Some "90210")] in
  raw_postal_code <$> raw = [Some "90210.0"; Some "90210"]
  ∧ postal_code <$> parsed to_datetime_strict raw = ["90210"; "90210"]
  ∧ order_date <$> parsed to_datetime_strict raw = [Some 18632%Z; Some 18632%Z]
  ∧ row_id <$> load_and_prepare_raw to_datetime_strict raw = [1%Z].
Proof. vm_compute. done. Qed.

(** ** Month labels *)

Section label_facts.
Local Open Scope Z_scope.

Lemma digit_compare (a b : Z) :
  Ascii.compare (digit a) (digit b) = (a mod 10 ?= b mod 10).
Proof.
  unfold digit.
  pose proof (Z.mod_pos_bound a 10 ltac:(lia)) as Ha.
  pose proof (Z.mod_pos_bound b 10 ltac:(lia)) as Hb.
  set (x := a mod 10) in *. set (y := b mod 10) in *. clearbody x y.
  assert (x = 0 ∨ x = 1 ∨ x = 2 ∨ x = 3 ∨ x = 4 ∨ x = 5 ∨ x = 6 ∨ x = 7
          ∨ x = 8 ∨ x = 9) as Hx by lia.
  assert (y = 0 ∨ y = 1 ∨ y = 2 ∨ y = 3 ∨ y = 4 ∨ y = 5 ∨ y = 6 ∨ y = 7
          ∨ y = 8 ∨ y = 9) as Hy by lia.
  clear Ha Hb.
  decompose [or] Hx; decompose [or] Hy; subst; reflexivity.
Qed.

Lemma string_compare_cons c1 c2 s1 s2 :
  String.compare (String c1 s1) (String c2 s2)
  = match Ascii.compare c1 c2 with
    | Eq => String.compare s1 s2
    | o => o
    end.
Proof. reflexivity. Qed.

Lemma digits4 (y : Z) :
  0 ≤ y ≤ 9999 →
  y = 1000 * ((y / 1000) mod 10) + 100 * ((y / 100) mod 10)
      + 10 * ((y / 10) mod 10) + y mod 10.
Proof. intros Hy. Z.div_mod_to_equations. lia. Qed.

Lemma digits2 (m : Z) : 0 ≤ m ≤ 99 → m = 10 * ((m / 10) mod 10) + m mod 10.
Proof. intros Hm. Z.div_mod_to_equations. lia. Qed.

(** On four-digit years, the text order of "YYYY-MM" labels is the order
    of (year, month). *)
Lemma year_month_compare (y1 m1 y2 m2 : Z) :
  0 ≤ y1 ≤ 9999 → 0 ≤ y2 ≤ 9999 → 0 ≤ m1 ≤ 99 → 0 ≤ m2 ≤ 99 →
  String.compare (pad4 y1 +:+ "-" +:+ pad2 m1) (pad4 y2 +:+ "-" +:+ pad2 m2)
  = (y1 * 100 + m1 ?= y2 * 100 + m2).
Proof.
  intros Hy1 Hy2 Hm1 Hm2.
  pose proof (digits4 y1 Hy1) as E1. pose proof (digits4 y2 Hy2) as E2.
  pose proof (digits2 m1 Hm1) as E3. pose proof (digits2 m2 Hm2) as E4.
  unfold pad4, pad2. cbv beta iota fix delta [String.append].
  rewrite !string_compare_cons, !digit_compare.
  change (Ascii.compare "-" "-") with Eq. cbn [String.compare].
  set (a3 := (y1 / 1000) mod 10) in *. set (a2 := (y1 / 100) mod 10) in *.
  set (a1 := (y1 / 10) mod 10) in *. set (a0 := y1 mod 10) in *.
  set (b3 := (y2 / 1000) mod 10) in *. set (b2 := (y2 / 100) mod 10) in *.
  set (b1 := (y2 / 10) mod 10) in *. set (b0 := y2 mod 10) in *.
  set (c1 := (m1 / 10) mod 10) in *. set (c0 := m1 mod 10) in *.
  set (d1 := (m2 / 10) mod 10) in *. set (d0 := m2 mod 10) in *.
  assert (0 ≤ a3 < 10 ∧ 0 ≤ a2 < 10 ∧ 0 ≤ a1 < 10 ∧ 0 ≤ a0 < 10
          ∧ 0 ≤ b3 < 10 ∧ 0 ≤ b2 < 10 ∧ 0 ≤ b1 < 10 ∧ 0 ≤ b0 < 10
          ∧ 0 ≤ c1 < 10 ∧ 0 ≤ c0 < 10 ∧ 0 ≤ d1 < 10 ∧ 0 ≤ d0 < 10) as Hd.
  { unfold a3, a2, a1, a0, b3, b2, b1, b0, c1, c0, d1, d0.
    repeat split; apply Z.mod_pos_bound; lia. }
  clearbody a3 a2 a1 a0 b3 b2 b1 b0 c1 c0 d1 d0.
  symmetry.
  destruct (Z.compare_spec a3 b3);
    [|apply Z.compare_lt_iff; lia|apply Z.compare_gt_iff; lia].
  destruct (Z.compare_spec a2 b2);
    [|apply Z.compare_lt_iff; lia|apply Z.compare_gt_iff; lia].
  destruct (Z.compare_spec a1 b1);
    [|apply Z.compare_lt_iff; lia|apply Z.compare_gt_iff; lia].
  destruct (Z.compare_spec a0 b0);
    [|apply Z.compare_lt_iff; lia|apply Z.compare_gt_iff; lia].
  destruct (Z.compare_spec c1 d1);
    [|apply Z.compare_lt_iff; lia|apply Z.compare_gt_iff; lia].
  destruct (Z.compare_spec c0 d0);
    [apply Z.compare_eq_iff; lia|apply Z.compare_lt_iff; lia|apply Z.compare_gt_iff; lia].
Qed.

Lemma month_label_leb (t1 t2 : Timestamp) :
  four_digit_year t1 → four_digit_year t2 →
  String.leb (month_label t1) (month_label t2) ↔ month_index t1 ≤ month_index t2.
Proof.
  intros H1 H2. unfold String.leb, month_label, month_index.
  pose proof (month_of_range t1). pose proof (month_of_range t2).
  rewrite year_month_compare by (unfold four_digit_year in *; lia).
  destruct (Z.compare_spec (year_of t1 * 100 + month_of t1)
              (year_of t2 * 100 + month_of t2)) as [E|E|E].
  - split; [intros _; lia|intros _; exact I].
  - split; [intros _; lia|intros _; exact I].
  - split; [intros []|lia].
Qed.

Lemma month_label_inj (t1 t2 : Timestamp) :
  four_digit_year t1 → four_digit_year t2 →
  month_label t1 = month_label t2 ↔ month_index t1 = month_index t2.
Proof.
  intros H1 H2. split.
  - intros Heq.
    assert (String.leb (month_label t2) (month_label t2)) as Hrefl.
    { by destruct (@leb_total _ String.leb (@leb_preorder _ _ string_leb_order)
                     (month_label t2) (month_label t2)). }
    pose proof (proj1 (month_label_leb t1 t2 H1 H2)) as Hle1.
    pose proof (proj1 (month_label_leb t2 t1 H2 H1)) as Hle2.
    rewrite Heq in Hle1, Hle2. specialize (Hle1 Hrefl). specialize (Hle2 Hrefl).
    lia.
  - unfold month_index, month_label. intros Heq.
    pose proof (month_of_range t1). pose proof (month_of_range t2).
    assert (year_of t1 = year_of t2) as -> by lia.
    assert (month_of t1 = month_of t2) as -> by lia. reflexivity.
Qed.

(** "NaT" is not the label of a month, and sorts after every label. *)
Lemma month_label_not_NaT (t : Timestamp) : month_label t ≠ "NaT"%string.
Proof.
  intros Heq. apply (f_equal String.length) in Heq.
  unfold month_label, pad4, pad2 in Heq.
  cbv beta iota fix delta [String.append String.length] in Heq.
  discriminate Heq.
Qed.

Lemma month_label_before_NaT (t : Timestamp) :
  String.leb (month_label t) "NaT" ∧ ¬ String.leb "NaT" (month_label t).
Proof.
  unfold month_label, pad4.
  generalize (pad2 (month_of t)) as mm. generalize (pad2 (year_of t)) as yy.
  generalize (year_of t) as y. intros y yy mm.
  cbv beta iota fix delta [String.append].
  assert (Ascii.compare (digit (y / 1000)) "N" = Lt) as Hcmp.
  { unfold digit.
    pose proof (Z.mod_pos_bound (y / 1000) 10 ltac:(lia)) as Ha.
    set (x := (y / 1000) mod 10) in *. clearbody x.
    assert (x = 0 ∨ x = 1 ∨ x = 2 ∨ x = 3 ∨ x = 4 ∨ x = 5 ∨ x = 6 ∨ x = 7
            ∨ x = 8 ∨ x = 9) as Hx by lia.
    decompose [or] Hx; subst; reflexivity. }
  unfold String.leb. split.
  - rewrite string_compare_cons, Hcmp. exact I.
  - rewrite String.compare_antisym, string_compare_cons, Hcmp. intros [].
Qed.
End label_facts.

(** ** C8: the summary *)

Lemma Z_ge_preorder : TotalPreorderB (λ x y : Z, (y <=? x)%Z).
Proof.
  split.
  - intros x y. destruct (Z.leb_spec y x), (Z.leb_spec x y); cbn; auto; lia.
  - intros x y z H1%Is_true_true%Z.leb_le H2%Is_true_true%Z.leb_le.
    apply Is_true_true, Z.leb_le. lia.
Qed.

(** Whole amounts: sums are exact and rounding to two places changes
    nothing. *)
#[local] Instance money_Z : Money Z :=
  {| series_sum := foldr Z.add 0%Z;
     group_sum := foldr Z.add 0%Z;
     sum_ge := λ x y, (y <=? x)%Z;
     round2 := id;
     sum_ge_preorder := Z_ge_preorder |}.

Section summary_facts.
Context {F : Type} `{!Money F} (S : SortAlgo).
Implicit Types (df : list (Row F)) (key : Row F → string)
  (totals : list (string * F)).

Lemma group_totals_keys key df :
  (group_totals S key df).*1 = (groupby S String.leb key df).*1.
Proof. unfold group_totals. rewrite <-!list_fmap_compose. done. Qed.

Lemma elem_of_group_totals key df k v :
  (k, v) ∈ group_totals S key df ↔
  k ∈ key <$> df ∧ v = group_sum (sales <$> filter (λ r, key r = k) df).
Proof.
  unfold group_totals. rewrite list_elem_of_fmap. split.
  - intros ([k' g] & [= -> ->] & Hg). apply elem_of_groupby in Hg as [? ->]. done.
  - intros [Hk ->]. eexists (k, _). split; [done|]. by apply elem_of_groupby.
Qed.

(** A sorted copy of the group totals keeps keys and values. *)
Lemma sorted_totals_spec (le : string * F → string * F → bool) key df :
  let totals := sort_by S le (group_totals S key df) in
  NoDup totals.*1
  ∧ (∀ k, k ∈ totals.*1 ↔ k ∈ key <$> df)
  ∧ (∀ k v, (k, v) ∈ totals →
       v = group_sum (sales <$> filter (λ r, key r = k) df)).
Proof.
  intros totals.
  assert (totals.*1 ≡ₚ (groupby S String.leb key df).*1) as Hperm.
  { unfold totals. rewrite (sort_by_perm S). by rewrite group_totals_keys. }
  split_and!.
  - rewrite Hperm. apply groupby_keys_NoDup.
  - intros k. rewrite Hperm. apply elem_of_groupby_keys.
  - intros k v Hkv. unfold totals in Hkv. rewrite elem_of_sort_by in Hkv.
    by apply elem_of_group_totals in Hkv as [_ ->].
Qed.

Lemma sort_desc_ranked key df :
  ranked_totals key df (sort_desc S (group_totals S key df)).
Proof.
  destruct (sorted_totals_spec (on snd sum_ge) key df) as (? & ? & ?).
  split_and!; [done..|].
  apply (sort_by_sorted S), on_preorder, sum_ge_preorder.
Qed.

Lemma rounded_keys totals : (rounded totals).*1 = totals.*1.
Proof. unfold rounded. rewrite <-!list_fmap_compose. done. Qed.

Lemma month_totals_keys v df :
  (month_totals S v df).*1
  = (groupby_dropna S String.leb (λ r, period_str v (order_date r)) df).*1.
Proof. unfold month_totals. rewrite <-!list_fmap_compose. done. Qed.

Lemma elem_of_month_totals v df k x :
  (k, x) ∈ month_totals S v df ↔
  Some k ∈ (λ r, period_str v (order_date r)) <$> df
  ∧ x = group_sum
          (sales <$> filter (λ r, period_str v (order_date r) = Some k) df).
Proof.
  unfold month_totals. rewrite list_elem_of_fmap. split.
  - intros ([k' g] & [= -> ->] & Hg).
    apply elem_of_groupby_dropna in Hg as [? ->]. done.
  - intros [Hk ->]. eexists (k, _). split; [done|].
    by apply elem_of_groupby_dropna.
Qed.

(** The monthly totals once sorted by label: one entry per label that is
    present, each the sum over the rows with that label, labels
    ascending. *)
Lemma sorted_months_spec v df :
  let months := sort_by S (on fst String.leb) (month_totals S v df) in
  NoDup months.*1
  ∧ (∀ k, k ∈ months.*1 ↔ Some k ∈ (λ r, period_str v (order_date r)) <$> df)
  ∧ (∀ k x, (k, x) ∈ months →
       x = group_sum
             (sales <$> filter (λ r, period_str v (order_date r) = Some k) df))
  ∧ StronglySorted (λ a b, String.leb a b) months.*1.
Proof.
  intros months.
  assert (months.*1
          ≡ₚ (groupby_dropna S String.leb (λ r, period_str v (order_date r)) df).*1)
    as Hperm.
  { unfold months. rewrite (sort_by_perm S). by rewrite month_totals_keys. }
  split_and!.
  - rewrite Hperm. apply groupby_dropna_keys_NoDup.
  - intros k. rewrite Hperm. apply elem_of_groupby_dropna_keys.
  - intros k x Hkx. unfold months in Hkx. rewrite elem_of_sort_by in Hkx.
    by apply elem_of_month_totals in Hkx as [_ ->].
  - eapply StronglySorted_fmap;
      [|apply (sort_by_sorted S), on_preorder, string_leb_order]. done.
Qed.

(** Where no date is missing, and under pandas 3.x everywhere, the month
    column holds the "YYYY-MM" label of the date, and is missing where
    the date is. *)
Lemma period_str_dated v (d : option Timestamp) :
  (v = pandas2 → d ≠ None) → period_str v d = month_label <$> d.
Proof. destruct d as [t|], v; cbn; try done. intros H. by destruct H. Qed.
End summary_facts.

Section dict_comprehension_facts.
Context {K V : Type} `{EqDecision K}.

Lemma dict_set_fresh (k : K) (v : V) (d : list (K * V)) :
  k ∉ d.*1 → dict_set k v d = d ++ [(k, v)].
Proof.
  induction d as [|[k' v'] d IH]; cbn; [done|].
  intros Hk. rewrite decide_False by set_solver. rewrite IH by set_solver. done.
Qed.

Lemma foldl_dict_set_NoDup (acc kvs : list (K * V)) :
  NoDup (acc ++ kvs).*1 →
  foldl (λ d kv, dict_set kv.1 kv.2 d) acc kvs = acc ++ kvs.
Proof.
  revert acc. induction kvs as [|[k v] kvs IH]; intros acc Hnd; cbn.
  - by rewrite app_nil_r.
  - rewrite dict_set_fresh.
    + rewrite IH; rewrite <-app_assoc; done.
    + rewrite fmap_app in Hnd. apply NoDup_app in Hnd as (_ & Hdisj & _).
      intros Hin. apply (Hdisj k Hin). cbn. apply list_elem_of_here.
Qed.

(** A comprehension over distinct keys is the list of its items. *)
Lemma dict_comprehension_NoDup (kvs : list (K * V)) :
  NoDup kvs.*1 → dict_comprehension kvs = kvs.
Proof. intros Hnd. unfold dict_comprehension. by rewrite foldl_dict_set_NoDup. Qed.
End dict_comprehension_facts.

Lemma StronglySorted_lookup {A} (R : relation A) (l : list A) i j x y :
  StronglySorted R l → i < j → l !! i = Some x → l !! j = Some y → R x y.
Proof.
  intros Hs. revert i j. induction Hs as [|a l Hs IH Ha]; intros i j Hij Hi Hj; [done|].
  destruct j as [|j]; [lia|]. cbn in Hj. destruct i as [|i]; cbn in Hi.
  - injection Hi as ->. rewrite Forall_forall in Ha.
    apply Ha. by eapply list_elem_of_lookup_2.
  - apply (IH i j); [lia|done..].
Qed.

Section trend_facts.
Implicit Types labels : list string.

(** In a sorted list of distinct labels, position order is calendar
    order, and "NaT" comes after every month. *)
Lemma labels_chronological labels i j t1 t2 :
  StronglySorted (λ a b, String.leb a b) labels → NoDup labels →
  four_digit_year t1 → four_digit_year t2 →
  labels !! i = Some (month_label t1) → labels !! j = Some (month_label t2) →
  i < j ↔ (month_index t1 < month_index t2)%Z.
Proof.
  intros Hs Hnd H1 H2 Hi Hj.
  assert (∀ a b ta tb, four_digit_year ta → four_digit_year tb → a < b →
            labels !! a = Some (month_label ta) → labels !! b = Some (month_label tb) →
            (month_index ta < month_index tb)%Z) as Hlt.
  { intros a b ta tb Ha Hb Hab Hla Hlb.
    pose proof (StronglySorted_lookup _ _ _ _ _ _ Hs Hab Hla Hlb) as Hle.
    pose proof (proj1 (month_label_leb ta tb Ha Hb) Hle) as Hle'.
    assert (month_index ta ≠ month_index tb); [|lia].
    intros Heq. pose proof (proj2 (month_label_inj ta tb Ha Hb) Heq) as Hlab.
    rewrite <-Hlab in Hlb.
    pose proof (NoDup_lookup _ _ _ _ Hnd Hla Hlb). lia. }
  split; [intros Hij; exact (Hlt i j t1 t2 H1 H2 Hij Hi Hj)|].
  intros Hidx. destruct (Nat.lt_trichotomy i j) as [Hij|[->|Hji]]; [exact Hij| |].
  - assert (month_label t1 = month_label t2) as Heq by congruence.
    pose proof (proj1 (month_label_inj t1 t2 H1 H2) Heq). lia.
  - pose proof (Hlt j i t2 t1 H2 H1 Hji Hj Hi). lia.
Qed.

Lemma labels_NaT_last labels i j t :
  StronglySorted (λ a b, String.leb a b) labels →
  labels !! i = Some (month_label t) → labels !! j = Some "NaT"%string → i < j.
Proof.
  intros Hs Hi Hj. destruct (Nat.lt_trichotomy i j) as [Hij|[->|Hji]]; [exact Hij| |].
  - assert (month_label t = "NaT"%string) as Heq by congruence.
    destruct (month_label_not_NaT t Heq).
  - pose proof (StronglySorted_lookup _ _ _ _ _ _ Hs Hji Hj Hi) as Hle.
    destruct (proj2 (month_label_before_NaT t) Hle).
Qed.
End trend_facts.

(** The two examples of the specification, under either pandas line. *)
Example C8_examples (v : Pandas) :
  sales_by_category (make_summary_json merge_sorter v df_categories)
  = [("A", 150%Z); ("B", 30%Z)]
  ∧ total_sales (make_summary_json merge_sorter v df_categories) = 180%Z
  ∧ month_label <$> [18632; 18647; 18659]%Z = ["2021-01"; "2021-01"; "2021-02"]
  ∧ monthly_sales_trend (make_summary_json merge_sorter v df_months)
    = [("2021-01", 15%Z); ("2021-02", 7%Z)].
Proof. destruct v; vm_compute; done. Qed.

(** Where the two pandas lines part: a subset of one record whose order
    date is missing. Under pandas 2.x the trend has the entry ("NaT", 100);
    under pandas 3.x the record is in no group and the trend is empty. The
    dashboard never hands over such a subset: its filter keeps no row
    without an order date. *)
Example summary_missing_order_date :
  monthly_sales_trend (make_summary_json merge_sorter pandas2 df_order_missing)
  = [("NaT", 100%Z)]
  ∧ monthly_sales_trend (make_summary_json merge_sorter pandas3 df_order_missing)
    = [].
Proof. split; vm_compute; reflexivity. Qed.



(** * Further properties of the pipeline *)

(** ** Outcome of the build *)

(** The build never raises KeyError: every region tuple of the frame is a
    key of the region dict built from the same frame. It raises ValueError
    exactly when no row has a valid order date, the empty frame
    included. *)
Theorem build_star_schema_outcome {F} (S : SortAlgo) (df : list (Row F)) :
  (build_star_schema S df = inl ValueError ↔ ∀ r, r ∈ df → order_date r = None)
  ∧ build_star_schema S df ≠ inl KeyError
  ∧ build_star_schema S (@nil (Row F)) = inl ValueError.
Proof.
  assert (build_star_schema S df = inl ValueError
          ↔ ∀ r, r ∈ df → order_date r = None) as Hiff.
  { split; [|apply build_star_schema_no_order_date].
    intros Hfail.
    destruct (build_star_schema_cases S df) as [[_ Hall]|(dd & fact & _ & _ & Hok)];
      [done|congruence]. }
  split_and!; [done| |].
  - destruct (build_star_schema_cases S df) as [[Hfail _]|(dd & fact & _ & _ & Hok)];
      congruence.
  - apply build_star_schema_no_order_date. intros r Hr. by apply elem_of_nil in Hr.
Qed.

(** ** Joins that are exact *)

Lemma NoDup_fmap_elem_inj {A B} (f : A → B) (l : list A) x y :
  NoDup (f <$> l) → x ∈ l → y ∈ l → f x = f y → x = y.
Proof.
  intros Hnd (i & Hi)%list_elem_of_lookup (j & Hj)%list_elem_of_lookup Heq.
  assert (i = j) as ->; [|congruence].
  apply (NoDup_lookup _ i j (f x) Hnd).
  - by rewrite list_lookup_fmap, Hi.
  - by rewrite list_lookup_fmap, Hj, Heq.
Qed.

Lemma dense_keys_NoDup (keys : list Z) : dense_keys keys → NoDup keys.
Proof.
  intros ->. apply NoDup_fmap; [apply _|apply NoDup_seq].
Qed.

(** A dict built from a table whose natural keys and surrogate keys are
    both free of repeats: the key it holds for a natural key belongs to
    the one row with that natural key, and to no other. *)
Lemma dict_zip_exact {R K} `{Countable K} (f : R → K) (g : R → Z)
    (rows : list R) (k : K) :
  NoDup (f <$> rows) → NoDup (g <$> rows) → k ∈ f <$> rows →
  ∃ d0, d0 ∈ rows ∧ f d0 = k
        ∧ dict_zip (f <$> rows) (g <$> rows) !! k = Some (g d0)
        ∧ ∀ d, d ∈ rows → (g d = g d0 ↔ f d = k).
Proof.
  intros Hf Hg Hk.
  destruct (dict_zip_lookup_Some f g rows k Hk) as (d0 & Hd0 & Hfd0 & Hlk).
  exists d0. split_and!; [done..|].
  intros d Hd. split.
  - intros Heq. by rewrite (NoDup_fmap_elem_inj g rows d d0 Hg Hd Hd0 Heq).
  - intros Heq. rewrite <-Hfd0 in Heq.
    by rewrite (NoDup_fmap_elem_inj f rows d d0 Hf Hd Hd0 Heq).
Qed.

Section exact_joins.
Context {F : Type} (S : SortAlgo).
Implicit Types df : list (Row F).

Lemma dim_region_geo_NoDup df : NoDup (dr_geo <$> build_dim_region S df).
Proof. rewrite dim_region_naturals. apply natural_rows_NoDup. Qed.

Lemma dim_ship_mode_NoDup df : NoDup (dsm_ship_mode <$> build_dim_ship_mode S df).
Proof. rewrite dim_ship_mode_naturals. apply natural_rows_NoDup. Qed.

Lemma dim_region_keys_NoDup df : NoDup (region_key <$> build_dim_region S df).
Proof.
  apply dense_keys_NoDup. unfold dense_keys. by rewrite length_fmap, <-dim_region_keys.
Qed.

Lemma dim_ship_mode_keys_NoDup df :
  NoDup (ship_mode_key <$> build_dim_ship_mode S df).
Proof.
  apply dense_keys_NoDup. unfold dense_keys.
  by rewrite length_fmap, <-dim_ship_mode_keys.
Qed.

Lemma dim_customer_keys_NoDup df : NoDup (customer_key <$> build_dim_customer S df).
Proof.
  apply dense_keys_NoDup. unfold dense_keys.
  by rewrite length_fmap, <-dim_customer_keys.
Qed.

Lemma dim_product_keys_NoDup df : NoDup (product_key <$> build_dim_product S df).
Proof.
  apply dense_keys_NoDup. unfold dense_keys.
  by rewrite length_fmap, <-dim_product_keys.
Qed.
End exact_joins.

(** The region and ship-mode keys of a fact row lead back to the record's
    own region tuple and ship mode: the dimension has a row for them, and
    a dimension row carries the fact row's key exactly when it carries the
    record's natural key. *)
Theorem region_ship_mode_join_exact {F} (S : SortAlgo) (df : list (Row F))
    (ss : StarSchema F) :
  build_star_schema S df = inr ss →
  Forall2 (λ r f,
      (∃ d, d ∈ dim_region ss ∧ dr_geo d = geo_of r)
      ∧ (∀ d, d ∈ dim_region ss →
           (region_key d = fs_region_key f ↔ dr_geo d = geo_of r))
      ∧ (∃ d, d ∈ dim_ship_mode ss ∧ dsm_ship_mode d = ship_mode r)
      ∧ (∀ d, d ∈ dim_ship_mode ss →
           (fs_ship_mode_key f = Some (ship_mode_key d)
            ↔ dsm_ship_mode d = ship_mode r)))
    df (fact_sales ss).
Proof.
  intros Hss. destruct (build_star_schema_fact S df ss Hss) as [Hlen Hrows].
  apply build_star_schema_inv in Hss
    as (lo & hi & _ & _ & _ & _ & _ & _ & Hdr & Hdsm & _).
  apply Forall2_same_length_lookup_2; [done|].
  intros i r f Hr Hf. destruct (Hrows i r Hr) as (rk & Hrk & Hf').
  rewrite Hf' in Hf. injection Hf as <-.
  assert (r ∈ df) as Hin by (by eapply list_elem_of_lookup_2).
  destruct (dict_zip_exact dr_geo region_key (build_dim_region S df) (geo_of r))
    as (d0 & Hd0 & Hg0 & Hlk0 & Hex0);
    [apply dim_region_geo_NoDup|apply dim_region_keys_NoDup|by apply geo_in_dim|].
  destruct (dict_zip_exact dsm_ship_mode ship_mode_key (build_dim_ship_mode S df)
              (ship_mode r))
    as (d1 & Hd1 & Hg1 & Hlk1 & Hex1);
    [apply dim_ship_mode_NoDup|apply dim_ship_mode_keys_NoDup
    |by apply ship_mode_in_dim|].
  cbn in Hrk. rewrite Hlk0 in Hrk. injection Hrk as <-.
  cbn. rewrite Hdr, Hdsm, Hlk1. split_and!.
  - eauto.
  - intros d Hd. by apply Hex0.
  - eauto.
  - intros d Hd. rewrite <-(Hex1 d Hd). split; [by intros [= ->]|by intros ->].
Qed.

Lemma region_ship_mode_join_exact_witness :
  ∃ ss, build_star_schema merge_sorter df_two_orders = inr ss
        ∧ Forall2 (λ r f,
              (∃ d, d ∈ dim_region ss ∧ dr_geo d = geo_of r)
              ∧ (∀ d, d ∈ dim_region ss →
                   (region_key d = fs_region_key f ↔ dr_geo d = geo_of r))
              ∧ (∃ d, d ∈ dim_ship_mode ss ∧ dsm_ship_mode d = ship_mode r)
              ∧ (∀ d, d ∈ dim_ship_mode ss →
                   (fs_ship_mode_key f = Some (ship_mode_key d)
                    ↔ dsm_ship_mode d = ship_mode r)))
            df_two_orders (fact_sales ss).
Proof.
  eexists. split; [vm_compute; reflexivity|].
  apply (region_ship_mode_join_exact merge_sorter df_two_orders).
  vm_compute; reflexivity.
Defined.

Lemma date_dimension_spec_witness :
  ∃ dd lo hi,
    build_dim_date df_two_orders = inr dd
    ∧ has_date df_two_orders lo ∧ has_date df_two_orders hi
    ∧ (∀ t, has_date df_two_orders t → lo ≤ t ≤ hi)%Z
    ∧ Z.of_nat (length dd) = (hi - lo + 1)%Z
    ∧ (∀ t, (lo ≤ t ≤ hi)%Z →
         ∃ i d, dd !! i = Some d ∧ full_date d = t
                ∧ ∀ j d', dd !! j = Some d' → full_date d' = t → j = i)
    ∧ (∀ d, d ∈ dd → date_key d = date_key_of (full_date d))
    ∧ StronglySorted (λ d1 d2, (full_date d1 < full_date d2)%Z
                               ∧ (date_key d1 < date_key d2)%Z) dd.
Proof.
  apply (date_dimension_spec df_two_orders
           (example_row 1 (Some 18632%Z) (Some 18634%Z) "CG-12520" "Claire Gute"
              "P1" "Widget" "Furniture" 100) 18632%Z).
  - apply list_elem_of_here.
  - reflexivity.
Defined.

(** The date keys of a fact row lead back to the record's own dates: a
    present order (ship) date is keyed by its YYYYMMDD number, the date
    dimension has a row for that day, and a row of the date dimension
    carries that key exactly when it is the row of that day. *)
Theorem date_key_round_trip {F} (S : SortAlgo) (df : list (Row F))
    (ss : StarSchema F) :
  build_star_schema S df = inr ss →
  Forall2 (λ r f,
      (∀ t, order_date r = Some t →
         fs_order_date_key f = Some (date_key_of t)
         ∧ (∃ d, d ∈ dim_date ss ∧ full_date d = t)
         ∧ ∀ d, d ∈ dim_date ss → (date_key d = date_key_of t ↔ full_date d = t))
      ∧ (∀ t, ship_date r = Some t →
           fs_ship_date_key f = Some (date_key_of t)
           ∧ (∃ d, d ∈ dim_date ss ∧ full_date d = t)
           ∧ ∀ d, d ∈ dim_date ss → (date_key d = date_key_of t ↔ full_date d = t)))
    df (fact_sales ss).
Proof.
  intros Hss. destruct (build_star_schema_fact S df ss Hss) as [Hlen Hrows].
  apply build_star_schema_inv in Hss
    as (lo & hi & _ & _ & Hb & Hdd & _ & _ & _ & _ & _).
  apply Forall2_same_length_lookup_2; [done|].
  intros i r f Hr Hf. destruct (Hrows i r Hr) as (rk & Hrk & Hf').
  rewrite Hf' in Hf. injection Hf as <-.
  assert (r ∈ df) as Hin by (by eapply list_elem_of_lookup_2).
  assert (∀ t, has_date df t →
            date_to_key (lookups_built S (dim_date ss) df) !! t = Some (date_key_of t)
            ∧ (∃ d, d ∈ dim_date ss ∧ full_date d = t)
            ∧ ∀ d, d ∈ dim_date ss → (date_key d = date_key_of t ↔ full_date d = t))
    as Hdate.
  { intros t Ht. rewrite Hdd. cbn -[dim_date_row]. split_and!.
    - rewrite date_to_key_lookup, decide_True by auto. done.
    - exists (dim_date_row t). split; [|done].
      apply list_elem_of_fmap. exists t. split; [done|].
      apply elem_of_days_between. auto.
    - intros d (t' & -> & _)%list_elem_of_fmap. cbn. split.
      + apply date_key_of_inj.
      + by intros ->. }
  cbn -[lookups_built]. split.
  - intros t Ht. rewrite Ht. cbn -[lookups_built]. apply Hdate. eexists; eauto.
  - intros t Ht. rewrite Ht. cbn -[lookups_built]. apply Hdate. eexists; eauto.
Qed.

Lemma date_key_round_trip_witness :
  ∃ ss, build_star_schema merge_sorter df_ship_missing = inr ss
        ∧ fs_order_date_key <$> fact_sales ss = [Some 20210105%Z]
        ∧ Forall2 (λ r f,
              (∀ t, order_date r = Some t →
                 fs_order_date_key f = Some (date_key_of t)
                 ∧ (∃ d, d ∈ dim_date ss ∧ full_date d = t)
                 ∧ ∀ d, d ∈ dim_date ss →
                     (date_key d = date_key_of t ↔ full_date d = t))
              ∧ (∀ t, ship_date r = Some t →
                   fs_ship_date_key f = Some (date_key_of t)
                   ∧ (∃ d, d ∈ dim_date ss ∧ full_date d = t)
                   ∧ ∀ d, d ∈ dim_date ss →
                       (date_key d = date_key_of t ↔ full_date d = t)))
            df_ship_missing (fact_sales ss).
Proof.
  eexists. split; [vm_compute; reflexivity|]. split; [vm_compute; reflexivity|].
  apply (date_key_round_trip merge_sorter df_ship_missing).
  vm_compute; reflexivity.
Defined.

(** ** Consistent master data *)

(** When every customer identifier of the record set comes with a single
    name and segment, the customer dimension has one row per identifier
    and each fact row references the row that carries the record's own
    identifier, name and segment; likewise for products with category and
    sub-category. *)
Theorem consistent_ids_join_exact {F} (S : SortAlgo) (df : list (Row F))
    (ss : StarSchema F) :
  build_star_schema S df = inr ss →
  (consistent_customers df →
   NoDup (dc_customer_id <$> dim_customer ss)
   ∧ Forall2 (λ r f,
         ∃ d, d ∈ dim_customer ss
              ∧ fs_customer_key f = Some (customer_key d)
              ∧ dc_customer_id d = customer_id r
              ∧ dc_customer_name d = customer_name r
              ∧ dc_segment d = segment r) df (fact_sales ss))
  ∧ (consistent_products df →
     NoDup (dp_product_id <$> dim_product ss)
     ∧ Forall2 (λ r f,
           ∃ d, d ∈ dim_product ss
                ∧ fs_product_key f = Some (product_key d)
                ∧ dp_product_id d = product_id r
                ∧ dp_category d = category r
                ∧ dp_sub_category d = sub_category r) df (fact_sales ss)).
Proof.
  intros Hss. destruct (build_star_schema_fact S df ss Hss) as [Hlen Hrows].
  apply build_star_schema_inv in Hss
    as (lo & hi & _ & _ & _ & _ & Hdc & Hdp & _ & _ & _).
  split.
  - intros Hfd.
    assert (∀ d, d ∈ build_dim_customer S df →
              ∃ r, r ∈ df ∧ dc_customer_id d = customer_id r
                   ∧ dc_customer_name d = customer_name r
                   ∧ dc_segment d = segment r) as Hsrc.
    { intros d Hd.
      assert ((dc_customer_id d, dc_customer_name d, dc_segment d)
              ∈ customer_rows S df) as Hrow.
      { rewrite <-dim_customer_naturals. apply list_elem_of_fmap. eauto. }
      apply elem_of_natural_rows in Hrow as (r & Hr & [= -> -> ->]). eauto. }
    rewrite Hdc. split.
    + apply NoDup_fmap_2_strong; [|by eapply NoDup_fmap_1, dim_customer_keys_NoDup].
      intros d1 d2 Hd1 Hd2 Hid.
      destruct (Hsrc d1 Hd1) as (r1 & Hr1 & Hi1 & Hn1 & Hs1).
      destruct (Hsrc d2 Hd2) as (r2 & Hr2 & Hi2 & Hn2 & Hs2).
      destruct (Hfd r1 r2 Hr1 Hr2) as [Hn Hsg]; [congruence|].
      apply (NoDup_fmap_elem_inj
               (λ d, (dc_customer_id d, dc_customer_name d, dc_segment d))
               (build_dim_customer S df)); [|done..|].
      * rewrite dim_customer_naturals. apply natural_rows_NoDup.
      * cbn. congruence.
    + apply Forall2_same_length_lookup_2; [done|]. intros i r f Hr Hf.
      destruct (Hrows i r Hr) as (rk & _ & Hf'). rewrite Hf' in Hf. injection Hf as <-.
      assert (r ∈ df) as Hin by (by eapply list_elem_of_lookup_2).
      destruct (dict_zip_lookup_Some dc_customer_id customer_key
                  (build_dim_customer S df) (customer_id r)) as (d & Hd & Hid & Hlk);
        [by apply customer_id_in_dim|].
      exists d. cbn. split_and!; [done..| |].
      * destruct (Hsrc d Hd) as (r' & Hr' & Hi' & Hn' & Hs').
        destruct (Hfd r' r Hr' Hin) as [Hn _]; congruence.
      * destruct (Hsrc d Hd) as (r' & Hr' & Hi' & Hn' & Hs').
        destruct (Hfd r' r Hr' Hin) as [_ Hsg]; congruence.
  - intros Hfd.
    assert (∀ d, d ∈ build_dim_product S df →
              ∃ r, r ∈ df ∧ dp_product_id d = product_id r
                   ∧ dp_category d = category r
                   ∧ dp_sub_category d = sub_category r) as Hsrc.
    { intros d Hd.
      assert ((dp_product_id d, dp_category d, dp_sub_category d)
              ∈ product_rows S df) as Hrow.
      { rewrite <-dim_product_naturals. apply list_elem_of_fmap. eauto. }
      apply elem_of_natural_rows in Hrow as (r & Hr & [= -> -> ->]). eauto. }
    rewrite Hdp. split.
    + apply NoDup_fmap_2_strong; [|by eapply NoDup_fmap_1, dim_product_keys_NoDup].
      intros d1 d2 Hd1 Hd2 Hid.
      destruct (Hsrc d1 Hd1) as (r1 & Hr1 & Hi1 & Hn1 & Hs1).
      destruct (Hsrc d2 Hd2) as (r2 & Hr2 & Hi2 & Hn2 & Hs2).
      destruct (Hfd r1 r2 Hr1 Hr2) as [Hn Hsg]; [congruence|].
      apply (NoDup_fmap_elem_inj
               (λ d, (dp_product_id d, dp_category d, dp_sub_category d))
               (build_dim_product S df)); [|done..|].
      * rewrite dim_product_naturals. apply natural_rows_NoDup.
      * cbn. congruence.
    + apply Forall2_same_length_lookup_2; [done|]. intros i r f Hr Hf.
      destruct (Hrows i r Hr) as (rk & _ & Hf'). rewrite Hf' in Hf. injection Hf as <-.
      assert (r ∈ df) as Hin by (by eapply list_elem_of_lookup_2).
      destruct (dict_zip_lookup_Some dp_product_id product_key
                  (build_dim_product S df) (product_id r)) as (d & Hd & Hid & Hlk);
        [by apply product_id_in_dim|].
      exists d. cbn. split_and!; [done..| |].
      * destruct (Hsrc d Hd) as (r' & Hr' & Hi' & Hn' & Hs').
        destruct (Hfd r' r Hr' Hin) as [Hn _]; congruence.
      * destruct (Hsrc d Hd) as (r' & Hr' & Hi' & Hn' & Hs').
        destruct (Hfd r' r Hr' Hin) as [_ Hsg]; congruence.
Qed.

Lemma consistent_ids_join_exact_witness :
  ∃ ss, build_star_schema merge_sorter df_two_orders = inr ss
        ∧ consistent_customers df_two_orders
        ∧ NoDup (dc_customer_id <$> dim_customer ss)
        ∧ Forall2 (λ r f,
              ∃ d, d ∈ dim_customer ss
                   ∧ fs_customer_key f = Some (customer_key d)
                   ∧ dc_customer_id d = customer_id r
                   ∧ dc_customer_name d = customer_name r
                   ∧ dc_segment d = segment r) df_two_orders (fact_sales ss).
Proof.
  eexists. split; [vm_compute; reflexivity|].
  assert (consistent_customers df_two_orders) as Hfd.
  { intros r1 r2 Hr1 Hr2 _. unfold df_two_orders in Hr1, Hr2.
    apply elem_of_cons in Hr1 as [->|Hr1%list_elem_of_singleton];
      apply elem_of_cons in Hr2 as [->|Hr2%list_elem_of_singleton];
      subst; split; reflexivity. }
  split; [exact Hfd|].
  apply (consistent_ids_join_exact merge_sorter df_two_orders);
    [vm_compute; reflexivity|exact Hfd].
Defined.

(** ** Independence from the row order *)

Section order_independence.
Local Open Scope Z_scope.

Lemma col_min_same_cells (c c' : list (option Timestamp)) :
  (∀ x, x ∈ c ↔ x ∈ c') → col_min c = col_min c'.
Proof.
  intros Hsame.
  destruct (col_min c) as [m|] eqn:Hm, (col_min c') as [m'|] eqn:Hm'; [| | |done].
  - apply col_min_Some in Hm as [Hin Hle], Hm' as [Hin' Hle'].
    f_equal. apply Z.le_antisymm; [apply Hle|apply Hle']; by apply Hsame.
  - apply col_min_Some in Hm as [Hin _].
    by pose proof (proj1 (col_min_None _) Hm' _ (proj1 (Hsame _) Hin)).
  - apply col_min_Some in Hm' as [Hin _].
    by pose proof (proj1 (col_min_None _) Hm _ (proj2 (Hsame _) Hin)).
Qed.

Lemma col_max_same_cells (c c' : list (option Timestamp)) :
  (∀ x, x ∈ c ↔ x ∈ c') → col_max c = col_max c'.
Proof.
  intros Hsame.
  destruct (col_max c) as [m|] eqn:Hm, (col_max c') as [m'|] eqn:Hm'; [| | |done].
  - apply col_max_Some in Hm as [Hin Hle], Hm' as [Hin' Hle'].
    f_equal. apply Z.le_antisymm; [apply Hle'|apply Hle]; by apply Hsame.
  - apply col_max_Some in Hm as [Hin _].
    by pose proof (proj1 (col_max_None _) Hm' _ (proj1 (Hsame _) Hin)).
  - apply col_max_Some in Hm' as [Hin _].
    by pose proof (proj1 (col_max_None _) Hm _ (proj2 (Hsame _) Hin)).
Qed.
End order_independence.

(** Two sorted copies, by an order without ties, of frames with the same
    distinct values are the same list. *)
Lemma sorted_distinct_unique {A} `{EqDecision A} (S1 S2 : SortAlgo)
    (le : A → A → bool) (l1 l2 : list A) :
  TotalOrderB le → (∀ x, x ∈ l1 ↔ x ∈ l2) →
  sort_by S1 le (drop_duplicates id l1) = sort_by S2 le (drop_duplicates id l2).
Proof.
  intros Hle Hsame.
  apply (StronglySorted_unique_strong (λ x y, le x y)).
  - intros x y _ _ Hxy Hyx. by apply (leb_antisym (le:=le)).
  - apply (sort_by_sorted S1), Hle.
  - apply (sort_by_sorted S2), Hle.
  - rewrite !(sort_by_perm _). apply NoDup_Permutation.
    + apply drop_duplicates_id_NoDup.
    + apply drop_duplicates_id_NoDup.
    + intros x. rewrite !elem_of_drop_duplicates_id. apply Hsame.
Qed.

(** The date, region and ship-mode dimensions, hence the keys they hand
    out, depend on the values met in the record set only: neither on the
    order of the rows, nor on repeated rows, nor on the sorting routine. *)
Theorem dimensions_order_independent {F} (S1 S2 : SortAlgo) (df1 df2 : list (Row F)) :
  (∀ r, r ∈ df1 ↔ r ∈ df2) →
  build_dim_date df1 = build_dim_date df2
  ∧ build_dim_region S1 df1 = build_dim_region S2 df2
  ∧ build_dim_ship_mode S1 df1 = build_dim_ship_mode S2 df2.
Proof.
  intros Hsame.
  assert (∀ {B} (f : Row F → B) x, x ∈ f <$> df1 ↔ x ∈ f <$> df2) as Hcol.
  { intros B f x. rewrite !list_elem_of_fmap. naive_solver. }
  split_and!.
  - unfold build_dim_date, min_all, max_all.
    rewrite (col_min_same_cells (order_date <$> df1) (order_date <$> df2)) by apply Hcol.
    rewrite (col_min_same_cells (ship_date <$> df1) (ship_date <$> df2)) by apply Hcol.
    rewrite (col_max_same_cells (order_date <$> df1) (order_date <$> df2)) by apply Hcol.
    rewrite (col_max_same_cells (ship_date <$> df1) (ship_date <$> df2)) by apply Hcol.
    done.
  - unfold build_dim_region, region_rows.
    by rewrite (sorted_distinct_unique S1 S2 geo_le (geo_of <$> df1) (geo_of <$> df2)
                  geo_le_order (Hcol _ geo_of)).
  - unfold build_dim_ship_mode, ship_mode_rows.
    by rewrite (sorted_distinct_unique S1 S2 String.leb (ship_mode <$> df1)
                  (ship_mode <$> df2) string_leb_order (Hcol _ ship_mode)).
Qed.

Lemma dimensions_order_independent_witness :
  build_dim_date (reverse df_two_orders) = build_dim_date df_two_orders
  ∧ build_dim_region merge_sorter (reverse df_two_orders)
    = build_dim_region merge_sorter df_two_orders
  ∧ build_dim_ship_mode merge_sorter (reverse df_two_orders)
    = build_dim_ship_mode merge_sorter df_two_orders.
Proof.
  apply (dimensions_order_independent merge_sorter merge_sorter
           (reverse df_two_orders) df_two_orders).
  intros r. unfold df_two_orders, reverse. cbn [rev_append].
  rewrite !elem_of_cons. tauto.
Defined.

Section mode_name_facts.
Context {F : Type}.
Implicit Types df : list (Row F).

Lemma name_count_perm df1 df2 p n :
  df1 ≡ₚ df2 → name_count df1 p n = name_count df2 p n.
Proof. intros Hperm. unfold name_count. by rewrite Hperm. Qed.

Lemma mode_name_None (S : SortAlgo) df p :
  p ∉ product_id <$> df → mode_name S df !! p = None.
Proof.
  intros Hp. unfold mode_name. apply not_elem_of_list_to_map_1.
  rewrite <-list_fmap_compose.
  intros ([[p' n] c] & Hpp & Hx%elem_of_drop_duplicates)%list_elem_of_fmap.
  cbn in Hpp. subst p'.
  apply elem_of_name_counts in Hx as [(r & Hr & Hid & _) _].
  apply Hp, list_elem_of_fmap. eauto.
Qed.
End mode_name_facts.

(** The resolved product names depend on the occurrence counts only: two
    record sets with the same rows in any order, resolved with any sorting
    routine, give the same name for every product identifier. *)
Theorem mode_name_order_independent {F} (S1 S2 : SortAlgo) (df1 df2 : list (Row F)) :
  df1 ≡ₚ df2 → mode_name S1 df1 = mode_name S2 df2.
Proof.
  intros Hperm. apply map_eq. intros p.
  destruct (decide (p ∈ product_id <$> df1)) as [Hp|Hp].
  - apply list_elem_of_fmap in Hp as (r & -> & Hr1).
    assert (r ∈ df2) as Hr2 by (by rewrite <-Hperm).
    destruct (mode_name_spec S1 df1 r Hr1) as (n1 & -> & _ & Hbest1).
    destruct (mode_name_spec S2 df2 r Hr2) as (n2 & -> & _ & Hbest2).
    f_equal.
    specialize (Hbest1 n2). specialize (Hbest2 n1).
    rewrite !(name_count_perm df1 df2 _ _ Hperm) in Hbest1.
    destruct Hbest1 as [?|[? Hle1]], Hbest2 as [?|[? Hle2]]; try lia.
    by apply (@leb_antisym _ String.leb string_leb_order).
  - rewrite mode_name_None by done.
    rewrite mode_name_None; [done|]. by rewrite <-Hperm.
Qed.

Lemma mode_name_order_independent_witness :
  mode_name merge_sorter (reverse df_widget) = mode_name merge_sorter df_widget
  ∧ mode_name merge_sorter df_widget !! "P1" = Some "Widget".
Proof.
  split; [|vm_compute; reflexivity].
  apply (mode_name_order_independent merge_sorter merge_sorter
           (reverse df_widget) df_widget).
  apply reverse_Permutation.
Defined.

(** ** The normalizer keeps every record *)

Section dedup_more.
Context {A K : Type} `{EqDecision K}.

Lemma loc_not_dup_NoDup_id (key : A → K) (seen : list K) (l : list A) :
  NoDup (key <$> l) → (∀ x, x ∈ l → key x ∉ seen) →
  loc_not (duplicated_from seen (key <$> l)) l = l.
Proof.
  revert seen. induction l as [|x l IH]; intros seen Hnd Hseen; cbn; [done|].
  cbn in Hnd. apply NoDup_cons in Hnd as [Hx Hnd].
  rewrite bool_decide_eq_false_2 by (apply Hseen, list_elem_of_here).
  f_equal. apply IH; [done|].
  intros y Hy [Heq|Hin]%elem_of_cons.
  - apply Hx, list_elem_of_fmap. eauto.
  - apply (Hseen y); [by apply list_elem_of_further|done].
Qed.
End dedup_more.

(** The normalizer only drops rows: what it returns is a part of the
    parsed frame in the same order, every parsed record is still there up
    to its row identifier, and dropping duplicates from its result once
    more changes nothing. *)
Theorem dedup_keeps_every_record {F} `{EqDecision F}
    (to_datetime : list (option string) → nat → option Timestamp)
    (raw : list (RawRow F)) :
  let df := parsed to_datetime raw in
  let out := load_and_prepare_raw to_datetime raw in
  out `sublist_of` df
  ∧ (length out ≤ length raw)%nat
  ∧ (∀ r, r ∈ df → ∃ r', r' ∈ out ∧ cols_no_rowid r' = cols_no_rowid r)
  ∧ loc_not (duplicated (cols_no_rowid <$> out)) out = out.
Proof.
  intros df out. split_and!.
  - apply loc_not_sublist.
  - rewrite <-(length_parsed to_datetime raw).
    apply sublist_length, loc_not_sublist.
  - intros r Hr.
    assert (cols_no_rowid r ∈ cols_no_rowid <$> drop_duplicates cols_no_rowid df)
      as Hin by (apply drop_duplicates_keys, list_elem_of_fmap; eauto).
    apply list_elem_of_fmap in Hin as (r' & Heq & Hr'). eauto.
  - apply loc_not_dup_NoDup_id; [apply loc_not_dup_NoDup|].
    intros x _ Hx. by apply elem_of_nil in Hx.
Qed.

(** The normalizer returns the parsed frame whole if and only if no two
    parsed rows agree on every column but the row identifier. *)
Theorem dedup_without_duplicates {F} `{EqDecision F}
    (to_datetime : list (option string) → nat → option Timestamp)
    (raw : list (RawRow F)) :
  load_and_prepare_raw to_datetime raw = parsed to_datetime raw
  ↔ NoDup (cols_no_rowid <$> parsed to_datetime raw).
Proof.
  split.
  - intros Heq. rewrite <-Heq. apply loc_not_dup_NoDup.
  - intros Hnd. apply loc_not_dup_NoDup_id; [done|].
    intros x _ Hx. by apply elem_of_nil in Hx.
Qed.

Example dedup_without_duplicates_example :
  let raw := [example_raw 1 (Some "90210.0"); example_raw 2 (Some "10001")] in
  load_and_prepare_raw to_datetime_strict raw = parsed to_datetime_strict raw.
Proof. vm_compute; reflexivity. Qed.

(** ** Postal codes: what is left alone and what is ignored *)

Section postal_more.
Import PyStr.
Local Open Scope string_scope.

Lemma all_digits_app (a b : string) :
  all_digits (a +:+ b) = all_digits a && all_digits b.
Proof.
  induction a as [|c a IH]; simpl; [done|]. by rewrite IH, andb_assoc.
Qed.

Lemma substring_full (s : string) :
  String.substring 0 (String.length s) s = s.
Proof. induction s as [|c s IH]; simpl; [done|by rewrite IH]. Qed.

Lemma substring_split (s : string) (k : nat) :
  (k ≤ String.length s)%nat →
  s = String.substring 0 k s +:+ String.substring k (String.length s - k) s.
Proof.
  revert k. induction s as [|c s IH]; intros k Hk.
  - by destruct k.
  - destruct k as [|k].
    + change (String.substring 0 0 (String c s)) with "".
      rewrite Nat.sub_0_r, substring_full. reflexivity.
    + change (String c s = String c (String.substring 0 k s
        +:+ String.substring k (String.length s - k) s)).
      f_equal. apply IH. simpl in Hk. lia.
Qed.

Lemma endswith_dot0_inv (s : string) :
  endswith s ".0" = true → ∃ u, s = u +:+ ".0".
Proof.
  unfold endswith. intros [Hlen Heq]%andb_true_iff.
  apply Nat.leb_le in Hlen. apply String.eqb_eq in Heq.
  cbn [String.length] in *.
  exists (String.substring 0 (String.length s - 2) s).
  pose proof (substring_split s (String.length s - 2)) as Hsp.
  replace (String.length s - (String.length s - 2))%nat with 2%nat in Hsp by lia.
  rewrite Heq in Hsp. apply Hsp. lia.
Qed.

Lemma integer_text_not_dot0 (s : string) :
  integer_text s = true → endswith s ".0" = false.
Proof.
  intros Hs. destruct (endswith s ".0") eqn:He; [|done]. exfalso.
  apply endswith_dot0_inv in He as [u ->].
  destruct u as [|c u]; [done|]. simpl in Hs.
  apply andb_true_iff in Hs as [_ Hs]. rewrite all_digits_app in Hs.
  apply andb_true_iff in Hs as [_ Hs]. done.
Qed.
End postal_more.

(** A postal code that is already the text of an integer (the column was
    read as integers) is returned as it is: nothing is stripped and no
    suffix is removed. *)
Theorem clean_postal_integer_text (s : string) :
  PyStr.integer_text s = true → clean_postal (Some s) = s.
Proof.
  intros Hs. unfold clean_postal.
  rewrite integer_text_strip by done. by rewrite integer_text_not_dot0.
Qed.

Lemma clean_postal_integer_text_witness :
  PyStr.integer_text "42420" = true ∧ clean_postal (Some "42420") = "42420".
Proof.
  split; [reflexivity|]. apply (clean_postal_integer_text "42420"). reflexivity.
Defined.

(** White space around the text of a postal code makes no difference to the
    result. *)
Theorem clean_postal_ignores_blanks (pre s post : string) :
  PyStr.blank pre = true → PyStr.blank post = true →
  clean_postal (Some (pre +:+ s +:+ post)) = clean_postal (Some s).
Proof.
  intros Hpre Hpost. unfold clean_postal. by rewrite strip_blank_around.
Qed.

Lemma clean_postal_ignores_blanks_witness :
  PyStr.blank "  " = true ∧ PyStr.blank " " = true
  ∧ clean_postal (Some ("  " +:+ "90210.0" +:+ " ")) = "90210".
Proof.
  split; [reflexivity|]. split; [reflexivity|].
  rewrite (clean_postal_ignores_blanks "  " "90210.0" " "); reflexivity.
Defined.

(** ** The dashboard: sidebar selection, KPI and summary *)

Section dashboard_facts.
Context {F : Type}.
Implicit Types (c : FilterChoice) (raw df : list (Row F)) (r : Row F).

Lemma in_filter_spec c r :
  in_filter c r = true ↔
  (∃ t, order_date r = Some t ∧ (start_date c ≤ t ≤ end_date c)%Z)
  ∧ category r ∈ cat_pick c ∧ region r ∈ reg_pick c ∧ segment r ∈ seg_pick c.
Proof.
  unfold in_filter. rewrite !andb_true_iff, !bool_decide_eq_true.
  destruct (order_date r) as [t|].
  - rewrite !Z.leb_le. naive_solver.
  - naive_solver.
Qed.

Lemma elem_of_df_f c raw r : r ∈ df_f c raw ↔ r ∈ raw ∧ in_filter c r = true.
Proof.
  unfold df_f. rewrite list_elem_of_filter, Is_true_true. tauto.
Qed.

Lemma df_f_sublist c raw : df_f c raw `sublist_of` raw.
Proof. apply sublist_filter. Qed.

Lemma elem_of_options (S : SortAlgo) (col : Row F → string) raw x :
  x ∈ options S col raw ↔ x ∈ col <$> raw.
Proof.
  unfold options. by rewrite elem_of_sort_by, elem_of_drop_duplicates_id.
Qed.

Lemma nunique_sort_by {A} `{EqDecision A} (S : SortAlgo) (le : A → A → bool)
    (column : list A) :
  length (sort_by S le (drop_duplicates id column)) = nunique column.
Proof. apply length_sort_by. Qed.

Lemma nunique_subseteq {A} `{EqDecision A} (c1 c2 : list A) :
  (∀ x, x ∈ c1 → x ∈ c2) → (nunique c1 ≤ nunique c2)%nat.
Proof.
  intros Hsub. unfold nunique. apply submseteq_length, NoDup_submseteq.
  - apply drop_duplicates_id_NoDup.
  - intros x. rewrite !elem_of_drop_duplicates_id. apply Hsub.
Qed.

Lemma nunique_same {A} `{EqDecision A} (c1 c2 : list A) :
  (∀ x, x ∈ c1 ↔ x ∈ c2) → nunique c1 = nunique c2.
Proof.
  intros Hsame. apply Nat.le_antisymm; apply nunique_subseteq; naive_solver.
Qed.

Lemma nunique_NoDup {A} `{EqDecision A} (l column : list A) :
  NoDup l → (∀ x, x ∈ l ↔ x ∈ column) → length l = nunique column.
Proof.
  intros Hnd Hsame. unfold nunique. apply Permutation_length, NoDup_Permutation.
  - done.
  - apply drop_duplicates_id_NoDup.
  - intros x. rewrite elem_of_drop_duplicates_id. apply Hsame.
Qed.
End dashboard_facts.

(** The options a sidebar picker offers for a column: every value of the
    column once, in ascending order; they depend on the values met only,
    not on the order of the rows nor on the sorting routine. *)
Theorem options_spec {F} (S : SortAlgo) (col : Row F → string) (raw : list (Row F)) :
  NoDup (options S col raw)
  ∧ (∀ x, x ∈ options S col raw ↔ ∃ r, r ∈ raw ∧ col r = x)
  ∧ StronglySorted (λ a b, String.leb a b) (options S col raw)
  ∧ length (options S col raw) = nunique (col <$> raw)
  ∧ ∀ (S' : SortAlgo) (raw' : list (Row F)),
      (∀ x, x ∈ col <$> raw ↔ x ∈ col <$> raw') →
      options S' col raw' = options S col raw.
Proof.
  split_and!.
  - apply NoDup_sort_by, drop_duplicates_id_NoDup.
  - intros x. rewrite elem_of_options, list_elem_of_fmap. naive_solver.
  - apply (sort_by_sorted S), string_leb_order.
  - apply nunique_sort_by.
  - intros S' raw' Hsame. unfold options.
    apply sorted_distinct_unique; [apply string_leb_order|].
    intros x. by rewrite Hsame.
Qed.

(** With the selection the sidebar starts from (the whole date range and
    every option picked) the filtered frame is the raw frame without the
    rows whose order date is missing. *)
Theorem default_choice_keeps_dated_rows {F} (S : SortAlgo) (raw : list (Row F))
    (c : FilterChoice) :
  default_choice S raw = Some c →
  df_f c raw = filter (λ r, is_Some (order_date r)) raw.
Proof.
  unfold default_choice. intros Hc.
  destruct (col_min (order_date <$> raw)) as [lo|] eqn:Hlo; [|done].
  destruct (col_max (order_date <$> raw)) as [hi|] eqn:Hhi; [|done].
  injection Hc as <-.
  apply col_min_Some in Hlo as [_ Hlo]. apply col_max_Some in Hhi as [_ Hhi].
  unfold df_f. apply filter_ext_in. intros r Hr.
  rewrite Is_true_true, in_filter_spec. cbn.
  rewrite !elem_of_options, !list_elem_of_fmap. split.
  - intros [(t & -> & _) _]. by eexists.
  - intros [t Ht]. split; [|split_and!; by exists r].
    exists t. split; [done|].
    assert (Some t ∈ order_date <$> raw) as Hin
      by (apply list_elem_of_fmap; eauto).
    split; [by apply Hlo|by apply Hhi].
Qed.

Lemma default_choice_keeps_dated_rows_witness :
  ∃ c, default_choice merge_sorter df_ship_missing = Some c
       ∧ df_f c df_ship_missing
         = filter (λ r, is_Some (order_date r)) df_ship_missing.
Proof.
  eexists. split; [vm_compute; reflexivity|].
  apply (default_choice_keeps_dated_rows merge_sorter df_ship_missing).
  vm_compute; reflexivity.
Defined.

(** The sidebar has no date range to offer exactly when no row of the raw
    frame has a valid order date: the least and the greatest order date are
    then both missing. *)
Theorem default_choice_none {F} (S : SortAlgo) (raw : list (Row F)) :
  default_choice S raw = None ↔ ∀ r, r ∈ raw → order_date r = None.
Proof.
  assert ((∀ x, x ∈ order_date <$> raw → x = None)
          ↔ ∀ r, r ∈ raw → order_date r = None) as Hcells.
  { split.
    - intros H r Hr. apply H, list_elem_of_fmap. eauto.
    - intros H x (r & -> & Hr)%list_elem_of_fmap. by apply H. }
  unfold default_choice.
  destruct (col_min (order_date <$> raw)) as [lo|] eqn:Hlo.
  - destruct (col_max (order_date <$> raw)) as [hi|] eqn:Hhi.
    + split; [done|]. intros Hall.
      apply col_min_Some in Hlo as [Hin _].
      by pose proof (proj2 Hcells Hall _ Hin).
    + split; [|done]. intros _. by apply Hcells, col_max_None.
  - split; [|done]. intros _. by apply Hcells, col_min_None.
Qed.

Section summary_more.
Context {F : Type} `{!Money F}.
Variable S : SortAlgo.
Implicit Types (df : list (Row F)) (key : Row F → string).

Lemma sorted_totals_keys (le : string * F → string * F → bool) key df l :
  l ∈ (rounded (sort_by S le (group_totals S key df))).*1 ↔ l ∈ key <$> df.
Proof.
  rewrite rounded_keys.
  destruct (sorted_totals_spec S le key df) as (_ & Hkeys & _). apply Hkeys.
Qed.

Lemma length_sorted_totals (le : string * F → string * F → bool) key df :
  length (sort_by S le (group_totals S key df)) = nunique (key <$> df).
Proof.
  rewrite length_sort_by. unfold group_totals, groupby.
  rewrite !length_fmap. apply length_sort_by.
Qed.

Lemma length_rounded (totals : list (string * F)) :
  length (rounded totals) = length totals.
Proof. apply length_fmap. Qed.

Lemma sort_by_nil {A} (le : A → A → bool) : sort_by S le [] = [].
Proof. apply Permutation_nil_r, (sort_by_perm S). Qed.

Lemma group_totals_nil key : group_totals S key [] = [].
Proof. unfold group_totals, groupby. cbn. by rewrite sort_by_nil. Qed.

Lemma month_totals_nil v : month_totals S v (@nil (Row F)) = [].
Proof. unfold month_totals, groupby_dropna. cbn. by rewrite sort_by_nil. Qed.

Lemma length_sorted_months v df :
  length (sort_by S (on fst String.leb) (month_totals S v df))
  = nunique (omap (λ r, period_str v (order_date r)) df).
Proof.
  rewrite length_sort_by. unfold month_totals, groupby_dropna.
  rewrite !length_fmap. apply length_sort_by.
Qed.

(** The labels of the month column, counted: the "YYYY-MM" labels of the
    valid order dates, and under pandas 2.x the text "NaT" besides when
    some order date is missing. *)
Lemma nunique_period_str v df :
  nunique (omap (λ r, period_str v (order_date r)) df)
  = (nunique (omap (λ r, month_label <$> order_date r) df)
     + match v with
       | pandas2 => if decide (None ∈ order_date <$> df) then 1 else 0
       | pandas3 => 0
       end)%nat.
Proof.
  set (M := omap (λ r, month_label <$> order_date r) df).
  assert (∀ x, x ∈ M ↔ ∃ r t, r ∈ df ∧ order_date r = Some t ∧ x = month_label t)
    as HM.
  { intros x. unfold M. rewrite list_elem_of_omap. split.
    - intros (r & Hr & Hx). destruct (order_date r) as [t|] eqn:Ht; [|done].
      injection Hx as <-. by exists r, t.
    - intros (r & t & Hr & Ht & ->). exists r. by rewrite Ht. }
  destruct v.
  - destruct (decide (None ∈ order_date <$> df)) as [Hmiss|Hall].
    + rewrite Nat.add_1_r. symmetry.
      change (Datatypes.S (nunique M))
        with (length ("NaT"%string :: drop_duplicates id M)).
      apply nunique_NoDup.
      * apply NoDup_cons. split; [|apply drop_duplicates_id_NoDup].
        rewrite elem_of_drop_duplicates_id, HM.
        intros (_ & t & _ & _ & Heq). symmetry in Heq.
        destruct (month_label_not_NaT t Heq).
      * intros x. rewrite elem_of_cons, elem_of_drop_duplicates_id, HM.
        rewrite list_elem_of_omap. split.
        -- intros [->|(r & t & Hr & Ht & ->)].
           ++ apply list_elem_of_fmap in Hmiss as (r & Hnone & Hr).
              exists r. by rewrite <-Hnone.
           ++ exists r. by rewrite Ht.
        -- intros (r & Hr & Hx). destruct (order_date r) as [t|] eqn:Ht.
           ++ right. injection Hx as <-. by exists r, t.
           ++ left. by injection Hx as <-.
    + rewrite Nat.add_0_r. apply nunique_same. intros x.
      rewrite HM, list_elem_of_omap. split.
      * intros (r & Hr & Hx). destruct (order_date r) as [t|] eqn:Ht.
        -- injection Hx as <-. by exists r, t.
        -- destruct Hall. apply list_elem_of_fmap. by exists r.
      * intros (r & t & Hr & Ht & ->). exists r. by rewrite Ht.
  - rewrite Nat.add_0_r. apply nunique_same. intros x.
    rewrite HM, list_elem_of_omap. split.
    + intros (r & Hr & Hx). destruct (order_date r) as [t|] eqn:Ht; [|done].
      injection Hx as <-. by exists r, t.
    + intros (r & t & Hr & Ht & ->). exists r. by rewrite Ht.
Qed.
End summary_more.

(** The dashboard computes its summary on the filtered frame only. Its
    monthly trend then has no entry for missing order dates, whatever the
    pandas line: every label is the "YYYY-MM" of the order date of some raw
    row that lies in the picked date range. *)
Theorem dashboard_trend_labels {F} `{!Money F} (S : SortAlgo) (v : Pandas)
    (c : FilterChoice) (raw : list (Row F)) :
  let s := make_summary_json S v (df_f c raw) in
  year_month_labels (monthly_sales_trend s)
  ∧ ∀ l, l ∈ (monthly_sales_trend s).*1 →
      l ≠ "NaT"
      ∧ ∃ r t, r ∈ raw ∧ order_date r = Some t
               ∧ (start_date c ≤ t ≤ end_date c)%Z ∧ l = month_label t.
Proof.
  intros s.
  assert (∀ l, l ∈ (monthly_sales_trend s).*1 →
            ∃ r t, r ∈ raw ∧ order_date r = Some t
                   ∧ (start_date c ≤ t ≤ end_date c)%Z ∧ l = month_label t) as Hl.
  { intros l Hin. unfold s, make_summary_json in Hin. cbn [monthly_sales_trend] in Hin.
    rewrite rounded_keys in Hin.
    destruct (sorted_months_spec S v (df_f c raw)) as (_ & Hkeys & _).
    apply Hkeys, list_elem_of_fmap in Hin as (r & Hl & Hr).
    apply elem_of_df_f in Hr as [Hr Hf].
    apply in_filter_spec in Hf as [(t & Ht & Hrange) _].
    exists r, t. rewrite Ht in Hl. cbn in Hl. injection Hl as ->. done. }
  split.
  - intros l Hin. destruct (Hl l Hin) as (_ & t & _ & _ & _ & ->). by exists t.
  - intros l Hin. split; [|by apply Hl].
    destruct (Hl l Hin) as (_ & t & _ & _ & _ & ->). apply month_label_not_NaT.
Qed.

(** The sizes of the three lists of a summary: one category entry per
    distinct category of the subset; the distinct products up to ten; and
    one trend entry per distinct "YYYY-MM" label of a valid order date.
    Records whose order date is missing add no entry under pandas 3.x, and
    the single entry "NaT" under pandas 2.x. *)
Theorem summary_sizes {F} `{!Money F} (S : SortAlgo) (v : Pandas)
    (df : list (Row F)) :
  let s := make_summary_json S v df in
  length (sales_by_category s) = nunique (category <$> df)
  ∧ length (top_products s) = (10 `min` nunique (product_name <$> df))%nat
  ∧ length (monthly_sales_trend s)
    = (nunique (omap (λ r, month_label <$> order_date r) df)
       + match v with
         | pandas2 => if decide (None ∈ order_date <$> df) then 1 else 0
         | pandas3 => 0
         end)%nat.
Proof.
  intros s. unfold s, make_summary_json. cbn. split_and!.
  - rewrite dict_comprehension_NoDup.
    + rewrite length_rounded. apply length_sorted_totals.
    + rewrite rounded_keys.
      by destruct (sorted_totals_spec S (on snd sum_ge) category df) as [? _].
  - rewrite length_rounded, length_take. unfold sort_desc.
    by rewrite length_sorted_totals.
  - rewrite length_rounded, length_sorted_months. apply nunique_period_str.
Qed.

(** When a picker is left empty, or the date range is empty, no row passes
    the filter; the summary then has the rounded sum of no sales as total
    and three empty lists. *)
Theorem empty_selection {F} `{!Money F} (S : SortAlgo) (v : Pandas)
    (c : FilterChoice) (raw : list (Row F)) :
  cat_pick c = [] ∨ reg_pick c = [] ∨ seg_pick c = []
    ∨ (end_date c < start_date c)%Z →
  df_f c raw = []
  ∧ make_summary_json S v (df_f c raw)
    = {| total_sales := round2 (series_sum []);
         sales_by_category := [];
         top_products := [];
         monthly_sales_trend := [] |}.
Proof.
  intros Hempty.
  assert (df_f c raw = []) as ->.
  { apply elem_of_nil_inv. intros r [_ Hf]%elem_of_df_f.
    apply in_filter_spec in Hf as ((t & _ & Hrange) & Hc & Hr & Hs).
    destruct Hempty as [He|[He|[He|He]]].
    - rewrite He in Hc. by apply elem_of_nil in Hc.
    - rewrite He in Hr. by apply elem_of_nil in Hr.
    - rewrite He in Hs. by apply elem_of_nil in Hs.
    - lia. }
  split; [done|].
  unfold make_summary_json, sort_desc.
  rewrite !group_totals_nil, month_totals_nil, !sort_by_nil. done.
Qed.

Lemma empty_selection_witness :
  let c := {| start_date := 18632%Z; end_date := 18640%Z; cat_pick := [];
              reg_pick := ["South"]; seg_pick := ["Consumer"] |} in
  df_f c df_two_orders = []
  ∧ sales_by_category
      (make_summary_json merge_sorter pandas3 (df_f c df_two_orders)) = [].
Proof.
  intros c.
  destruct (empty_selection merge_sorter pandas3 c df_two_orders) as [H1 H2];
    [by left|].
  split; [exact H1|]. by rewrite H2.
Defined.

(** Narrowing the selection (a shorter date range, fewer picks) keeps a
    subset of the rows, in the same order, so the order and customer counts
    of the KPI row cannot grow. *)
Theorem narrower_selection {F} (c1 c2 : FilterChoice) (raw : list (Row F)) :
  (start_date c2 ≤ start_date c1)%Z → (end_date c1 ≤ end_date c2)%Z →
  cat_pick c1 ⊆ cat_pick c2 → reg_pick c1 ⊆ reg_pick c2 →
  seg_pick c1 ⊆ seg_pick c2 →
  df_f c1 raw `sublist_of` df_f c2 raw
  ∧ (nunique (order_id <$> df_f c1 raw) ≤ nunique (order_id <$> df_f c2 raw))%nat
  ∧ (nunique (customer_id <$> df_f c1 raw)
     ≤ nunique (customer_id <$> df_f c2 raw))%nat.
Proof.
  intros Hs He Hc Hr Hg.
  assert (∀ r : Row F, in_filter c1 r = true → in_filter c2 r = true) as Himp.
  { intros r. rewrite !in_filter_spec.
    intros ((t & Ht & Hrange) & ? & ? & ?). split_and!; [|by auto..].
    exists t. split; [done|lia]. }
  assert (df_f c1 raw `sublist_of` df_f c2 raw) as Hsub.
  { unfold df_f.
    rewrite <-(list_filter_filter_l (λ r : Row F, in_filter c1 r)
               (λ r : Row F, in_filter c2 r)).
    - apply sublist_filter.
    - intros r. rewrite !Is_true_true. apply Himp. }
  split_and!; [done|..]; apply nunique_subseteq; intros x;
    rewrite !list_elem_of_fmap; intros (r & -> & Hin); exists r;
    (split; [done|]); by apply (sublist_subseteq _ _ Hsub).
Qed.

Lemma narrower_selection_witness :
  let c1 := {| start_date := 18632%Z; end_date := 18632%Z; cat_pick := ["Furniture"];
               reg_pick := ["South"]; seg_pick := ["Consumer"] |} in
  let c2 := {| start_date := 18600%Z; end_date := 18700%Z;
               cat_pick := ["Furniture"; "Technology"];
               reg_pick := ["South"]; seg_pick := ["Consumer"] |} in
  df_f c1 df_two_orders `sublist_of` df_f c2 df_two_orders.
Proof.
  intros c1 c2.
  apply (narrower_selection c1 c2 df_two_orders); cbn; try lia; try done.
  intros x. rewrite !elem_of_cons. tauto.
Defined.

(** ** Sizes of the dimension tables *)

Lemma nunique_le_length {N} `{EqDecision N} (column : list N) : (nunique column ≤ length column)%nat.
Proof. apply sublist_length, loc_not_sublist. Qed.

Lemma nunique_length_NoDup {N} `{EqDecision N} (column : list N) :
  nunique column = length column ↔ NoDup column.
Proof.
  split.
  - intros Hlen.
    assert (drop_duplicates id column ≡ₚ column) as <-.
    { apply submseteq_length_Permutation; [|unfold nunique in Hlen; lia].
      apply sublist_submseteq, loc_not_sublist. }
    apply drop_duplicates_id_NoDup.
  - intros Hnd. symmetry. by apply nunique_NoDup.
Qed.

Section dimension_sizes_facts.
Context {A N K : Type} `{EqDecision N, EqDecision K}.

(** The distinct rows of a projection of the frame, counted against the
    distinct values of one of their columns. *)
Lemma distinct_rows_count (proj : A → N) (key : N → K) (df : list A) :
  let rows := drop_duplicates id (proj <$> df) in
  (nunique (key ∘ proj <$> df) ≤ length rows ≤ length df)%nat
  ∧ (length rows = nunique (key ∘ proj <$> df)
     ↔ ∀ r1 r2, r1 ∈ df → r2 ∈ df →
         key (proj r1) = key (proj r2) → proj r1 = proj r2).
Proof.
  intros rows.
  assert (nunique (key ∘ proj <$> df) = nunique (key <$> rows)) as Hsame.
  { apply nunique_same. intros k. unfold rows.
    rewrite list_fmap_compose, !list_elem_of_fmap.
    by setoid_rewrite elem_of_drop_duplicates_id. }
  assert (∀ r, r ∈ df → proj r ∈ rows) as Hin.
  { intros r Hr. apply elem_of_drop_duplicates_id, list_elem_of_fmap. eauto. }
  split; [split|].
  - rewrite Hsame. etrans; [apply nunique_le_length|]. by rewrite length_fmap.
  - unfold rows. etrans; [apply (nunique_le_length (proj <$> df))|].
    by rewrite length_fmap.
  - rewrite Hsame, <-(length_fmap key rows). split.
    + intros Hlen r1 r2 Hr1 Hr2 Heq.
      apply (NoDup_fmap_elem_inj key rows); [|by apply Hin..|done].
      by apply nunique_length_NoDup.
    + intros Hinj. symmetry. apply nunique_length_NoDup.
      apply NoDup_fmap_2_strong; [|apply drop_duplicates_id_NoDup].
      intros x y Hx Hy Heq.
      apply elem_of_drop_duplicates_id, list_elem_of_fmap in Hx as (r1 & -> & Hr1).
      apply elem_of_drop_duplicates_id, list_elem_of_fmap in Hy as (r2 & -> & Hr2).
      by apply Hinj.
Qed.
End dimension_sizes_facts.

(** The sizes of the tables of a built star schema. The fact table has one
    row per record, the region and ship-mode dimensions one row per distinct
    value. The customer dimension has at least one row per customer
    identifier and at most one per record; it has exactly one per identifier
    if and only if every identifier comes with a single name and segment.
    Likewise for the product dimension with category and sub-category. *)
Theorem dimension_sizes {F} (S : SortAlgo) (df : list (Row F)) (ss : StarSchema F) :
  build_star_schema S df = inr ss →
  length (fact_sales ss) = length df
  ∧ length (dim_region ss) = nunique (geo_of <$> df)
  ∧ length (dim_ship_mode ss) = nunique (ship_mode <$> df)
  ∧ (nunique (customer_id <$> df) ≤ length (dim_customer ss) ≤ length df)%nat
  ∧ (length (dim_customer ss) = nunique (customer_id <$> df)
     ↔ consistent_customers df)
  ∧ (nunique (product_id <$> df) ≤ length (dim_product ss) ≤ length df)%nat
  ∧ (length (dim_product ss) = nunique (product_id <$> df)
     ↔ consistent_products df).
Proof.
  intros Hss. destruct (build_star_schema_fact S df ss Hss) as [Hlen _].
  apply build_star_schema_inv in Hss
    as (lo & hi & _ & _ & _ & _ & Hdc & Hdp & Hdr & Hds & _).
  assert (length (dim_customer ss)
          = length (drop_duplicates id
                      ((λ r, (customer_id r, customer_name r, segment r)) <$> df)))
    as Hlc.
  { rewrite Hdc, <-(length_fmap (λ d, (dc_customer_id d, dc_customer_name d, dc_segment d))).
    rewrite dim_customer_naturals. apply length_sort_by. }
  assert (length (dim_product ss)
          = length (drop_duplicates id
                      ((λ r, (product_id r, category r, sub_category r)) <$> df)))
    as Hlp.
  { rewrite Hdp, <-(length_fmap (λ d, (dp_product_id d, dp_category d, dp_sub_category d))).
    rewrite dim_product_naturals. apply length_sort_by. }
  destruct (distinct_rows_count
              (λ r : Row F, (customer_id r, customer_name r, segment r))
              (λ x, x.1.1) df) as [Hcb Hci].
  destruct (distinct_rows_count
              (λ r : Row F, (product_id r, category r, sub_category r))
              (λ x, x.1.1) df) as [Hpb Hpi].
  split_and!.
  - done.
  - rewrite Hdr, <-(length_fmap dr_geo), dim_region_naturals. apply length_sort_by.
  - rewrite Hds, <-(length_fmap dsm_ship_mode), dim_ship_mode_naturals.
    apply length_sort_by.
  - rewrite Hlc. exact (proj1 Hcb).
  - rewrite Hlc. exact (proj2 Hcb).
  - rewrite Hlc. etrans; [exact Hci|]. unfold consistent_customers. cbn. split.
    + intros H r1 r2 Hr1 Hr2 Hid.
      by pose proof (H r1 r2 Hr1 Hr2 Hid) as [= ? ?].
    + intros H r1 r2 Hr1 Hr2 Hid.
      destruct (H r1 r2 Hr1 Hr2 Hid) as [-> ->]. by rewrite Hid.
  - rewrite Hlp. exact (proj1 Hpb).
  - rewrite Hlp. exact (proj2 Hpb).
  - rewrite Hlp. etrans; [exact Hpi|]. unfold consistent_products. cbn. split.
    + intros H r1 r2 Hr1 Hr2 Hid.
      by pose proof (H r1 r2 Hr1 Hr2 Hid) as [= ? ?].
    + intros H r1 r2 Hr1 Hr2 Hid.
      destruct (H r1 r2 Hr1 Hr2 Hid) as [-> ->]. by rewrite Hid.
Qed.

Lemma dimension_sizes_witness :
  ∃ ss, build_star_schema merge_sorter df_two_names = inr ss
        ∧ length (dim_customer ss) = 2%nat
        ∧ nunique (customer_id <$> df_two_names) = 1%nat
        ∧ ¬ consistent_customers df_two_names.
Proof.
  eexists. split; [vm_compute; reflexivity|].
  split; [vm_compute; reflexivity|]. split; [vm_compute; reflexivity|].
  intros Hc.
  eapply (dimension_sizes merge_sorter df_two_names) in Hc;
    [|vm_compute; reflexivity].
  vm_compute in Hc. discriminate Hc.
Defined.

(** ** From the CSV lines to the star schema *)

(** The star schema built from the normalized frame, against the lines of
    the CSV: the fact table has at most one row per line; every row of the
    region dimension carries the country, region, state and city of some
    line with its postal code cleaned; and the region of every line is in
    the dimension, dropped duplicates included. *)
Theorem pipeline_regions {F} `{EqDecision F} (S : SortAlgo)
    (to_datetime : list (option string) → nat → option Timestamp)
    (raw : list (RawRow F)) (ss : StarSchema F) :
  let geo_of_raw (x : RawRow F) : Geo :=
    (raw_country x, raw_region x, raw_state x, raw_city x,
     clean_postal (raw_postal_code x)) in
  build_star_schema S (load_and_prepare_raw to_datetime raw) = inr ss →
  (length (fact_sales ss) ≤ length raw)%nat
  ∧ (∀ d, d ∈ dim_region ss → ∃ x, x ∈ raw ∧ dr_geo d = geo_of_raw x)
  ∧ (∀ x, x ∈ raw → ∃ d, d ∈ dim_region ss ∧ dr_geo d = geo_of_raw x).
Proof.
  intros geo_of_raw Hss.
  set (df := parsed to_datetime raw).
  set (out := load_and_prepare_raw to_datetime raw) in *.
  assert (∀ r, r ∈ df → ∃ x, x ∈ raw ∧ geo_of r = geo_of_raw x) as Hsrc.
  { intros r (i & Hi)%list_elem_of_lookup. unfold df, parsed in Hi.
    rewrite list_lookup_imap in Hi. apply fmap_Some in Hi as (x & Hx & ->).
    exists x. split; [by eapply list_elem_of_lookup_2|done]. }
  assert (∀ x, x ∈ raw → ∃ r, r ∈ df ∧ geo_of r = geo_of_raw x) as Hdst.
  { intros x (i & Hi)%list_elem_of_lookup.
    exists (parse_row to_datetime (raw_order_date <$> raw) (raw_ship_date <$> raw) i x).
    split; [|done].
    eapply list_elem_of_lookup_2. by apply (parsed_lookup to_datetime). }
  destruct (build_star_schema_fact S out ss Hss) as [Hlen _].
  apply build_star_schema_inv in Hss
    as (lo & hi & _ & _ & _ & _ & _ & _ & Hdr & _ & _).
  split_and!.
  - rewrite Hlen, <-(length_parsed to_datetime raw).
    apply sublist_length, loc_not_sublist.
  - intros d Hd.
    assert (dr_geo d ∈ region_rows S out) as Hg.
    { rewrite <-dim_region_naturals, <-Hdr. apply list_elem_of_fmap. eauto. }
    apply elem_of_natural_rows in Hg as (r & Hr & ->).
    apply Hsrc. by apply (elem_of_drop_duplicates cols_no_rowid).
  - intros x Hx. destruct (Hdst x Hx) as (r & Hr & Hgeo).
    assert (cols_no_rowid r ∈ cols_no_rowid <$> out) as Hin
      by (apply drop_duplicates_keys, list_elem_of_fmap; eauto).
    apply list_elem_of_fmap in Hin as (r' & Heq & Hr').
    pose proof (geo_in_dim S out r' Hr') as Hg. rewrite <-Hdr in Hg.
    apply list_elem_of_fmap in Hg as (d & Hd & Hdin).
    exists d. split; [done|]. rewrite <-Hd, <-Hgeo.
    apply cols_no_rowid_spec in Heq. unfold geo_of. intuition congruence.
Qed.

Lemma pipeline_regions_witness :
  let raw := [example_raw 1 (Some "90210.0"); example_raw 2 (Some "90210")] in
  ∃ ss, build_star_schema merge_sorter (load_and_prepare_raw to_datetime_strict raw)
        = inr ss
        ∧ (length (fact_sales ss) ≤ length raw)%nat.
Proof.
  intros raw. eexists. split; [vm_compute; reflexivity|].
  eapply (pipeline_regions merge_sorter to_datetime_strict raw).
  vm_compute; reflexivity.
Defined.

(** ** The calendar columns of the date dimension *)

Section calendar_columns.
Local Open Scope Z_scope.

Lemma day_of_range (t : Z) : 1 ≤ day_of t ≤ 31.
Proof.
  unfold day_of, civil_from_days. cbn [snd].
  set (z := t + 719468). set (era := z / 146097).
  set (doe := z - era * 146097).
  set (yoe := (doe - doe / 1460 + doe / 36524 - doe / 146096) / 365).
  set (doy := doe - (365 * yoe + yoe / 4 - yoe / 100)).
  clearbody doy. clear.
  Z.div_mod_to_equations. lia.
Qed.

(** The day count of the calendar date of a day is that day. *)
Lemma days_from_civil_of_day (t : Z) :
  days_from_civil (year_of t) (month_of t) (day_of t) = t.
Proof.
  unfold year_of, month_of, day_of, civil_from_days. cbn [fst snd].
  set (z := t + 719468). set (era := z / 146097).
  set (doe := z - era * 146097).
  assert (0 ≤ doe < 146097) as Hdoe.
  { unfold doe, era. pose proof (Z.div_mod z 146097 ltac:(lia)).
    pose proof (Z.mod_pos_bound z 146097 ltac:(lia)). lia. }
  assert (z = era * 146097 + doe) as Hz by (unfold doe; lia).
  clearbody doe.
  set (yoe := (doe - doe / 1460 + doe / 36524 - doe / 146096) / 365).
  assert (0 ≤ yoe ≤ 399) as Hyoe.
  { unfold yoe. Z.div_mod_to_equations. lia. }
  set (doy := doe - (365 * yoe + yoe / 4 - yoe / 100)).
  assert (0 ≤ doy ≤ 365) as Hdoy.
  { unfold doy, yoe. Z.div_mod_to_equations. lia. }
  assert (doe = yoe * 365 + yoe / 4 - yoe / 100 + doy) as Hdoe' by (unfold doy; lia).
  clearbody doy. clearbody yoe.
  set (mp := (5 * doy + 2) / 153).
  assert (0 ≤ mp ≤ 11) as Hmp by (unfold mp; Z.div_mod_to_equations; lia).
  set (d := doy - (153 * mp + 2) / 5 + 1).
  assert (doy = (153 * mp + 2) / 5 + d - 1) as Hd by (unfold d; lia).
  clearbody d. clearbody mp.
  unfold days_from_civil.
  destruct (Z.ltb_spec mp 10) as [Hlt|Hge].
  - replace (mp + 3 <=? 2) with false by (symmetry; apply Z.leb_gt; lia).
    replace (mp + 3 >? 2) with true
      by (symmetry; rewrite Z.gtb_ltb; apply Z.ltb_lt; lia).
    replace (mp + 3 - 3) with mp by lia.
    replace ((yoe + era * 400) / 400) with era by (Z.div_mod_to_equations; lia).
    replace (yoe + era * 400 - era * 400) with yoe by lia. lia.
  - replace (mp - 9 <=? 2) with true by (symmetry; apply Z.leb_le; lia).
    replace (mp - 9 >? 2) with false
      by (symmetry; rewrite Z.gtb_ltb; apply Z.ltb_ge; lia).
    replace (mp - 9 + 9) with mp by lia.
    replace (yoe + era * 400 + 1 - 1) with (yoe + era * 400) by lia.
    replace ((yoe + era * 400) / 400) with era by (Z.div_mod_to_equations; lia).
    replace (yoe + era * 400 - era * 400) with yoe by lia. lia.
Qed.

(** A day is at most 365 days after the first of January of its year. *)
Lemma day_in_year (y m d : Z) :
  1 ≤ m ≤ 12 → 1 ≤ d ≤ 31 →
  0 ≤ days_from_civil y m d - days_from_civil y 1 1 ≤ 365.
Proof.
  intros Hm Hd. unfold days_from_civil.
  replace (1 <=? 2) with true by done. replace (1 >? 2) with false by done.
  destruct (Z.leb_spec m 2) as [Hle|Hgt].
  - replace (m >? 2) with false
      by (symmetry; rewrite Z.gtb_ltb; apply Z.ltb_ge; lia).
    Z.div_mod_to_equations. lia.
  - replace (m >? 2) with true
      by (symmetry; rewrite Z.gtb_ltb; apply Z.ltb_lt; lia).
    Z.div_mod_to_equations. lia.
Qed.

Lemma week_of_year_range (t : Z) : 1 ≤ week_of_year t ≤ 53.
Proof.
  unfold week_of_year.
  set (th := t - ((t + 3) mod 7 + 1) + 4).
  pose proof (day_in_year (year_of th) (month_of th) (day_of th)
                (month_of_range th) (day_of_range th)) as Hy.
  rewrite days_from_civil_of_day in Hy.
  generalize dependent (days_from_civil (year_of th) 1 1). intros j Hj.
  Z.div_mod_to_equations. lia.
Qed.

Lemma quarter_of_range (t : Z) : 1 ≤ quarter_of t ≤ 4.
Proof.
  unfold quarter_of. pose proof (month_of_range t).
  Z.div_mod_to_equations. lia.
Qed.
End calendar_columns.

(** The calendar columns of every row of a built date dimension fit
    together: year, month and day are those of the row's date and give it
    back; the key is the number YYYYMMDD made of them; the quarter is the
    month's quarter; month, day, quarter and ISO week are in range. *)
Theorem dim_date_columns {F} (S : SortAlgo) (df : list (Row F)) (ss : StarSchema F) :
  build_star_schema S df = inr ss →
  ∀ d, d ∈ dim_date ss →
    days_from_civil (year d) (month d) (day d) = full_date d
    ∧ date_key d = (year d * 10000 + month d * 100 + day d)%Z
    ∧ (1 ≤ month d ≤ 12)%Z ∧ (1 ≤ day d ≤ 31)%Z
    ∧ quarter d = ((month d + 2) / 3)%Z ∧ (1 ≤ quarter d ≤ 4)%Z
    ∧ (1 ≤ dd_week_of_year d ≤ 53)%Z.
Proof.
  intros Hss d Hd.
  apply build_star_schema_inv in Hss
    as (lo & hi & _ & _ & _ & Hdd & _ & _ & _ & _ & _).
  rewrite Hdd in Hd. apply list_elem_of_fmap in Hd as (t & -> & _).
  unfold dim_date_row.
  cbv beta iota delta [full_date date_key day month quarter year dd_week_of_year].
  split_and!.
  - apply days_from_civil_of_day.
  - reflexivity.
  - apply month_of_range.
  - apply month_of_range.
  - apply day_of_range.
  - apply day_of_range.
  - unfold quarter_of. pose proof (month_of_range t).
    generalize dependent (month_of t). intros m Hm.
    Z.div_mod_to_equations. lia.
  - apply quarter_of_range.
  - apply quarter_of_range.
  - apply week_of_year_range.
  - apply week_of_year_range.
Qed.

Lemma dim_date_columns_witness :
  ∃ ss, build_star_schema merge_sorter df_two_orders = inr ss
        ∧ ∀ d, d ∈ dim_date ss →
            days_from_civil (year d) (month d) (day d) = full_date d
            ∧ date_key d = (year d * 10000 + month d * 100 + day d)%Z
            ∧ (1 ≤ month d ≤ 12)%Z ∧ (1 ≤ day d ≤ 31)%Z
            ∧ quarter d = ((month d + 2) / 3)%Z ∧ (1 ≤ quarter d ≤ 4)%Z
            ∧ (1 ≤ dd_week_of_year d ≤ 53)%Z.
Proof.
  eexists. split; [vm_compute; reflexivity|].
  apply (dim_date_columns merge_sorter df_two_orders). vm_compute; reflexivity.
Defined.

(** ** The fact table against the frame *)

(** The fact table carries the row identifier, the order identifier and
    the sales amount of each record unchanged, row by row in frame order;
    so the sales of the fact table add up to the sales of the frame. *)
Theorem fact_measures_preserved {F} `{!Money F} (S : SortAlgo) (df : list (Row F))
    (ss : StarSchema F) :
  build_star_schema S df = inr ss →
  fs_row_id <$> fact_sales ss = row_id <$> df
  ∧ fs_order_id <$> fact_sales ss = order_id <$> df
  ∧ fs_sales_amount <$> fact_sales ss = sales <$> df
  ∧ series_sum (fs_sales_amount <$> fact_sales ss) = series_sum (sales <$> df).
Proof.
  intros Hss. destruct (build_star_schema_fact S df ss Hss) as [Hlen Hrows].
  assert (∀ {B} (f : FactSales F → B) (g : Row F → B),
            (∀ lk k r rk, f (fact_row lk k r rk) = g r) →
            f <$> fact_sales ss = g <$> df) as Hcol.
  { intros B f g Hfg. apply list_eq. intros i. rewrite !list_lookup_fmap.
    destruct (df !! i) as [r|] eqn:Hi.
    - destruct (Hrows i r Hi) as (rk & _ & ->). cbn. by rewrite Hfg.
    - apply lookup_ge_None in Hi. rewrite <-Hlen in Hi.
      apply lookup_ge_None in Hi. by rewrite Hi. }
  assert (fs_sales_amount <$> fact_sales ss = sales <$> df) as Hsales
    by (by apply Hcol).
  split_and!; [by apply Hcol..|done|by rewrite Hsales].
Qed.

Lemma fact_measures_preserved_witness :
  ∃ ss, build_star_schema merge_sorter df_two_orders = inr ss
        ∧ fs_sales_amount <$> fact_sales ss = [100%Z; 50%Z].
Proof.
  eexists. split; [vm_compute; reflexivity|].
  change [100%Z; 50%Z] with (sales <$> df_two_orders).
  apply (fact_measures_preserved merge_sorter df_two_orders). vm_compute; reflexivity.
Defined.

(** ** What the summary owes to the sorting routine *)

Section summary_sort_facts.
Context {F : Type} `{!Money F}.
Implicit Types (df : list (Row F)) (key : Row F → string).

Lemma group_totals_sort_indep (S1 S2 : SortAlgo) key df :
  group_totals S1 key df = group_totals S2 key df.
Proof.
  unfold group_totals, groupby.
  by rewrite (sorted_distinct_unique S1 S2 String.leb (key <$> df) (key <$> df)
                string_leb_order).
Qed.

Lemma sorted_totals_sort_indep (S1 S2 : SortAlgo)
    (le : string * F → string * F → bool) key df :
  TotalPreorderB le →
  (∀ x y, x ∈ group_totals S1 key df → y ∈ group_totals S1 key df →
     le x y → le y x → x.1 = y.1) →
  sort_by S1 le (group_totals S1 key df) = sort_by S2 le (group_totals S2 key df).
Proof.
  intros Hle Hties. rewrite <-(group_totals_sort_indep S1 S2).
  apply (StronglySorted_unique_strong (λ x y, le x y)).
  - intros x y Hx Hy Hxy Hyx.
    apply elem_of_sort_by in Hx, Hy.
    apply (NoDup_fmap_elem_inj fst (group_totals S1 key df)); [|done..|by apply Hties].
    rewrite group_totals_keys. apply groupby_keys_NoDup.
  - by apply (sort_by_sorted S1).
  - by apply (sort_by_sorted S2).
  - by rewrite !(sort_by_perm _).
Qed.

Lemma month_totals_sort_indep (S1 S2 : SortAlgo) v df :
  month_totals S1 v df = month_totals S2 v df.
Proof.
  unfold month_totals, groupby_dropna.
  set (keys := omap (λ r, period_str v (order_date r)) df).
  by rewrite (sorted_distinct_unique S1 S2 String.leb keys keys string_leb_order).
Qed.

Lemma trend_sort_indep (S1 S2 : SortAlgo) v df :
  sort_by S1 (on fst String.leb) (month_totals S1 v df)
  = sort_by S2 (on fst String.leb) (month_totals S2 v df).
Proof.
  rewrite <-(month_totals_sort_indep S1 S2).
  apply (StronglySorted_unique_strong (λ x y, on fst String.leb x y)).
  - intros x y Hx Hy Hxy Hyx.
    apply elem_of_sort_by in Hx, Hy.
    apply (NoDup_fmap_elem_inj fst (month_totals S1 v df)); [|done..|].
    + rewrite month_totals_keys. apply groupby_dropna_keys_NoDup.
    + by apply (@leb_antisym _ String.leb string_leb_order).
  - apply (sort_by_sorted S1), on_preorder, string_leb_order.
  - apply (sort_by_sorted S2), on_preorder, string_leb_order.
  - by rewrite !(sort_by_perm _).
Qed.

Lemma ranking_sort_indep (S1 S2 : SortAlgo) key df :
  no_tied_totals key df →
  sort_desc S1 (group_totals S1 key df) = sort_desc S2 (group_totals S2 key df).
Proof.
  intros Hties. apply sorted_totals_sort_indep.
  - apply on_preorder, sum_ge_preorder.
  - intros [k1 v1] [k2 v2] Hx Hy Hxy Hyx. cbn.
    apply elem_of_group_totals in Hx as [(r1 & -> & Hr1)%list_elem_of_fmap ->].
    apply elem_of_group_totals in Hy as [(r2 & -> & Hr2)%list_elem_of_fmap ->].
    by apply Hties.
Qed.
End summary_sort_facts.

(** The total and the monthly trend of a summary do not depend on how the
    sorting routine orders rows that compare equal, under either pandas
    line. *)
Theorem summary_trend_sort_independent {F} `{!Money F} (S1 S2 : SortAlgo)
    (v : Pandas) (df : list (Row F)) :
  total_sales (make_summary_json S1 v df) = total_sales (make_summary_json S2 v df)
  ∧ monthly_sales_trend (make_summary_json S1 v df)
    = monthly_sales_trend (make_summary_json S2 v df).
Proof.
  split; [done|]. unfold make_summary_json. cbn [monthly_sales_trend].
  by rewrite (trend_sort_indep S1 S2).
Qed.

(** When no two categories and no two products have totals that compare
    equal, the whole summary is fixed by the subset: the sorting routine
    has no say in it. *)
Theorem summary_sort_independent {F} `{!Money F} (S1 S2 : SortAlgo)
    (v : Pandas) (df : list (Row F)) :
  no_tied_totals category df → no_tied_totals product_name df →
  make_summary_json S1 v df = make_summary_json S2 v df.
Proof.
  intros Hc Hp. unfold make_summary_json.
  rewrite (ranking_sort_indep S1 S2 category df Hc).
  rewrite (ranking_sort_indep S1 S2 product_name df Hp).
  by rewrite (trend_sort_indep S1 S2).
Qed.

Lemma summary_sort_independent_witness :
  no_tied_totals category df_categories
  ∧ no_tied_totals product_name df_categories
  ∧ make_summary_json merge_sorter pandas3 df_categories
    = make_summary_json merge_sorter pandas3 df_categories.
Proof.
  assert (∀ key : Row Z → string,
            (∀ r1 r2, r1 ∈ df_categories → r2 ∈ df_categories →
               key r1 = key r2
               ∨ (foldr Z.add 0 (sales <$> filter (λ r', key r' = key r1) df_categories)
                  ≠ foldr Z.add 0 (sales <$> filter (λ r', key r' = key r2) df_categories))%Z) →
            no_tied_totals key df_categories) as Hno.
  { intros key Hne r1 r2 Hr1 Hr2 total H12 H21.
    destruct (Hne r1 r2 Hr1 Hr2) as [Heq|Hdiff]; [done|].
    unfold total in H12, H21. cbv [sum_ge group_sum money_Z] in H12, H21.
    apply Is_true_true, Z.leb_le in H12. apply Is_true_true, Z.leb_le in H21.
    lia. }
  assert (no_tied_totals category df_categories) as Hc.
  { apply Hno. intros r1 r2 Hr1 Hr2. unfold df_categories in Hr1, Hr2.
    rewrite !elem_of_cons, elem_of_nil in Hr1, Hr2.
    destruct Hr1 as [->|[->|[->|[]]]], Hr2 as [->|[->|[->|[]]]];
      vm_compute; first [by left|right; discriminate]. }
  assert (no_tied_totals product_name df_categories) as Hp.
  { apply Hno. intros r1 r2 Hr1 Hr2. unfold df_categories in Hr1, Hr2.
    rewrite !elem_of_cons, elem_of_nil in Hr1, Hr2.
    destruct Hr1 as [->|[->|[->|[]]]], Hr2 as [->|[->|[->|[]]]];
      vm_compute; first [by left|right; discriminate]. }
  split; [exact Hc|]. split; [exact Hp|].
  exact (summary_sort_independent merge_sorter merge_sorter pandas3
           df_categories Hc Hp).
Defined.
